(** * TCP chat server: wire codec and server session protocol

    A shallow embedding of [TCP_Server_Client.py].

    - Python [bytes] are [list byte].
    - A Python [str] is held as a Rocq [string] that carries its UTF-8
      encoding, so [str.encode()] is the underlying byte list and
      [bytes.decode()] is the strict UTF-8 check of [Utf8.valid].
    - A [StreamReader] is the list of bytes the peer has sent and that have
      not been consumed yet, followed by end-of-stream: [read n] hands out
      at most [n] of them.
    - A [StreamWriter] is named by a connection number; every call of
      [writer.write] is appended to one chronological log, the [transport].
    - Exceptions are explicit: a computation is a function from a state to
      a [result] and the state reached, the state being kept when the
      computation raises, as in Python.
    - The transport itself never fails: every [write] is taken, and
      [drain] and [close] raise nothing.
    - Handlers of different connections interleave at their [await]s. In
      one pass through the loop of [server_handle_clients] everything that
      touches the server object comes after the last [await] of the pass,
      so a pass acts on the world in one piece, and a run of the server is
      a sequence of such passes. *)

From Stdlib Require Import ZArith String Ascii Bool Lia List.
From Stdlib Require Import Strings.Byte.
Import ListNotations.
Local Open Scope Z_scope.

(** ** Exceptions and the state/exception monad *)

Inductive exn : Set :=
| StructError          (* struct.error *)
| UnicodeDecodeError
| KeyError
| IndexError
| AttributeError.

Inductive result (A : Type) : Type :=
| Ok (a : A)
| Raise (e : exn).
Arguments Ok {A} a.
Arguments Raise {A} e.

Definition M (S A : Type) : Type := S -> result A * S.

Definition ret {S A} (a : A) : M S A := fun s => (Ok a, s).

Definition raise {S A} (e : exn) : M S A := fun s => (Raise e, s).

Definition bind {S A B} (m : M S A) (k : A -> M S B) : M S B :=
  fun s => match m s with
           | (Ok a, s') => k a s'
           | (Raise e, s') => (Raise e, s')
           end.

Definition lift_result {S A} (r : result A) : M S A := fun s => (r, s).

(** [try: m  except: h] with a bare [except], which catches everything. *)
Definition try_except {S A} (m : M S A) (h : M S A) : M S A :=
  fun s => match m s with
           | (Ok a, s') => (Ok a, s')
           | (Raise _, s') => h s'
           end.

Definition get {S} : M S S := fun s => (Ok s, s).
Definition modify {S} (f : S -> S) : M S unit := fun s => (Ok tt, f s).

Declare Scope py_scope.
Delimit Scope py_scope with py.
Notation "x <- m ;; k" := (bind m (fun x => k))
  (at level 61, m at next level, right associativity) : py_scope.
Notation "m ;; k" := (bind m (fun _ => k))
  (at level 61, right associativity) : py_scope.
Local Open Scope py_scope.

(** [for x in xs: body x] *)
Fixpoint for_each {S A} (xs : list A) (body : A -> M S unit) : M S unit :=
  match xs with
  | [] => ret tt
  | x :: xs' => body x ;; for_each xs' body
  end.

(** [acc = []; for i in range n: acc.append(body); return acc] *)
Fixpoint for_range {S A} (n : nat) (body : M S A) : M S (list A) :=
  match n with
  | O => ret []
  | S n' => x <- body ;; xs <- for_range n' body ;; ret (x :: xs)
  end.

(** ** The [struct] formats the program uses: ['<i'] and ['<?'] *)

Definition bytes := list byte.

Module Struct.

Inductive format : Set :=
| fmt_i      (* '<i' : little-endian signed 32-bit integer *)
| fmt_bool.  (* '<?' : one byte *)

Definition calcsize (f : format) : Z :=
  match f with fmt_i => 4 | fmt_bool => 1 end.

Definition value (f : format) : Type :=
  match f with fmt_i => Z | fmt_bool => bool end.

Definition Z_of_byte (b : byte) : Z := Z.of_N (Byte.to_N b).

Definition byte_of_Z (z : Z) : byte :=
  match Byte.of_N (Z.to_N (z mod 256)) with
  | Some b => b
  | None => x00
  end.

(** The four bytes of a two's complement 32-bit integer, lowest first. *)
Definition le32 (n : Z) : bytes :=
  [ byte_of_Z n;
    byte_of_Z (n / 256);
    byte_of_Z (n / 256 / 256);
    byte_of_Z (n / 256 / 256 / 256) ].

(** [struct.pack('<i', n)]: out of range raises [struct.error]. *)
Definition pack_i (n : Z) : result bytes :=
  if (- 2 ^ 31 <=? n) && (n <? 2 ^ 31) then Ok (le32 n)
  else Raise StructError.

(** [struct.pack('<?', b)] *)
Definition pack_bool (b : bool) : bytes := [ if b then x01 else x00 ].

(** [struct.pack(str(len(s)) + 's', s)] is [s] itself. *)
Definition pack_s (s : bytes) : bytes := s.

Definition unsigned32 (b0 b1 b2 b3 : byte) : Z :=
  Z_of_byte b0 + 256 * (Z_of_byte b1
    + 256 * (Z_of_byte b2 + 256 * Z_of_byte b3)).

(** [struct.unpack(f, data)[0]]: a buffer of the wrong size raises
    [struct.error]. *)
Definition unpack (f : format) (data : bytes) : result (value f) :=
  match f with
  | fmt_i =>
      match data with
      | [b0; b1; b2; b3] =>
          let u := unsigned32 b0 b1 b2 b3 in
          Ok (if u <? 2 ^ 31 then u else u - 2 ^ 32)
      | _ => Raise StructError
      end
  | fmt_bool =>
      match data with
      | [b] => Ok (negb (Byte.eqb b x00))
      | _ => Raise StructError
      end
  end.

End Struct.

(** ** Strict UTF-8, as [bytes.decode()] checks it *)

Module Utf8.

Definition between (lo hi : N) (b : byte) : bool :=
  (N.leb lo (Byte.to_N b) && N.leb (Byte.to_N b) hi)%bool.

Definition cont (b : byte) : bool := between 128 191 b.

(** Lead byte and first continuation byte of a three-byte sequence:
    no overlong form, no surrogate. *)
Definition three (b0 b1 : byte) : bool :=
  (between 224 224 b0 && between 160 191 b1)
  || (between 225 236 b0 && cont b1)
  || (between 237 237 b0 && between 128 159 b1)
  || (between 238 239 b0 && cont b1).

(** Lead byte and first continuation byte of a four-byte sequence:
    no overlong form, nothing above U+10FFFF. *)
Definition four (b0 b1 : byte) : bool :=
  (between 240 240 b0 && between 144 191 b1)
  || (between 241 243 b0 && cont b1)
  || (between 244 244 b0 && between 128 143 b1).

Fixpoint valid (data : bytes) : bool :=
  match data with
  | [] => true
  | b0 :: t0 =>
      if between 0 127 b0 then valid t0 else
      match t0 with
      | [] => false
      | b1 :: t1 =>
          if between 194 223 b0 && cont b1 then valid t1 else
          match t1 with
          | [] => false
          | b2 :: t2 =>
              if three b0 b1 && cont b2 then valid t2 else
              match t2 with
              | [] => false
              | b3 :: t3 =>
                  if four b0 b1 && cont b2 && cont b3 then valid t3
                  else false
              end
          end
      end
  end.

End Utf8.

(** [s.encode()] *)
Definition encode (s : string) : bytes := list_byte_of_string s.

(** [data.decode()] *)
Definition decode (data : bytes) : result string :=
  if Utf8.valid data then Ok (string_of_list_byte data)
  else Raise UnicodeDecodeError.

(** A Rocq [string] that stands for a Python [str]. *)
Definition is_str (s : string) : Prop := Utf8.valid (encode s) = true.

(** [len(x)] as a Python integer. *)
Definition len {A} (l : list A) : Z := Z.of_nat (length l).

(** ** Stream reader *)

Definition reader := bytes.

(** [await reader.read(n)] on a stream whose remaining bytes are all
    buffered: nothing for [n = 0], everything up to end-of-stream for
    [n < 0], at most [n] bytes otherwise. *)
Definition read (n : Z) : M reader bytes :=
  fun buf =>
    if n =? 0 then (Ok [], buf)
    else if n <? 0 then (Ok buf, [])
    else (Ok (firstn (Z.to_nat n) buf), skipn (Z.to_nat n) buf).

(** The formats used hold one value, so the tuple of [struct.unpack] is
    that value. *)
Definition recv_formatted_data (frmt : Struct.format)
  : M reader (Struct.value frmt) :=
  data <- read (Struct.calcsize frmt) ;;
  lift_result (Struct.unpack frmt data).

Definition recv_single_value (frmt : Struct.format)
  : M reader (Struct.value frmt) :=
  recv_formatted_data frmt.

Definition recv_str : M reader string :=
  length <- recv_single_value Struct.fmt_i ;;
  data <- read length ;;
  lift_result (decode data).

Definition recv_str_list : M reader (list string) :=
  length <- recv_single_value Struct.fmt_i ;;
  for_range (Z.to_nat length) recv_str.

Definition recv_list_of_lists : M reader (list (list string)) :=
  length <- recv_single_value Struct.fmt_i ;;
  for_range (Z.to_nat length) recv_str_list.

(** ** Stream writers *)

Definition writer := nat.
Bind Scope nat_scope with writer.

(** Every [writer.write(data)] so far, oldest first. *)
Definition transport := list (writer * bytes).

Definition write (w : writer) (data : bytes) : M transport unit :=
  modify (fun net => net ++ [(w, data)]).

(** The byte stream handed to writer [w]. *)
Fixpoint sent_to (w : writer) (net : transport) : bytes :=
  match net with
  | [] => []
  | (w', data) :: net' =>
      if Nat.eqb w' w then data ++ sent_to w net' else sent_to w net'
  end.

Definition send_str (w : writer) (s : string) : M transport unit :=
  let string := encode s in
  data <- lift_result (Struct.pack_i (len string)) ;;
  let data := data ++ Struct.pack_s string in
  write w data.

Definition send_str_list (w : writer) (strings : list string)
  : M transport unit :=
  data <- lift_result (Struct.pack_i (len strings)) ;;
  write w data ;;
  for_each strings (send_str w).

Definition send_list_of_lists (w : writer) (messages : list (list string))
  : M transport unit :=
  data <- lift_result (Struct.pack_i (len messages)) ;;
  write w data ;;
  for_each messages (send_str_list w).

(** ** A Python [dict] with [str] keys, kept in insertion order *)

Module Dict.

Definition t (V : Type) : Type := list (string * V).

(** [k in d.keys()] *)
Fixpoint contains {V} (k : string) (d : t V) : bool :=
  match d with
  | [] => false
  | (k', _) :: d' => String.eqb k' k || contains k d'
  end.

(** [d[k] = v]: a new key goes last, a known key keeps its place. *)
Fixpoint setitem {V} (k : string) (v : V) (d : t V) : t V :=
  match d with
  | [] => [(k, v)]
  | (k', v') :: d' =>
      if String.eqb k' k then (k', v) :: d' else (k', v') :: setitem k v d'
  end.

(** [del d[k]]: a missing key raises [KeyError]. *)
Fixpoint delitem {V} (k : string) (d : t V) : result (t V) :=
  match d with
  | [] => Raise KeyError
  | (k', v') :: d' =>
      if String.eqb k' k then Ok d'
      else match delitem k d' with
           | Ok d'' => Ok ((k', v') :: d'')
           | Raise e => Raise e
           end
  end.

(** [d.values()] *)
Definition values {V} (d : t V) : list V := map snd d.

(** [d.keys()] *)
Definition keys {V} (d : t V) : list string := map fst d.

End Dict.

(** ** The server object and its surroundings *)

Record world : Type := mkWorld {
  messages : list (list string);   (* self.messages *)
  people : Dict.t writer;          (* self.people *)
  wire : transport;                (* what has been written, to whom *)
  closed : list writer             (* writers that have been closed *)
}.

Definition set_messages (f : list (list string) -> list (list string))
  (self : world) : world :=
  mkWorld (f (messages self)) (people self) (wire self) (closed self).

Definition set_people (f : Dict.t writer -> Dict.t writer) (self : world)
  : world :=
  mkWorld (messages self) (f (people self)) (wire self) (closed self).

Definition set_wire (net : transport) (self : world) : world :=
  mkWorld (messages self) (people self) net (closed self).

(** [writer.close()] *)
Definition close (w : writer) (self : world) : world :=
  mkWorld (messages self) (people self) (wire self) (closed self ++ [w]).

(** What a handler coroutine works on: its own reader and the world. *)
Definition session : Type := reader * world.

Definition on_wire {A} (m : M transport A) : M world A :=
  fun self => let (r, net) := m (wire self) in (r, set_wire net self).

Definition on_reader {A} (m : M reader A) : M session A :=
  fun s => let (r, rd) := m (fst s) in (r, (rd, snd s)).

Definition on_world {A} (m : M world A) : M session A :=
  fun s => let (r, self) := m (snd s) in (r, (fst s, self)).

(** A variable that holds [False] or a [str]. *)
Definition str_or_False := option string.

(** Python truth value: [False] and the empty [str] are falsy. *)
Definition truthy (v : str_or_False) : bool :=
  match v with
  | None => false
  | Some s => negb (String.eqb s "")
  end.

(** [v != ''] *)
Definition differs_from_empty (v : str_or_False) : bool :=
  match v with
  | None => true
  | Some s => negb (String.eqb s "")
  end.

(** How one pass through the body of [while True] ends. *)
Inductive flow : Type :=
| Next (valid_username : str_or_False)   (* go round again *)
| Break.

Module TCPServerClient.

(** [__init__], with nothing written and nothing closed yet *)
Definition init : world := mkWorld [] [] [] [].

Definition send_messages_to_all (message : list string) : M world unit :=
  self <- get ;;
  for_each (Dict.values (people self))
    (fun writer => on_wire (send_str_list writer message)).

Definition add_to_recent_messages (message_list : list string)
  : M world unit :=
  modify (set_messages (fun messages =>
    (if Nat.eqb (length messages) 10 then tl messages else messages)
      ++ [message_list])).

Definition new_connection (writer : writer) (username : string)
  : M world unit :=
  modify (set_people (Dict.setitem username writer)) ;;
  self <- get ;;
  on_wire (send_list_of_lists writer (messages self)).

Definition server_get_username_validation (writer : writer)
  : M session str_or_False :=
  username <- on_reader recv_str ;;
  self <- on_world get ;;
  if negb (Dict.contains username (people self)) then
    on_world (on_wire (write writer (Struct.pack_bool true))) ;;
    on_world (new_connection writer username) ;;
    ret (Some username)
  else
    on_world (on_wire (write writer (Struct.pack_bool false))) ;;
    ret None.

(** [del self.people[valid_username]] *)
Definition del_people (valid_username : string) : M world unit :=
  self <- get ;;
  d <- lift_result (Dict.delitem valid_username (people self)) ;;
  modify (set_people (fun _ => d)).

Definition server_receive_messages (writer : writer)
  (valid_username : string) : M session str_or_False :=
  try_except
    (message <- on_reader recv_str ;; ret (Some message))
    (on_world (del_people valid_username) ;; ret None).

(** [self.messages[-1]] *)
Definition last_message : M world (list string) :=
  self <- get ;;
  match rev (messages self) with
  | message :: _ => ret message
  | [] => raise IndexError
  end.

(** One pass through the body of the [while True] of
    [server_handle_clients]; [now] is what [time.strftime('%X')] returns
    during this pass. *)
Definition loop_body (now : string) (writer : writer)
  (valid_username : str_or_False) : M session flow :=
  data <- on_reader (recv_single_value Struct.fmt_i) ;;
  valid_username <-
    (if (data =? 1) && negb (truthy valid_username)
     then server_get_username_validation writer
     else ret valid_username) ;;
  match valid_username with
  | Some username =>
      if truthy valid_username then
        if data =? 2 then
          message <- server_receive_messages writer username ;;
          if negb (truthy message) && differs_from_empty message
          then ret Break
          else
            match message with
            | Some message =>
                on_world
                  (add_to_recent_messages [now; username; message]) ;;
                last <- on_world last_message ;;
                on_world (send_messages_to_all last) ;;
                ret (Next valid_username)
            | None => raise AttributeError   (* not reached: [False] breaks *)
            end
        else ret (Next valid_username)
      else ret Break
  | None => ret Break
  end.

(** The [while True] loop; [clock k] is the time text during pass [k].
    [None] means the fuel ran out before the loop ended. *)
Fixpoint while_true (fuel : nat) (clock : nat -> string) (pass : nat)
  (writer : writer) (valid_username : str_or_False) (s : session)
  : option (result unit * session) :=
  match fuel with
  | O => None
  | S fuel' =>
      match loop_body (clock pass) writer valid_username s with
      | (Ok (Next valid_username'), s') =>
          while_true fuel' clock (S pass) writer valid_username' s'
      | (Ok Break, s') => Some (Ok tt, s')
      | (Raise e, s') => Some (Raise e, s')
      end
  end.

(** The handler of one connection. [Ok] is the normal end, after
    [writer.close()]; [Raise] is an exception that leaves the coroutine,
    which then never reaches [writer.close()]. *)
Definition server_handle_clients (clock : nat -> string) (writer : writer)
  (s : session) : option (result unit * session) :=
  match while_true (S (length (fst s))) clock 0 writer None s with
  | Some (Ok tt, (rd, self)) => Some (Ok tt, (rd, close writer self))
  | other => other
  end.

(** *** Client side *)

(** [client_send_username], [username] being what [input] returns *)
Definition client_send_username (writer : writer) (username : string)
  : M transport unit :=
  data <- lift_result (Struct.pack_i 1) ;;
  write writer data ;;
  send_str writer username.

(** The [while True] of [write_to_server] while [input] returns the
    [lines] in turn and then fails at the end of the input; the opcode of
    a message is written before its text is asked for. *)
Definition input_loop (writer : writer) (lines : list string)
  : M transport unit :=
  for_each lines (fun data =>
    opcode <- lift_result (Struct.pack_i 2) ;;
    write writer opcode ;;
    send_str writer data) ;;
  opcode <- lift_result (Struct.pack_i 2) ;;
  write writer opcode.

Definition write_to_server (writer : writer) (username : string)
  (lines : list string) : M transport unit :=
  client_send_username writer username ;;
  input_loop writer lines.

(** What [read_from_server] reads before its message loop: the verdict
    and, when accepted, the recent messages. *)
Definition read_handshake : M reader (bool * list (list string)) :=
  valid_username <- recv_single_value Struct.fmt_bool ;;
  if valid_username : bool then
    recent_messages <- recv_list_of_lists ;;
    ret (true, recent_messages)
  else ret (false, []).

End TCPServerClient.

(** ** The frames of the protocol as byte strings

    Int32: 4 bytes, signed, little-endian.  Bool: 1 byte.  String: the
    Int32 byte length, then the UTF-8 bytes.  StringList: the Int32 count,
    then the String frames.  ListOfStringLists: the Int32 count, then the
    StringList frames. *)

Module Wire.

Definition int32 (n : Z) : bytes := Struct.le32 n.

Definition flag (b : bool) : bytes := [ if b then x01 else x00 ].

Definition str (s : string) : bytes := int32 (len (encode s)) ++ encode s.

Definition str_list (l : list string) : bytes :=
  int32 (len l) ++ concat (map str l).

Definition list_of_lists (ll : list (list string)) : bytes :=
  int32 (len ll) ++ concat (map str_list ll).

(** Sizes that an Int32 prefix can announce. *)
Definition str_fits (s : string) : bool := len (encode s) <? 2 ^ 31.

Definition str_list_fits (l : list string) : bool :=
  (len l <? 2 ^ 31) && forallb str_fits l.

Definition list_of_lists_fits (ll : list (list string)) : bool :=
  (len ll <? 2 ^ 31) && forallb str_list_fits ll.

(** The writes by which [send_str_list] and [send_list_of_lists] put a
    frame on writer [w]. *)
Definition str_list_writes (w : writer) (l : list string) : transport :=
  (w, int32 (len l)) :: map (fun s => (w, str s)) l.

Definition list_of_lists_writes (w : writer) (ll : list (list string))
  : transport :=
  (w, int32 (len ll)) :: flat_map (str_list_writes w) ll.

End Wire.

Arguments Struct.le32 : simpl never.
Arguments Wire.int32 : simpl never.
Arguments Wire.str : simpl never.
Arguments Wire.str_list : simpl never.
Arguments Wire.list_of_lists : simpl never.
Arguments Wire.str_list_writes : simpl never.
Arguments Wire.list_of_lists_writes : simpl never.

(** The last [n] elements of a list, in order. *)
Definition lastn {A} (n : nat) (l : list A) : list A :=
  skipn (length l - n) l.

(** The history after the messages [msgs] have been appended, one by one,
    to the empty history of a new server. *)
Definition history_after (msgs : list (list string)) : list (list string) :=
  messages (snd (for_each msgs TCPServerClient.add_to_recent_messages
                   TCPServerClient.init)).

(** A dict holds each key once. *)
Definition well_formed {V} (d : Dict.t V) : Prop := NoDup (Dict.keys d).

(** ** Readings of the specification that the code does not follow *)

Module Reading.

(** After this pass the session is still waiting for a username. *)
Definition remains_awaiting_username (now : string) (w : writer)
  (s : session) : Prop :=
  exists s', TCPServerClient.loop_body now w None s = (Ok (Next None), s').

(** This pass ends the loop, so that the connection is closed. *)
Definition terminates_connection (now : string) (w : writer)
  (valid_username : str_or_False) (s : session) : Prop :=
  exists s',
    TCPServerClient.loop_body now w valid_username s = (Ok Break, s').

(** Removing a key that is absent raises nothing and changes nothing. *)
Definition safe_on_absent_key (username : string) (self : world) : Prop :=
  Dict.contains username (people self) = false ->
  TCPServerClient.del_people username self = (Ok tt, self).

End Reading.

(** ** Relations that every step of a computation respects *)

(** Whatever [m] returns or raises, the state it reaches is related by [R]
    to the state it started from. *)
Definition respects {S A} (R : S -> S -> Prop) (m : M S A) : Prop :=
  forall s r s', m s = (r, s') -> R s s'.

(** A reader never gets bytes back. *)
Definition no_longer (rd rd' : reader) : Prop :=
  (length rd' <= length rd)%nat.

Definition shrinks (s s' : session) : Prop := no_longer (fst s) (fst s').

(** A key of the registry stays in it. *)
Definition keeps_key (k : string) (self self' : world) : Prop :=
  Dict.contains k (people self) = true ->
  Dict.contains k (people self') = true.

Definition session_keeps_key (k : string) (s s' : session) : Prop :=
  keeps_key k (snd s) (snd s').

Definition anything {S} (s s' : S) : Prop := True.

(** *** Relations between the worlds before and after a step *)

Definition in_world (R : world -> world -> Prop) (s s' : session) : Prop :=
  R (snd s) (snd s').

(** The step leaves the part [f] of the world as it was. *)
Definition unchanged {X} (f : world -> X) (self self' : world) : Prop :=
  f self' = f self.

(** What holds before the step holds after it. *)
Definition preserves (P : world -> Prop) (self self' : world) : Prop :=
  P self -> P self'.

(** No username is registered twice. *)
Definition unique_names (self : world) : Prop := well_formed (people self).

(** The history holds at most 10 messages, each of three strings. *)
Definition history_ok (self : world) : Prop :=
  (length (messages self) <= 10)%nat
  /\ Forall (fun m : list string => length m = 3%nat) (messages self).

(** Nothing is written to any writer but [w]. *)
Definition only_writes_to (w : writer) (net net' : transport) : Prop :=
  forall w', w' <> w -> sent_to w' net' = sent_to w' net.

Definition silent_for_others (w : writer) (self self' : world) : Prop :=
  only_writes_to w (wire self) (wire self').

(** What [server_handle_clients] does with a message once the session
    is registered as [username]: the part of the loop under
    [if data == 2]. *)
Definition message_part (now : string) (writer : writer)
  (username : string) : M session flow :=
  message <- TCPServerClient.server_receive_messages writer username ;;
  if negb (truthy message) && differs_from_empty message
  then ret Break
  else
    match message with
    | Some message =>
        on_world
          (TCPServerClient.add_to_recent_messages
             [now; username; message]) ;;
        last <- on_world TCPServerClient.last_message ;;
        on_world (TCPServerClient.send_messages_to_all last) ;;
        ret (Next (Some username))
    | None => raise AttributeError
    end.

(** *** A whole client session *)

(** An opcode followed by a String frame. *)
Definition request (opcode : Z) (text : string) : bytes :=
  Wire.int32 opcode ++ Wire.str text.

(** The requests for the [lines], and the opcode written ahead of the
    line that never comes. *)
Definition message_stream (lines : list string) : bytes :=
  concat (map (request 2) lines) ++ Wire.int32 2.

Definition client_stream (username : string) (lines : list string) : bytes :=
  request 1 username ++ message_stream lines.

(** The triples the server makes of the [lines] of [username], the first
    of them during pass [pass]. *)
Fixpoint posts (clock : nat -> string) (pass : nat) (username : string)
  (lines : list string) : list (list string) :=
  match lines with
  | [] => []
  | line :: lines' =>
      [clock pass; username; line] :: posts clock (S pass) username lines'
  end.

(** The history [h] after the messages [msgs] have been appended. *)
Definition history_from (h : list (list string))
  (msgs : list (list string)) : list (list string) :=
  messages (snd (for_each msgs TCPServerClient.add_to_recent_messages
                   (mkWorld h [] [] []))).

(** The writes that send each of the [msgs] to every writer of [ws]. *)
Definition broadcasts (ws : list writer) (msgs : list (list string))
  : transport :=
  flat_map (fun m => flat_map (fun w => Wire.str_list_writes w m) ws) msgs.

(** ** The reader flow of the client *)

Module ClientSide.

(** What the reader flow works on: its reader and the lines printed so
    far, oldest first. *)
Definition client : Type := reader * list string.

Definition on_input {A} (m : M reader A) : M client A :=
  fun c => let (r, rd) := m (fst c) in (r, (rd, snd c)).

(** [print(line)] *)
Definition print (line : string) : M client unit :=
  modify (fun c => (fst c, snd c ++ [line])).

(** [sep.join(strings)] *)
Definition join (sep : string) (strings : list string) : string :=
  String.concat sep strings.

Definition client_get_recent_messages : M client unit :=
  recent_messages <- on_input recv_list_of_lists ;;
  for_each recent_messages (fun message => print (join " " message)).

(** One pass through the body of [while valid_username]. *)
Definition loop_pass : M client unit :=
  message <- on_input recv_str_list ;;
  print (join " " message).

(** The loop [while valid_username] once the verdict was true: the
    verdict never changes, so the loop is only left by an exception.
    [None] means the fuel ran out. *)
Fixpoint while_valid (fuel : nat) (c : client)
  : option (result unit * client) :=
  match fuel with
  | O => None
  | S fuel' =>
      match loop_pass c with
      | (Ok _, c') => while_valid fuel' c'
      | (Raise e, c') => Some (Raise e, c')
      end
  end.

(** The part of [read_from_server] before its loop. *)
Definition read_verdict : M client bool :=
  valid_username <- on_input (recv_single_value Struct.fmt_bool) ;;
  (if valid_username : bool then client_get_recent_messages else ret tt) ;;
  ret valid_username.

Definition read_from_server (c : client) : option (result unit * client) :=
  match read_verdict c with
  | (Ok true, c') => while_valid (S (length (fst c'))) c'
  | (Ok false, c') => Some (Ok tt, c')
  | (Raise e, c') => Some (Raise e, c')
  end.

End ClientSide.

(** ** The peer-to-peer chat over UDP ([UDPpeer_to_peer.py]) *)

(** Indexing a Python [str] held as its UTF-8 bytes. *)
Module Str.

(** The number of bytes of the character that starts with byte [b]. *)
Definition char_len (b : byte) : nat :=
  if Utf8.between 0 127 b then 1
  else if Utf8.between 192 223 b then 2
  else if Utf8.between 224 239 b then 3
  else 4.

(** [s[0]]: the first character; the empty [str] raises [IndexError]. *)
Definition first (s : string) : result string :=
  match encode s with
  | [] => Raise IndexError
  | b :: _ => Ok (string_of_list_byte (firstn (char_len b) (encode s)))
  end.

(** [s[1:]]: all but the first character; empty for the empty [str]. *)
Definition rest (s : string) : string :=
  match encode s with
  | [] => EmptyString
  | b :: _ => string_of_list_byte (skipn (char_len b) (encode s))
  end.

(** [x in l] for a list of [str] *)
Definition mem (x : string) (l : list string) : bool :=
  existsb (String.eqb x) l.

End Str.

Module ChatProtocol.

(** Host and port. *)
Definition address : Type := string * Z.

Definition PORT : Z := 65432.

Definition everyone : address := ("255.255.255.255"%string, PORT).

(** The protocol object with what it has done to the outside: the
    datagrams handed to [transport.sendto], whether [transport.close] was
    called, and the lines printed. *)
Record peer : Type := mkPeer {
  messages : list string;             (* self.messages *)
  username : string;                  (* self.username *)
  sent : list (bytes * address);      (* transport.sendto(data, addr) *)
  closed : bool;                      (* transport.close() *)
  printed : list string               (* print(...) *)
}.

(** [__init__] *)
Definition init : peer := mkPeer [] EmptyString [] false [].

Definition sendto (text : string) (addr : address) : M peer unit :=
  modify (fun self =>
    mkPeer (messages self) (username self)
      (sent self ++ [(encode text, addr)]) (closed self) (printed self)).

Definition close : M peer unit :=
  modify (fun self =>
    mkPeer (messages self) (username self) (sent self) true (printed self)).

Definition set_username (name : string) : M peer unit :=
  modify (fun self =>
    mkPeer (messages self) name (sent self) (closed self) (printed self)).

(** [self.messages.append(m); print(self.messages[-1])] *)
Definition record (m : string) : M peer unit :=
  modify (fun self =>
    mkPeer (messages self ++ [m]) (username self) (sent self) (closed self)
      (printed self ++ [m])).

(** [datagram_received]; [local_ip] is what [get_ip()] returns. *)
Definition datagram_received (local_ip : string) (data : bytes)
  (addr : address) : M peer unit :=
  data <- lift_result (decode data) ;;
  (if negb (String.eqb (fst addr) local_ip) then
     c <- lift_result (Str.first data) ;;
     (if String.eqb c "1" then
        let name := Str.rest data in
        self <- get ;;
        if String.eqb name (username self) then sendto "False" addr
        else
          for_each (lastn 10 (messages self))
            (fun message => sendto ("2" ++ message) addr)
      else ret tt) ;;
     (if String.eqb data "False" then close else ret tt)
   else ret tt) ;;
  c <- lift_result (Str.first data) ;;
  self <- get ;;
  if String.eqb c "2" && negb (Str.mem (Str.rest data) (messages self))
  then record (Str.rest data)
  else ret tt.

(** The [while True] of [send_messages] while [input] returns the
    [lines] in turn; [clock k] is the time text at the [k]-th line. When
    the lines run out the loop is waiting for the next one. *)
Fixpoint message_loop (clock : nat -> string) (k : nat)
  (lines : list string) : M peer unit :=
  match lines with
  | [] => ret tt
  | message :: lines' =>
      if String.eqb message "" then close
      else
        self <- get ;;
        sendto ("2" ++ clock k ++ " " ++ username self ++ " " ++ message)
          everyone ;;
        message_loop clock (S k) lines'
  end.

(** [send_messages] while [input] returns the [inputs] in turn, the
    first of them at the prompt for the username. *)
Definition send_messages (clock : nat -> string) (inputs : list string)
  : M peer unit :=
  match inputs with
  | [] => ret tt
  | name :: lines =>
      if String.eqb name "" then close
      else
        set_username name ;;
        sendto ("1" ++ name) everyone ;;
        message_loop clock 0 lines
  end.

End ChatProtocol.

(** What [datagram_received] answers to the text [text] with first
    character [c] that came from [addr]. *)
Definition replies (local_ip : string) (text c : string)
  (addr : ChatProtocol.address) (self : ChatProtocol.peer)
  : list (bytes * ChatProtocol.address) :=
  if negb (String.eqb (fst addr) local_ip) && String.eqb c "1" then
    if String.eqb (Str.rest text) (ChatProtocol.username self)
    then [(encode "False", addr)]
    else map (fun m => (encode ("2" ++ m), addr))
           (lastn 10 (ChatProtocol.messages self))
  else [].

(** The message that [datagram_received] records for the text [text]
    with first character [c], if any. *)
Definition recorded (text c : string) (self : ChatProtocol.peer)
  : list string :=
  if String.eqb c "2"
     && negb (Str.mem (Str.rest text) (ChatProtocol.messages self))
  then [Str.rest text] else [].

(** The entries of a registry under the keys other than [k], in their
    order and with their values. *)
Definition others {V} (k : string) (d : Dict.t V) : Dict.t V :=
  filter (fun kv => negb (String.eqb (fst kv) k)) d.

(** The value a registry holds under [k], if any: what [d[k]] would
    give. *)
Fixpoint writer_of {V} (k : string) (d : Dict.t V) : option V :=
  match d with
  | [] => None
  | (k', v) :: d' => if String.eqb k' k then Some v else writer_of k d'
  end.

(** The step leaves the username [k] with the connection [w0] if it was
    registered with it. *)
Definition keeps_entry (k : string) (w0 : writer) (self self' : world)
  : Prop :=
  writer_of k (people self) = Some w0 ->
  writer_of k (people self') = Some w0.

(** The input lines that [send_messages] sends: those before the first
    empty one. *)
Fixpoint until_empty (lines : list string) : list string :=
  match lines with
  | [] => []
  | line :: lines' =>
      if String.eqb line "" then [] else line :: until_empty lines'
  end.

Definition has_empty (lines : list string) : bool :=
  existsb (fun line => String.eqb line "") lines.

(** The chat datagram of the peer [name] for the [k]-th input line. *)
Definition chat_datagram (clock : nat -> string) (name : string)
  (kl : nat * string) : bytes * ChatProtocol.address :=
  (encode ("2" ++ clock (fst kl) ++ " " ++ name ++ " " ++ snd kl),
   ChatProtocol.everyone).

(** The event loop handing the [datagrams], all from the address [from],
    to [datagram_received] one after the other. *)
Definition deliver (local_ip : string) (from : ChatProtocol.address)
  (datagrams : list bytes) : M ChatProtocol.peer unit :=
  for_each datagrams
    (fun data => ChatProtocol.datagram_received local_ip data from).

(** ** Concrete worlds and byte streams used in examples *)

Module Scenario.

Definition noon (pass : nat) : string := "12:00:00".

(** A server on which only ["alice"] is registered, on connection 0. *)
Definition alice_alone : world :=
  mkWorld [] [("alice"%string, 0%nat)] [] [].

(** What a client writes that enters [username] and then nothing. *)
Definition registers (username : string) : bytes :=
  sent_to 0 (snd (TCPServerClient.client_send_username 0 username [])).

(** What a client writes that enters [username], then [lines]. *)
Definition chats (username : string) (lines : list string) : bytes :=
  sent_to 0 (snd (TCPServerClient.write_to_server 0 username lines [])).

(** What a registered client writes that enters [lines]. *)
Definition says (lines : list string) : bytes :=
  sent_to 0 (snd (TCPServerClient.input_loop 0 lines [])).

(** A lone opcode, as [struct.pack('<i', opcode)] gives it. *)
Definition opcode (n : Z) : bytes := Struct.le32 n.

(** Eleven messages of ["alice"], numbered from 1. *)
Definition eleven : list (list string) :=
  map (fun body => ["12:00:00"; "alice"; body]%string)
    ["1"; "2"; "3"; "4"; "5"; "6"; "7"; "8"; "9"; "10"; "11"]%string.

(** A new server after ["alice"] has registered on connection 0. *)
Definition alice_joined : world :=
  mkWorld [] [("alice"%string, 0%nat)]
    [(0%nat, Struct.pack_bool true); (0%nat, Struct.le32 0)] [].

End Scenario.

(** * Proofs *)

(** ** Integers on the wire *)

Lemma Z_of_byte_of_Z (z : Z) : Struct.Z_of_byte (Struct.byte_of_Z z) = z mod 256.
Proof.
  unfold Struct.Z_of_byte, Struct.byte_of_Z.
  assert (Hb : 0 <= z mod 256 < 256) by (apply Z.mod_pos_bound; lia).
  destruct (Byte.of_N (Z.to_N (z mod 256))) as [b|] eqn:E.
  - apply Byte.to_of_N in E. rewrite E. lia.
  - apply Byte.of_N_None_iff in E. lia.
Qed.

Lemma unpack_le32 (n : Z) :
  - 2 ^ 31 <= n < 2 ^ 31 ->
  Struct.unpack Struct.fmt_i (Struct.le32 n) = Ok n.
Proof.
  intros Hn. unfold Struct.unpack, Struct.le32, Struct.unsigned32.
  rewrite !Z_of_byte_of_Z.
  pose proof (Z.div_mod n 256 ltac:(lia)) as E0.
  pose proof (Z.mod_pos_bound n 256 ltac:(lia)) as B0.
  set (q1 := n / 256) in *.
  pose proof (Z.div_mod q1 256 ltac:(lia)) as E1.
  pose proof (Z.mod_pos_bound q1 256 ltac:(lia)) as B1.
  set (q2 := q1 / 256) in *.
  pose proof (Z.div_mod q2 256 ltac:(lia)) as E2.
  pose proof (Z.mod_pos_bound q2 256 ltac:(lia)) as B2.
  set (q3 := q2 / 256) in *.
  pose proof (Z.div_mod q3 256 ltac:(lia)) as E3.
  pose proof (Z.mod_pos_bound q3 256 ltac:(lia)) as B3.
  set (q4 := q3 / 256) in *.
  change (2 ^ 31) with 2147483648 in *. change (2 ^ 32) with 4294967296.
  f_equal.
  destruct (_ <? _) eqn:C; [apply Z.ltb_lt in C | apply Z.ltb_ge in C]; lia.
Qed.

Lemma pack_i_fits (n : Z) :
  - 2 ^ 31 <= n < 2 ^ 31 -> Struct.pack_i n = Ok (Wire.int32 n).
Proof.
  intros [Hlo Hhi]. unfold Struct.pack_i.
  apply Z.leb_le in Hlo. apply Z.ltb_lt in Hhi. now rewrite Hlo, Hhi.
Qed.

Lemma recv_int32 (n : Z) (rest : reader) :
  - 2 ^ 31 <= n < 2 ^ 31 ->
  recv_single_value Struct.fmt_i (Wire.int32 n ++ rest) = (Ok n, rest).
Proof.
  intros Hn. pose proof (unpack_le32 n Hn) as U.
  unfold recv_single_value, recv_formatted_data, bind, read, lift_result.
  unfold Wire.int32, Struct.le32 in *. simpl in U |- *. now rewrite U.
Qed.

(** ** Strings on the wire *)

Lemma decode_encode (s : string) : is_str s -> decode (encode s) = Ok s.
Proof.
  unfold is_str, decode. intros ->. unfold encode.
  now rewrite string_of_list_byte_of_string.
Qed.

Lemma decode_is_str (data : bytes) (s : string) :
  decode data = Ok s -> is_str s /\ encode s = data.
Proof.
  unfold decode, is_str, encode. destruct (Utf8.valid data) eqn:V; [|discriminate].
  intros [= <-]. now rewrite list_byte_of_string_of_list_byte.
Qed.

Lemma firstn_exact {A} (d rest : list A) : firstn (length d) (d ++ rest) = d.
Proof. induction d; simpl; congruence. Qed.

Lemma skipn_exact {A} (d rest : list A) : skipn (length d) (d ++ rest) = rest.
Proof. induction d; simpl; congruence. Qed.

Lemma read_exact (d : bytes) (rest : reader) :
  read (len d) (d ++ rest) = (Ok d, rest).
Proof.
  unfold read, len. destruct d as [|b d].
  - reflexivity.
  - destruct (Z.of_nat (length (b :: d)) =? 0) eqn:E0.
    + apply Z.eqb_eq in E0. simpl length in E0. lia.
    + destruct (Z.of_nat (length (b :: d)) <? 0) eqn:E1.
      * apply Z.ltb_lt in E1. lia.
      * now rewrite Nat2Z.id, firstn_exact, skipn_exact.
Qed.

Lemma len_range {A} (l : list A) :
  (len l <? 2 ^ 31) = true -> - 2 ^ 31 <= len l < 2 ^ 31.
Proof. intros H. apply Z.ltb_lt in H. unfold len in *. lia. Qed.

Lemma send_str_run (w : writer) (s : string) (net : transport) :
  Wire.str_fits s = true ->
  send_str w s net = (Ok tt, net ++ [(w, Wire.str s)]).
Proof.
  intros H. unfold send_str, bind, lift_result.
  now rewrite (pack_i_fits _ (len_range _ H)).
Qed.

Lemma recv_str_frame (s : string) (rest : reader) :
  is_str s -> Wire.str_fits s = true ->
  recv_str (Wire.str s ++ rest) = (Ok s, rest).
Proof.
  intros Hs Hf. unfold Wire.str. rewrite <- app_assoc.
  unfold recv_str, bind. rewrite (recv_int32 _ _ (len_range _ Hf)).
  rewrite read_exact. unfold lift_result. now rewrite decode_encode.
Qed.

Lemma recv_str_is_str (rd rd' : reader) (s : string) :
  recv_str rd = (Ok s, rd') -> is_str s.
Proof.
  unfold recv_str, bind, lift_result.
  destruct (recv_single_value Struct.fmt_i rd) as [[n|e] rd1]; [|discriminate].
  destruct (read n rd1) as [[data|e] rd2]; [|discriminate].
  destruct (decode data) as [s'|e] eqn:D; [|discriminate].
  intros [= <- <-]. now apply decode_is_str in D.
Qed.

(** ** Lists on the wire *)

Lemma sent_to_app (w : writer) (net1 net2 : transport) :
  sent_to w (net1 ++ net2) = sent_to w net1 ++ sent_to w net2.
Proof.
  induction net1 as [|[w' data] net1 IH]; simpl; [reflexivity|].
  destruct (Nat.eqb w' w); [rewrite IH; apply app_assoc | exact IH].
Qed.

Lemma sent_to_same (w : writer) (A : Type) (f : A -> bytes) (l : list A) :
  sent_to w (map (fun x => (w, f x)) l) = concat (map f l).
Proof.
  induction l as [|x l IH]; simpl; [reflexivity|].
  now rewrite Nat.eqb_refl, IH.
Qed.

Lemma sent_to_other (w w' : writer) (A : Type) (f : A -> bytes) (l : list A) :
  w <> w' -> sent_to w' (map (fun x => (w, f x)) l) = [].
Proof.
  intros N. apply Nat.eqb_neq in N.
  induction l as [|x l IH]; simpl; [reflexivity|]. now rewrite N.
Qed.

Lemma sent_to_str_list_writes (w w' : writer) (l : list string) :
  sent_to w' (Wire.str_list_writes w l)
  = if Nat.eqb w w' then Wire.str_list l else [].
Proof.
  unfold Wire.str_list_writes, Wire.str_list. cbn [sent_to].
  destruct (Nat.eqb w w') eqn:E.
  - apply Nat.eqb_eq in E. subst w'. now rewrite sent_to_same.
  - apply Nat.eqb_neq in E. now apply sent_to_other.
Qed.

Lemma sent_to_list_of_lists_writes (w w' : writer) (ll : list (list string)) :
  sent_to w' (Wire.list_of_lists_writes w ll)
  = if Nat.eqb w w' then Wire.list_of_lists ll else [].
Proof.
  unfold Wire.list_of_lists_writes, Wire.list_of_lists. cbn [sent_to].
  assert (H : sent_to w' (flat_map (Wire.str_list_writes w) ll)
              = if Nat.eqb w w' then concat (map Wire.str_list ll) else []).
  { induction ll as [|l ll IH]; cbn [flat_map map concat].
    - now destruct (Nat.eqb w w').
    - rewrite sent_to_app, IH, sent_to_str_list_writes.
      now destruct (Nat.eqb w w'). }
  rewrite H. now destruct (Nat.eqb w w').
Qed.

Lemma for_each_send_str (w : writer) (l : list string) (net : transport) :
  forallb Wire.str_fits l = true ->
  for_each l (send_str w) net
  = (Ok tt, net ++ map (fun s => (w, Wire.str s)) l).
Proof.
  revert net. induction l as [|s l IH]; intros net H; simpl.
  - unfold ret. now rewrite app_nil_r.
  - simpl in H. apply andb_true_iff in H as [Hs Hl].
    unfold bind. rewrite (send_str_run _ _ _ Hs), (IH _ Hl).
    now rewrite <- app_assoc.
Qed.

Lemma send_str_list_run (w : writer) (l : list string) (net : transport) :
  Wire.str_list_fits l = true ->
  send_str_list w l net = (Ok tt, net ++ Wire.str_list_writes w l).
Proof.
  intros H. apply andb_true_iff in H as [Hn Hl].
  unfold send_str_list, bind, lift_result, write, modify.
  rewrite (pack_i_fits _ (len_range _ Hn)), (for_each_send_str _ _ _ Hl).
  unfold Wire.str_list_writes. now rewrite <- app_assoc.
Qed.

Lemma for_each_send_str_list (w : writer) (ll : list (list string))
  (net : transport) :
  forallb Wire.str_list_fits ll = true ->
  for_each ll (send_str_list w) net
  = (Ok tt, net ++ flat_map (Wire.str_list_writes w) ll).
Proof.
  revert net. induction ll as [|l ll IH]; intros net H.
  - simpl. unfold ret. now rewrite app_nil_r.
  - simpl in H. apply andb_true_iff in H as [Hs Hl].
    simpl for_each. unfold bind.
    rewrite (send_str_list_run _ _ _ Hs), (IH _ Hl).
    simpl flat_map. now rewrite <- app_assoc.
Qed.

Lemma send_list_of_lists_run (w : writer) (ll : list (list string))
  (net : transport) :
  Wire.list_of_lists_fits ll = true ->
  send_list_of_lists w ll net
  = (Ok tt, net ++ Wire.list_of_lists_writes w ll).
Proof.
  intros H. apply andb_true_iff in H as [Hn Hl].
  unfold send_list_of_lists, bind, lift_result, write, modify.
  rewrite (pack_i_fits _ (len_range _ Hn)), (for_each_send_str_list _ _ _ Hl).
  unfold Wire.list_of_lists_writes. now rewrite <- app_assoc.
Qed.

Lemma for_range_recv_str (l : list string) (rest : reader) :
  Forall is_str l -> forallb Wire.str_fits l = true ->
  for_range (length l) recv_str (concat (map Wire.str l) ++ rest)
  = (Ok l, rest).
Proof.
  induction l as [|s l IH]; intros Hs Hf; cbn [for_range length map concat].
  - reflexivity.
  - inversion Hs as [|? ? Hs1 Hs2]; subst.
    cbn [forallb] in Hf. apply andb_true_iff in Hf as [Hf1 Hf2].
    unfold bind. rewrite <- app_assoc, (recv_str_frame _ _ Hs1 Hf1).
    now rewrite (IH Hs2 Hf2).
Qed.

Lemma recv_str_list_frame (l : list string) (rest : reader) :
  Forall is_str l -> Wire.str_list_fits l = true ->
  recv_str_list (Wire.str_list l ++ rest) = (Ok l, rest).
Proof.
  intros Hs Hf. apply andb_true_iff in Hf as [Hn Hl].
  unfold Wire.str_list, recv_str_list, bind. rewrite <- app_assoc.
  rewrite (recv_int32 _ _ (len_range _ Hn)). unfold len.
  rewrite Nat2Z.id. now apply for_range_recv_str.
Qed.

Lemma for_range_recv_str_list (ll : list (list string)) (rest : reader) :
  Forall (Forall is_str) ll -> forallb Wire.str_list_fits ll = true ->
  for_range (length ll) recv_str_list (concat (map Wire.str_list ll) ++ rest)
  = (Ok ll, rest).
Proof.
  induction ll as [|l ll IH]; intros Hs Hf; cbn [for_range length map concat].
  - reflexivity.
  - inversion Hs as [|? ? Hs1 Hs2]; subst.
    cbn [forallb] in Hf. apply andb_true_iff in Hf as [Hf1 Hf2].
    unfold bind. rewrite <- app_assoc, (recv_str_list_frame _ _ Hs1 Hf1).
    now rewrite (IH Hs2 Hf2).
Qed.

Lemma recv_list_of_lists_frame (ll : list (list string)) (rest : reader) :
  Forall (Forall is_str) ll -> Wire.list_of_lists_fits ll = true ->
  recv_list_of_lists (Wire.list_of_lists ll ++ rest) = (Ok ll, rest).
Proof.
  intros Hs Hf. apply andb_true_iff in Hf as [Hn Hl].
  unfold Wire.list_of_lists, recv_list_of_lists, bind. rewrite <- app_assoc.
  rewrite (recv_int32 _ _ (len_range _ Hn)). unfold len.
  rewrite Nat2Z.id. now apply for_range_recv_str_list.
Qed.

(** C6. Round trip of the wire codec: a string [x] (the empty string
    included) is written by [send_str] as the little-endian Int32 of its
    byte length followed by that many UTF-8 bytes, and [recv_str] reads
    [x] back from these bytes; a list of lists of strings [y] written by
    [send_list_of_lists] is read back by [recv_list_of_lists] as [y]. *)
Theorem C6_round_trip (w : writer) (x : string) (y : list (list string)) :
  is_str x -> Wire.str_fits x = true ->
  Forall (Forall is_str) y -> Wire.list_of_lists_fits y = true ->
  (exists net,
      send_str w x [] = (Ok tt, net)
      /\ sent_to w net = Struct.le32 (len (encode x)) ++ encode x
      /\ recv_str (sent_to w net) = (Ok x, []))
  /\
  (exists net,
      send_list_of_lists w y [] = (Ok tt, net)
      /\ sent_to w net = Wire.list_of_lists y
      /\ recv_list_of_lists (sent_to w net) = (Ok y, [])).
Proof.
  intros Hx Fx Hy Fy. split.
  - exists [(w, Wire.str x)]. rewrite (send_str_run _ _ _ Fx). split; [reflexivity|].
    cbn [sent_to]. rewrite Nat.eqb_refl, app_nil_r. split; [reflexivity|].
    rewrite <- (app_nil_r (Wire.str x)). now apply recv_str_frame.
  - exists (Wire.list_of_lists_writes w y).
    rewrite (send_list_of_lists_run _ _ _ Fy). split; [reflexivity|].
    rewrite sent_to_list_of_lists_writes, Nat.eqb_refl. split; [reflexivity|].
    rewrite <- (app_nil_r (Wire.list_of_lists y)).
    now apply recv_list_of_lists_frame.
Qed.

Lemma C6_round_trip_witness :
  (exists net,
      send_str 0 "" [] = (Ok tt, net)
      /\ sent_to 0 net = Struct.le32 (len (encode "")) ++ encode ""
      /\ recv_str (sent_to 0 net) = (Ok ""%string, []))
  /\
  (exists net,
      send_list_of_lists 0 [["12:00:00"; "alice"; ""]; []]%string []
      = (Ok tt, net)
      /\ sent_to 0 net
         = Wire.list_of_lists [["12:00:00"; "alice"; ""]; []]%string
      /\ recv_list_of_lists (sent_to 0 net)
         = (Ok [["12:00:00"; "alice"; ""]; []]%string, [])).
Proof.
  apply (C6_round_trip 0 "" [["12:00:00"; "alice"; ""]; []]%string).
  - reflexivity.
  - reflexivity.
  - repeat constructor.
  - reflexivity.
Defined.

(** ** The message history *)

Lemma for_each_app {S A} (xs ys : list A) (body : A -> M S unit) (s : S) :
  for_each (xs ++ ys) body s = (for_each xs body ;; for_each ys body) s.
Proof.
  revert s. induction xs as [|x xs IH]; intros s; simpl.
  - reflexivity.
  - unfold bind in *. destruct (body x s) as [[[]|e] s1]; [apply IH|reflexivity].
Qed.

Lemma add_to_recent_messages_run (m : list string) (self : world) :
  TCPServerClient.add_to_recent_messages m self
  = (Ok tt,
     mkWorld ((if Nat.eqb (length (messages self)) 10
               then tl (messages self) else messages self) ++ [m])
       (people self) (wire self) (closed self)).
Proof. reflexivity. Qed.

Lemma for_each_add_ok (msgs : list (list string)) (self : world) :
  fst (for_each msgs TCPServerClient.add_to_recent_messages self) = Ok tt.
Proof.
  revert self. induction msgs as [|m msgs IH]; intros self; simpl.
  - reflexivity.
  - unfold bind. rewrite add_to_recent_messages_run. apply IH.
Qed.

Lemma history_after_snoc (msgs : list (list string)) (m : list string) :
  history_after (msgs ++ [m])
  = (if Nat.eqb (length (history_after msgs)) 10
     then tl (history_after msgs) else history_after msgs) ++ [m].
Proof.
  unfold history_after. rewrite for_each_app. unfold bind.
  pose proof (for_each_add_ok msgs TCPServerClient.init) as H.
  destruct (for_each msgs _ _) as [r self]. simpl in H. subst r.
  reflexivity.
Qed.

Lemma tl_skipn {A} (k : nat) (l : list A) : tl (skipn k l) = skipn (S k) l.
Proof.
  revert l. induction k as [|k IH]; intros [|x l]; try reflexivity.
  simpl skipn at 1. rewrite IH. reflexivity.
Qed.

Lemma history_after_lastn (msgs : list (list string)) :
  history_after msgs = lastn 10 msgs.
Proof.
  induction msgs as [|m msgs IH] using rev_ind.
  - reflexivity.
  - rewrite history_after_snoc, IH. unfold lastn.
    rewrite length_app, length_skipn. simpl length.
    destruct (Nat.eqb (length msgs - (length msgs - 10)) 10) eqn:E.
    + apply Nat.eqb_eq in E. rewrite tl_skipn.
      replace (length msgs + 1 - 10)%nat with (S (length msgs - 10)) by lia.
      rewrite skipn_app.
      replace (S (length msgs - 10) - length msgs)%nat with 0%nat by lia.
      reflexivity.
    + apply Nat.eqb_neq in E.
      replace (length msgs + 1 - 10)%nat with 0%nat by lia.
      replace (length msgs - 10)%nat with 0%nat by lia.
      reflexivity.
Qed.

(** C3. The history never holds more than 10 messages: after the [M]
    messages [msgs] have been appended its length is [min M 10]; one more
    append to a full history drops the single oldest entry and keeps the
    rest in order; after more than 10 appends the history is the last 10
    appended messages, oldest first. *)
Theorem C3_bounded_history (msgs : list (list string)) (m : list string) :
  (length (history_after msgs) <= 10)%nat
  /\ length (history_after msgs) = Nat.min (length msgs) 10
  /\ history_after (msgs ++ [m])
     = (if Nat.eqb (length (history_after msgs)) 10
        then tl (history_after msgs) else history_after msgs) ++ [m]
  /\ history_after msgs = skipn (length msgs - 10) msgs.
Proof.
  assert (L : length (history_after msgs) = Nat.min (length msgs) 10).
  { rewrite history_after_lastn. unfold lastn. rewrite length_skipn. lia. }
  repeat split.
  - lia.
  - exact L.
  - apply history_after_snoc.
  - apply history_after_lastn.
Qed.

(** ** The registry *)

Lemma setitem_new {V} (k : string) (v : V) (d : Dict.t V) :
  Dict.contains k d = false -> Dict.setitem k v d = d ++ [(k, v)].
Proof.
  induction d as [|[k' v'] d IH]; simpl; [reflexivity|].
  intros H. apply orb_false_iff in H as [H1 H2].
  rewrite H1. now rewrite IH.
Qed.

Lemma contains_In {V} (k : string) (d : Dict.t V) :
  Dict.contains k d = true <-> In k (Dict.keys d).
Proof.
  induction d as [|[k' v'] d IH]; simpl.
  - split; [discriminate | tauto].
  - rewrite orb_true_iff, IH, String.eqb_eq. tauto.
Qed.

Lemma writer_of_contains {V} (k : string) (d : Dict.t V) (v : V) :
  writer_of k d = Some v -> Dict.contains k d = true.
Proof.
  induction d as [|[k' v'] d IH]; cbn [writer_of Dict.contains];
    [discriminate|].
  destruct (String.eqb k' k); [reflexivity | exact IH].
Qed.

Lemma writer_of_delitem {V} (k u : string) (d d' : Dict.t V) :
  Dict.delitem u d = Ok d' -> k <> u -> writer_of k d' = writer_of k d.
Proof.
  intros E N. revert d' E.
  induction d as [|[k' v'] d IH]; cbn [Dict.delitem]; intros d' E;
    [discriminate|].
  destruct (String.eqb k' u) eqn:Q.
  - injection E as <-. apply String.eqb_eq in Q. subst k'.
    cbn [writer_of]. apply not_eq_sym, String.eqb_neq in N. now rewrite N.
  - destruct (Dict.delitem u d) as [d''|e]; [|discriminate].
    injection E as <-. cbn [writer_of]. now rewrite (IH d'' eq_refl).
Qed.

Lemma writer_of_app {V} (k : string) (d d' : Dict.t V) (v : V) :
  writer_of k d = Some v -> writer_of k (d ++ d') = Some v.
Proof.
  induction d as [|[k' v'] d IH]; cbn [writer_of app]; [discriminate|].
  destruct (String.eqb k' k); [trivial | exact IH].
Qed.

Lemma delitem_absent {V} (k : string) (d : Dict.t V) :
  Dict.contains k d = false -> Dict.delitem k d = Raise KeyError.
Proof.
  induction d as [|[k' v'] d IH]; simpl; [reflexivity|].
  intros H. apply orb_false_iff in H as [H1 H2].
  now rewrite H1, IH.
Qed.

Lemma delitem_present {V} (k : string) (d : Dict.t V) :
  Dict.contains k d = true ->
  exists d', Dict.delitem k d = Ok d'
    /\ (forall k', k' <> k -> Dict.contains k' d' = Dict.contains k' d)
    /\ (forall k', In k' (Dict.keys d') -> In k' (Dict.keys d))
    /\ (well_formed d -> well_formed d' /\ Dict.contains k d' = false).
Proof.
  induction d as [|[k0 v0] d IH]; simpl; [discriminate|].
  destruct (String.eqb k0 k) eqn:E; simpl.
  - intros _. apply String.eqb_eq in E. subst k0. exists d. repeat split.
    + intros k' N. apply not_eq_sym, String.eqb_neq in N. now rewrite N.
    + tauto.
    + now inversion H.
    + inversion H as [|? ? Hn Hd]; subst.
      destruct (Dict.contains k d) eqn:C; [|reflexivity].
      now apply contains_In in C.
  - intros C. destruct (IH C) as (d' & -> & Hk & Hin & Hwf).
    exists ((k0, v0) :: d'). repeat split.
    + intros k' N. simpl. now rewrite (Hk _ N).
    + simpl. intros k' [<-|H]; auto.
    + inversion H as [|? ? Hn Hd]; subst.
      constructor; [|now apply Hwf]. intros I. apply Hn. now apply Hin.
    + inversion H as [|? ? Hn Hd]; subst. simpl. rewrite E. now apply Hwf.
Qed.

Lemma del_people_absent (username : string) (self : world) :
  Dict.contains username (people self) = false ->
  TCPServerClient.del_people username self = (Raise KeyError, self).
Proof.
  intros H. unfold TCPServerClient.del_people, bind, get, lift_result.
  now rewrite (delitem_absent _ _ H).
Qed.

Lemma del_people_present (username : string) (self : world) :
  Dict.contains username (people self) = true ->
  exists d, Dict.delitem username (people self) = Ok d
    /\ TCPServerClient.del_people username self
       = (Ok tt, mkWorld (messages self) d (wire self) (closed self)).
Proof.
  intros H. destruct (delitem_present _ _ H) as (d & E & _).
  exists d. split; [exact E|].
  unfold TCPServerClient.del_people, bind, get, lift_result.
  now rewrite E.
Qed.

Lemma others_absent {V} (k : string) (d : Dict.t V) :
  Dict.contains k d = false -> others k d = d.
Proof.
  induction d as [|[k' v'] d IH]; cbn [Dict.contains others filter fst];
    [reflexivity|].
  intros H. apply orb_false_iff in H as [H1 H2].
  rewrite H1. cbn [negb]. fold (others k d). now rewrite (IH H2).
Qed.

(** In a registry without repeated keys, [del d[k]] leaves exactly the
    entries under the other keys, in their order and with their values. *)
Lemma delitem_others {V} (k : string) (d d' : Dict.t V) :
  well_formed d -> Dict.delitem k d = Ok d' -> d' = others k d.
Proof.
  revert d'. induction d as [|[k' v'] d IH]; intros d' WF;
    cbn [Dict.delitem others filter fst]; [discriminate|].
  fold (others k d).
  assert (WF' : well_formed d) by (now inversion WF).
  destruct (String.eqb k' k) eqn:E; cbn [negb].
  - intros [= <-]. apply String.eqb_eq in E. subst k'.
    symmetry. apply others_absent.
    destruct (Dict.contains k d) eqn:C; [|reflexivity].
    apply contains_In in C. now inversion WF.
  - destruct (Dict.delitem k d) as [d''|e]; [|discriminate].
    intros [= <-]. now rewrite (IH d'' WF' eq_refl).
Qed.

(** C8, as amended. Removing a username from the registry takes its entry
    out when there is one, leaving every other entry as it was: the
    registry that remains holds exactly the entries under the other
    usernames, in their order and with their writers. When there is no
    entry the removal raises [KeyError] and changes nothing, so a second
    removal in a row fails where the first one succeeded. *)
Theorem C8_unregister_removes_or_raises (username : string) (self : world) :
  well_formed (people self) ->
  (Dict.contains username (people self) = true ->
   exists d,
     TCPServerClient.del_people username self
     = (Ok tt, mkWorld (messages self) d (wire self) (closed self))
     /\ d = others username (people self)
     /\ Dict.contains username d = false
     /\ (forall k, k <> username ->
                   Dict.contains k d = Dict.contains k (people self))
     /\ (forall k, k <> username ->
                   writer_of k d = writer_of k (people self))
     /\ TCPServerClient.del_people username
          (mkWorld (messages self) d (wire self) (closed self))
        = (Raise KeyError,
           mkWorld (messages self) d (wire self) (closed self)))
  /\ (Dict.contains username (people self) = false ->
      TCPServerClient.del_people username self = (Raise KeyError, self)).
Proof.
  intros WF. split.
  - intros C. destruct (del_people_present _ _ C) as (d & E & R).
    destruct (delitem_present _ _ C) as (d' & E' & Hk & _ & Hwf).
    rewrite E in E'. injection E' as <-.
    exists d. destruct (Hwf WF) as [_ Hc].
    split; [exact R|]. split; [exact (delitem_others _ _ _ WF E)|].
    split; [exact Hc|]. split; [exact Hk|].
    split; [intros k N; exact (writer_of_delitem _ _ _ _ E N)|].
    now apply del_people_absent.
  - apply del_people_absent.
Qed.

Lemma C8_unregister_witness :
  well_formed (people (mkWorld [] [("alice"%string, 0%nat);
                                   ("bob"%string, 1%nat);
                                   ("carol"%string, 2%nat)] [] []))
  /\ (exists d,
        TCPServerClient.del_people "bob"
          (mkWorld [] [("alice"%string, 0%nat); ("bob"%string, 1%nat);
                       ("carol"%string, 2%nat)] [] [])
        = (Ok tt, mkWorld [] d [] [])
        /\ d = [("alice"%string, 0%nat); ("carol"%string, 2%nat)]
        /\ Dict.contains "bob" d = false
        /\ (forall k, k <> "bob"%string ->
              Dict.contains k d
              = Dict.contains k [("alice"%string, 0%nat);
                                 ("bob"%string, 1%nat);
                                 ("carol"%string, 2%nat)])
        /\ (forall k, k <> "bob"%string ->
              writer_of k d
              = writer_of k [("alice"%string, 0%nat);
                             ("bob"%string, 1%nat);
                             ("carol"%string, 2%nat)])
        /\ TCPServerClient.del_people "bob" (mkWorld [] d [] [])
           = (Raise KeyError, mkWorld [] d [] []))
  /\ TCPServerClient.del_people "dave"
       (mkWorld [] [("alice"%string, 0%nat); ("bob"%string, 1%nat);
                    ("carol"%string, 2%nat)] [] [])
     = (Raise KeyError,
        mkWorld [] [("alice"%string, 0%nat); ("bob"%string, 1%nat);
                    ("carol"%string, 2%nat)] [] []).
Proof.
  assert (WF : well_formed
                 (people (mkWorld [] [("alice"%string, 0%nat);
                                      ("bob"%string, 1%nat);
                                      ("carol"%string, 2%nat)] [] []))).
  { unfold well_formed. cbn. repeat constructor; cbn; intuition discriminate. }
  split; [exact WF|]. split.
  - exact (proj1 (C8_unregister_removes_or_raises "bob"
                    (mkWorld [] [("alice"%string, 0%nat);
                                 ("bob"%string, 1%nat);
                                 ("carol"%string, 2%nat)] [] []) WF)
             eq_refl).
  - exact (proj2 (C8_unregister_removes_or_raises "dave"
                    (mkWorld [] [("alice"%string, 0%nat);
                                 ("bob"%string, 1%nat);
                                 ("carol"%string, 2%nat)] [] []) WF)
             eq_refl).
Defined.

(** C8, as stated, fails: on a new server, whose registry holds no
    ["alice"], removing ["alice"] raises [KeyError]. *)
Lemma C8_absent_key_raises :
  ~ Reading.safe_on_absent_key "alice" TCPServerClient.init.
Proof.
  unfold Reading.safe_on_absent_key. intros H.
  specialize (H eq_refl). discriminate H.
Qed.

(** ** What the server methods do *)

Lemma for_each_broadcast (message : list string) (ws : list writer)
  (self : world) :
  Wire.str_list_fits message = true ->
  for_each ws (fun writer => on_wire (send_str_list writer message)) self
  = (Ok tt,
     set_wire (wire self
               ++ flat_map (fun w => Wire.str_list_writes w message) ws)
       self).
Proof.
  intros F. revert self. induction ws as [|w ws IH]; intros self.
  - cbn [for_each flat_map]. unfold ret. rewrite app_nil_r.
    now destruct self.
  - cbn [for_each flat_map]. unfold bind, on_wire at 1.
    rewrite (send_str_list_run _ _ _ F), IH.
    destruct self; unfold set_wire; simpl. now rewrite <- app_assoc.
Qed.

Lemma send_messages_to_all_run (message : list string) (self : world) :
  Wire.str_list_fits message = true ->
  TCPServerClient.send_messages_to_all message self
  = (Ok tt,
     set_wire (wire self
               ++ flat_map (fun w => Wire.str_list_writes w message)
                    (Dict.values (people self)))
       self).
Proof.
  intros F. unfold TCPServerClient.send_messages_to_all, bind, get.
  now apply for_each_broadcast.
Qed.

Lemma new_connection_run (w : writer) (username : string) (self : world) :
  Wire.list_of_lists_fits (messages self) = true ->
  TCPServerClient.new_connection w username self
  = (Ok tt,
     mkWorld (messages self) (Dict.setitem username w (people self))
       (wire self ++ Wire.list_of_lists_writes w (messages self))
       (closed self)).
Proof.
  intros F.
  unfold TCPServerClient.new_connection, bind, modify, get, on_wire.
  cbn [set_people messages wire].
  now rewrite (send_list_of_lists_run _ _ _ F).
Qed.

Lemma validation_accepts (w : writer) (username : string) (rd rd' : reader)
  (self : world) :
  recv_str rd = (Ok username, rd') ->
  Dict.contains username (people self) = false ->
  Wire.list_of_lists_fits (messages self) = true ->
  TCPServerClient.server_get_username_validation w (rd, self)
  = (Ok (Some username),
     (rd', mkWorld (messages self) (people self ++ [(username, w)])
             (wire self ++ (w, Wire.flag true)
                :: Wire.list_of_lists_writes w (messages self))
             (closed self))).
Proof.
  intros R C F.
  unfold TCPServerClient.server_get_username_validation, bind.
  unfold on_reader at 1. cbn [fst snd]. rewrite R.
  unfold on_world at 1, get. cbn [fst snd]. rewrite C. cbn [negb].
  unfold on_world, on_wire, write, modify. cbn [fst snd wire].
  rewrite new_connection_run by exact F.
  cbn [messages people wire closed set_wire]. unfold ret.
  rewrite (setitem_new _ _ _ C), <- app_assoc. reflexivity.
Qed.

Lemma validation_rejects (w : writer) (username : string) (rd rd' : reader)
  (self : world) :
  recv_str rd = (Ok username, rd') ->
  Dict.contains username (people self) = true ->
  TCPServerClient.server_get_username_validation w (rd, self)
  = (Ok None,
     (rd', mkWorld (messages self) (people self)
             (wire self ++ [(w, Wire.flag false)]) (closed self))).
Proof.
  intros R C.
  unfold TCPServerClient.server_get_username_validation, bind.
  unfold on_reader at 1. cbn [fst snd]. rewrite R.
  unfold on_world at 1, get. cbn [fst snd]. rewrite C. cbn [negb].
  unfold on_world, on_wire, write, modify. cbn [fst snd wire]. reflexivity.
Qed.

Lemma validation_raises (w : writer) (e : exn) (rd rd' : reader)
  (self : world) :
  recv_str rd = (Raise e, rd') ->
  TCPServerClient.server_get_username_validation w (rd, self)
  = (Raise e, (rd', self)).
Proof.
  intros R. unfold TCPServerClient.server_get_username_validation, bind.
  unfold on_reader at 1. cbn [fst snd]. now rewrite R.
Qed.

Lemma receive_message (w : writer) (username body : string)
  (rd rd' : reader) (self : world) :
  recv_str rd = (Ok body, rd') ->
  TCPServerClient.server_receive_messages w username (rd, self)
  = (Ok (Some body), (rd', self)).
Proof.
  intros R. unfold TCPServerClient.server_receive_messages, try_except, bind.
  unfold on_reader. cbn [fst snd]. now rewrite R.
Qed.

Lemma receive_failure (w : writer) (username : string) (e : exn)
  (rd rd' : reader) (self : world) :
  recv_str rd = (Raise e, rd') ->
  TCPServerClient.server_receive_messages w username (rd, self)
  = match Dict.delitem username (people self) with
    | Ok d =>
        (Ok None, (rd', mkWorld (messages self) d (wire self) (closed self)))
    | Raise e' => (Raise e', (rd', self))
    end.
Proof.
  intros R. unfold TCPServerClient.server_receive_messages, try_except, bind.
  unfold on_reader at 1. cbn [fst snd]. rewrite R.
  unfold on_world, TCPServerClient.del_people, bind, get, lift_result.
  cbn [fst snd]. destruct (Dict.delitem username (people self)); reflexivity.
Qed.

(** ** One pass through the loop of [server_handle_clients] *)

Lemma loop_body_read_failure (now : string) (w : writer) (v : str_or_False)
  (e : exn) (rd rd1 : reader) (self : world) :
  recv_single_value Struct.fmt_i rd = (Raise e, rd1) ->
  TCPServerClient.loop_body now w v (rd, self) = (Raise e, (rd1, self)).
Proof.
  intros R. unfold TCPServerClient.loop_body, bind.
  unfold on_reader at 1. cbn [fst snd]. now rewrite R.
Qed.

Lemma loop_body_other_opcode (now : string) (w : writer) (v : str_or_False)
  (data : Z) (rd rd1 : reader) (self : world) :
  recv_single_value Struct.fmt_i rd = (Ok data, rd1) ->
  data <> 1 -> data <> 2 ->
  TCPServerClient.loop_body now w v (rd, self)
  = (Ok (if truthy v then Next v else Break), (rd1, self)).
Proof.
  intros R N1 N2. apply Z.eqb_neq in N1, N2.
  unfold TCPServerClient.loop_body, bind.
  unfold on_reader at 1. cbn [fst snd]. rewrite R, N1. cbn [andb].
  unfold ret. destruct v as [u|]; [|reflexivity].
  destruct (truthy (Some u)); [|reflexivity]. now rewrite N2.
Qed.

Lemma loop_body_register_accepted (now : string) (w : writer)
  (v : str_or_False) (username : string) (rd rd1 rd2 : reader)
  (self : world) :
  truthy v = false ->
  recv_single_value Struct.fmt_i rd = (Ok 1, rd1) ->
  recv_str rd1 = (Ok username, rd2) ->
  Dict.contains username (people self) = false ->
  Wire.list_of_lists_fits (messages self) = true ->
  TCPServerClient.loop_body now w v (rd, self)
  = (Ok (if truthy (Some username) then Next (Some username) else Break),
     (rd2, mkWorld (messages self) (people self ++ [(username, w)])
             (wire self ++ (w, Wire.flag true)
                :: Wire.list_of_lists_writes w (messages self))
             (closed self))).
Proof.
  intros T R1 R2 C F. unfold TCPServerClient.loop_body, bind.
  unfold on_reader at 1. cbn [fst snd]. rewrite R1, T.
  cbn [Z.eqb Pos.eqb andb negb].
  rewrite (validation_accepts _ _ _ _ _ R2 C F).
  destruct (truthy (Some username)); reflexivity.
Qed.

Lemma loop_body_register_rejected (now : string) (w : writer)
  (v : str_or_False) (username : string) (rd rd1 rd2 : reader)
  (self : world) :
  truthy v = false ->
  recv_single_value Struct.fmt_i rd = (Ok 1, rd1) ->
  recv_str rd1 = (Ok username, rd2) ->
  Dict.contains username (people self) = true ->
  TCPServerClient.loop_body now w v (rd, self)
  = (Ok Break,
     (rd2, mkWorld (messages self) (people self)
             (wire self ++ [(w, Wire.flag false)]) (closed self))).
Proof.
  intros T R1 R2 C. unfold TCPServerClient.loop_body, bind.
  unfold on_reader at 1. cbn [fst snd]. rewrite R1, T.
  cbn [Z.eqb Pos.eqb andb negb].
  now rewrite (validation_rejects _ _ _ _ _ R2 C).
Qed.

(** [not message and message != ''] is false for every [str], the empty
    one included: only [False] breaks the loop. *)
Lemma not_a_break (message : string) :
  negb (truthy (Some message)) && differs_from_empty (Some message) = false.
Proof. cbn [truthy differs_from_empty]. now destruct (String.eqb message ""). Qed.

Lemma loop_body_send (now : string) (w : writer) (username body : string)
  (rd rd1 rd2 : reader) (self : world) :
  truthy (Some username) = true ->
  recv_single_value Struct.fmt_i rd = (Ok 2, rd1) ->
  recv_str rd1 = (Ok body, rd2) ->
  Wire.str_list_fits [now; username; body] = true ->
  TCPServerClient.loop_body now w (Some username) (rd, self)
  = (Ok (Next (Some username)),
     (rd2,
      mkWorld
        ((if Nat.eqb (length (messages self)) 10
          then tl (messages self) else messages self)
           ++ [[now; username; body]])
        (people self)
        (wire self
           ++ flat_map
                (fun w' => Wire.str_list_writes w' [now; username; body])
                (Dict.values (people self)))
        (closed self))).
Proof.
  intros T R1 R2 F. unfold TCPServerClient.loop_body, bind.
  unfold on_reader at 1. cbn [fst snd]. rewrite R1, T.
  cbn [Z.eqb Pos.eqb andb negb]. unfold ret at 1. rewrite T.
  rewrite (receive_message _ _ _ _ _ _ R2), not_a_break.
  unfold on_world. cbn [fst snd].
  rewrite add_to_recent_messages_run.
  unfold TCPServerClient.last_message, bind, get. cbn [fst snd messages].
  rewrite rev_unit. unfold ret at 1. cbn [fst snd].
  rewrite (send_messages_to_all_run _ _ F). reflexivity.
Qed.

Lemma loop_body_send_failure (now : string) (w : writer) (username : string)
  (e : exn) (rd rd1 rd2 : reader) (self : world) :
  truthy (Some username) = true ->
  recv_single_value Struct.fmt_i rd = (Ok 2, rd1) ->
  recv_str rd1 = (Raise e, rd2) ->
  TCPServerClient.loop_body now w (Some username) (rd, self)
  = match Dict.delitem username (people self) with
    | Ok d =>
        (Ok Break, (rd2, mkWorld (messages self) d (wire self) (closed self)))
    | Raise e' => (Raise e', (rd2, self))
    end.
Proof.
  intros T R1 R2. unfold TCPServerClient.loop_body, bind.
  unfold on_reader at 1. cbn [fst snd]. rewrite R1, T.
  cbn [Z.eqb Pos.eqb andb negb]. unfold ret at 1. rewrite T.
  rewrite (receive_failure _ _ _ _ _ _ R2).
  destruct (Dict.delitem username (people self)); reflexivity.
Qed.

(** ** Relations respected by every step *)

Section Respects.

Context {S : Type} (R : S -> S -> Prop).
Hypothesis R_refl : forall s, R s s.
Hypothesis R_trans : forall a b c, R a b -> R b c -> R a c.

Lemma respects_ret {A} (a : A) : respects R (ret a).
Proof using R_refl. intros s r s' [= <- <-]. apply R_refl. Qed.

Lemma respects_raise {A} (e : exn) : respects R (@raise S A e).
Proof using R_refl. intros s r s' [= <- <-]. apply R_refl. Qed.

Lemma respects_lift_result {A} (x : result A) : respects R (lift_result x).
Proof using R_refl. intros s r s' [= <- <-]. apply R_refl. Qed.

Lemma respects_get : respects R get.
Proof using R_refl. intros s r s' [= <- <-]. apply R_refl. Qed.

Lemma respects_bind {A B} (m : M S A) (k : A -> M S B) :
  respects R m -> (forall a, respects R (k a)) -> respects R (bind m k).
Proof using R_trans.
  intros Hm Hk s r s'. unfold bind.
  destruct (m s) as [[a|e] s1] eqn:E.
  - intros H. exact (R_trans _ _ _ (Hm _ _ _ E) (Hk _ _ _ _ H)).
  - intros [= <- <-]. exact (Hm _ _ _ E).
Qed.

Lemma respects_try_except {A} (m h : M S A) :
  respects R m -> respects R h -> respects R (try_except m h).
Proof using R_trans.
  intros Hm Hh s r s'. unfold try_except.
  destruct (m s) as [[a|e] s1] eqn:E.
  - intros [= <- <-]. exact (Hm _ _ _ E).
  - intros H. exact (R_trans _ _ _ (Hm _ _ _ E) (Hh _ _ _ H)).
Qed.

Lemma respects_for_each {A} (xs : list A) (body : A -> M S unit) :
  (forall x, respects R (body x)) -> respects R (for_each xs body).
Proof using R_refl R_trans.
  intros Hb. induction xs as [|x xs IH]; cbn [for_each].
  - apply respects_ret.
  - apply respects_bind; [apply Hb | intros _; exact IH].
Qed.

Lemma respects_for_range {A} (n : nat) (body : M S A) :
  respects R body -> respects R (for_range n body).
Proof using R_refl R_trans.
  intros Hb. induction n as [|n IH]; cbn [for_range].
  - apply respects_ret.
  - apply respects_bind; [exact Hb | intros x].
    apply respects_bind; [exact IH | intros xs; apply respects_ret].
Qed.

End Respects.

Lemma respects_on_reader {A} (Rr : reader -> reader -> Prop)
  (R : session -> session -> Prop) (m : M reader A) :
  (forall rd rd' self, Rr rd rd' -> R (rd, self) (rd', self)) ->
  respects Rr m -> respects R (on_reader m).
Proof.
  intros L Hm [rd self] r s'. unfold on_reader. cbn [fst snd].
  destruct (m rd) as [r1 rd1] eqn:E. intros [= <- <-].
  apply L. exact (Hm _ _ _ E).
Qed.

Lemma respects_on_world {A} (Rw : world -> world -> Prop)
  (R : session -> session -> Prop) (m : M world A) :
  (forall rd self self', Rw self self' -> R (rd, self) (rd, self')) ->
  respects Rw m -> respects R (on_world m).
Proof.
  intros L Hm [rd self] r s'. unfold on_world. cbn [fst snd].
  destruct (m self) as [r1 self1] eqn:E. intros [= <- <-].
  apply L. exact (Hm _ _ _ E).
Qed.

Lemma respects_on_wire {A} (Rw : world -> world -> Prop) (m : M transport A) :
  (forall self net, Rw self (set_wire net self)) -> respects Rw (on_wire m).
Proof.
  intros L self r self'. unfold on_wire.
  destruct (m (wire self)) as [r1 net]. intros [= <- <-]. apply L.
Qed.

(** *** Readers only shrink *)

Lemma no_longer_refl (rd : reader) : no_longer rd rd.
Proof. unfold no_longer. lia. Qed.

Lemma no_longer_trans (a b c : reader) :
  no_longer a b -> no_longer b c -> no_longer a c.
Proof. unfold no_longer. lia. Qed.

Lemma shrinks_refl (s : session) : shrinks s s.
Proof. apply no_longer_refl. Qed.

Lemma shrinks_trans (a b c : session) : shrinks a b -> shrinks b c -> shrinks a c.
Proof. apply no_longer_trans. Qed.

Lemma read_no_longer (n : Z) : respects no_longer (read n).
Proof.
  intros rd r rd'. unfold read, no_longer.
  destruct (n =? 0); [intros [= <- <-]; lia|].
  destruct (n <? 0); intros [= <- <-]; [simpl; lia|].
  rewrite length_skipn. lia.
Qed.

Lemma recv_single_value_no_longer (frmt : Struct.format) :
  respects no_longer (recv_single_value frmt).
Proof.
  unfold recv_single_value, recv_formatted_data.
  apply respects_bind; [apply no_longer_trans | apply read_no_longer |].
  intros data. apply respects_lift_result, no_longer_refl.
Qed.

Lemma recv_str_no_longer : respects no_longer recv_str.
Proof.
  unfold recv_str.
  apply respects_bind;
    [apply no_longer_trans | apply recv_single_value_no_longer |].
  intros n. apply respects_bind; [apply no_longer_trans | apply read_no_longer |].
  intros data. apply respects_lift_result, no_longer_refl.
Qed.

Lemma recv_opcode_takes_four (rd rd1 : reader) (data : Z) :
  recv_single_value Struct.fmt_i rd = (Ok data, rd1) ->
  length rd = (4 + length rd1)%nat.
Proof.
  unfold recv_single_value, recv_formatted_data, bind, read, lift_result.
  destruct rd as [|b0 [|b1 [|b2 [|b3 rest]]]]; simpl; try discriminate.
  destruct rest; intros [= <- <-]; reflexivity.
Qed.

Lemma respects_anything {S A} (m : M S A) : respects anything m.
Proof. intros s r s' _. exact I. Qed.

Lemma shrinks_on_world {A} (m : M world A) : respects shrinks (on_world m).
Proof.
  apply (respects_on_world anything); [|apply respects_anything].
  intros rd self self' _. apply no_longer_refl.
Qed.

Lemma shrinks_on_reader {A} (m : M reader A) :
  respects no_longer m -> respects shrinks (on_reader m).
Proof.
  apply (respects_on_reader no_longer). intros rd rd' self H. exact H.
Qed.

Ltac shrink_step :=
  first
    [ apply respects_ret; apply shrinks_refl
    | apply respects_raise; apply shrinks_refl
    | apply shrinks_on_world
    | apply shrinks_on_reader;
      first [ apply recv_str_no_longer | apply recv_single_value_no_longer ]
    | apply respects_bind; [ apply shrinks_trans | | intros ? ]
    | apply respects_try_except; [ apply shrinks_trans | | ]
    | match goal with
      | |- respects _ (if ?c then _ else _) => destruct c
      | |- respects _ (match ?x with _ => _ end) => destruct x
      end ].

Lemma validation_shrinks (w : writer) :
  respects shrinks (TCPServerClient.server_get_username_validation w).
Proof.
  unfold TCPServerClient.server_get_username_validation. repeat shrink_step.
Qed.

Lemma receive_shrinks (w : writer) (username : string) :
  respects shrinks (TCPServerClient.server_receive_messages w username).
Proof.
  unfold TCPServerClient.server_receive_messages. repeat shrink_step.
Qed.

Lemma bind_ok_inv {S A B} (m : M S A) (k : A -> M S B) (s s' : S) (b : B) :
  bind m k s = (Ok b, s') ->
  exists a s1, m s = (Ok a, s1) /\ k a s1 = (Ok b, s').
Proof.
  unfold bind. destruct (m s) as [[a|e] s1]; [|discriminate].
  intros H. now exists a, s1.
Qed.

Lemma on_reader_inv {A} (m : M reader A) (s s' : session) (r : result A) :
  on_reader m s = (r, s') -> m (fst s) = (r, fst s') /\ snd s' = snd s.
Proof.
  unfold on_reader. destruct (m (fst s)) as [r1 rd1].
  intros [= <- <-]. now split.
Qed.

(** A pass that does not raise has read a whole opcode. *)
Lemma loop_body_takes_four (now : string) (w : writer) (v : str_or_False)
  (s s' : session) (f : flow) :
  TCPServerClient.loop_body now w v s = (Ok f, s') ->
  (4 + length (fst s') <= length (fst s))%nat.
Proof.
  unfold TCPServerClient.loop_body. intros H.
  apply bind_ok_inv in H as (data & s1 & H1 & H2).
  apply on_reader_inv in H1 as [H1 _].
  apply recv_opcode_takes_four in H1.
  assert (K : shrinks s1 s'); [|unfold shrinks, no_longer in K; lia].
  revert H2. generalize s1 (Ok f) s'.
  change (respects shrinks
    (valid_username <-
       (if (data =? 1) && negb (truthy v)
        then TCPServerClient.server_get_username_validation w
        else ret v) ;;
     match valid_username with
     | Some username =>
         if truthy valid_username then
           if data =? 2 then
             message <- TCPServerClient.server_receive_messages w username ;;
             if negb (truthy message) && differs_from_empty message
             then ret Break
             else
               match message with
               | Some message =>
                   on_world (TCPServerClient.add_to_recent_messages
                               [now; username; message]) ;;
                   last <- on_world TCPServerClient.last_message ;;
                   on_world (TCPServerClient.send_messages_to_all last) ;;
                   ret (Next valid_username)
               | None => raise AttributeError
               end
           else ret (Next valid_username)
         else ret Break
     | None => ret Break
     end)).
  apply respects_bind; [apply shrinks_trans | |].
  - destruct (_ && _); [apply validation_shrinks | shrink_step].
  - intros [username|]; [|shrink_step].
    destruct (truthy _); [|shrink_step].
    destruct (_ =? _); [|shrink_step].
    apply respects_bind; [apply shrinks_trans | apply receive_shrinks |].
    intros message. destruct (_ && _); [shrink_step|].
    destruct message; repeat shrink_step.
Qed.

(** The loop ends: each pass that goes round again has taken four bytes
    from the reader, so fuel above the length of the reader suffices. *)
Lemma while_true_total (fuel : nat) (clock : nat -> string) (pass : nat)
  (w : writer) (v : str_or_False) (s : session) :
  (length (fst s) < fuel)%nat ->
  exists r s', TCPServerClient.while_true fuel clock pass w v s = Some (r, s').
Proof.
  revert pass v s. induction fuel as [|fuel IH]; intros pass v s L; [lia|].
  cbn [TCPServerClient.while_true].
  destruct (TCPServerClient.loop_body (clock pass) w v s) as [[[v'|]|e] s1] eqn:E.
  - apply loop_body_takes_four in E. apply IH. lia.
  - now exists (Ok tt), s1.
  - now exists (Raise e), s1.
Qed.

(** [server_handle_clients] always ends, normally or by an exception. *)
Lemma server_handle_clients_total (clock : nat -> string) (w : writer)
  (s : session) :
  exists r s', TCPServerClient.server_handle_clients clock w s = Some (r, s').
Proof.
  unfold TCPServerClient.server_handle_clients.
  destruct (while_true_total (S (length (fst s))) clock 0 w None s)
    as (r & s' & E); [lia|].
  rewrite E. destruct r as [[]|e], s' as [rd self]; eauto.
Qed.

(** ** The handler as a whole *)

Lemma handler_breaks (clock : nat -> string) (w : writer) (rd rd' : reader)
  (self self' : world) :
  TCPServerClient.loop_body (clock 0%nat) w None (rd, self)
  = (Ok Break, (rd', self')) ->
  TCPServerClient.server_handle_clients clock w (rd, self)
  = Some (Ok tt, (rd', close w self')).
Proof.
  intros H. unfold TCPServerClient.server_handle_clients.
  cbn [fst TCPServerClient.while_true]. now rewrite H.
Qed.

Lemma handler_raises (clock : nat -> string) (w : writer) (e : exn)
  (s s' : session) :
  TCPServerClient.loop_body (clock 0%nat) w None s = (Raise e, s') ->
  TCPServerClient.server_handle_clients clock w s = Some (Raise e, s').
Proof.
  intros H. unfold TCPServerClient.server_handle_clients.
  cbn [TCPServerClient.while_true]. now rewrite H.
Qed.

Lemma duplicate_is_rejected (clock : nat -> string) (w : writer)
  (username : string) (rd rd1 rd2 : reader) (self : world) :
  recv_single_value Struct.fmt_i rd = (Ok 1, rd1) ->
  recv_str rd1 = (Ok username, rd2) ->
  Dict.contains username (people self) = true ->
  TCPServerClient.server_handle_clients clock w (rd, self)
  = Some (Ok tt,
          (rd2, mkWorld (messages self) (people self)
                  (wire self ++ [(w, Struct.pack_bool false)])
                  (closed self ++ [w]))).
Proof.
  intros R1 R2 C.
  rewrite (handler_breaks clock w _ _ _ _
             (loop_body_register_rejected _ w None _ _ _ _ _ eq_refl R1 R2 C)).
  reflexivity.
Qed.

(** C2, as amended. A Register request whose username is already in the
    registry is answered with accepted=false and leaves the registry and
    the history as they were; the session does not wait for another
    username: the loop ends and the connection is closed, whatever the
    client sent after the request staying unread. *)
Theorem C2_duplicate_username_closes (clock : nat -> string) (w : writer)
  (username : string) (rd rd1 rd2 : reader) (self : world) :
  recv_single_value Struct.fmt_i rd = (Ok 1, rd1) ->
  recv_str rd1 = (Ok username, rd2) ->
  Dict.contains username (people self) = true ->
  TCPServerClient.loop_body (clock 0%nat) w None (rd, self)
  = (Ok Break,
     (rd2, mkWorld (messages self) (people self)
             (wire self ++ [(w, Struct.pack_bool false)]) (closed self)))
  /\ TCPServerClient.server_handle_clients clock w (rd, self)
     = Some (Ok tt,
             (rd2, mkWorld (messages self) (people self)
                     (wire self ++ [(w, Struct.pack_bool false)])
                     (closed self ++ [w]))).
Proof.
  intros R1 R2 C. split.
  - exact (loop_body_register_rejected _ w None _ _ _ _ _ eq_refl R1 R2 C).
  - now apply (duplicate_is_rejected clock w username rd rd1 rd2).
Qed.

Lemma C2_duplicate_username_witness :
  recv_single_value Struct.fmt_i
    (Scenario.registers "alice" ++ Scenario.registers "bob")
  = (Ok 1, skipn 4 (Scenario.registers "alice") ++ Scenario.registers "bob")
  /\ recv_str (skipn 4 (Scenario.registers "alice") ++ Scenario.registers "bob")
     = (Ok "alice"%string, Scenario.registers "bob")
  /\ Dict.contains "alice" (people Scenario.alice_alone) = true
  /\ TCPServerClient.loop_body "12:00:00" 1 None
       (Scenario.registers "alice" ++ Scenario.registers "bob",
        Scenario.alice_alone)
     = (Ok Break,
        (Scenario.registers "bob",
         mkWorld [] [("alice"%string, 0%nat)]
           [(1%nat, Struct.pack_bool false)] []))
  /\ TCPServerClient.server_handle_clients Scenario.noon 1
       (Scenario.registers "alice" ++ Scenario.registers "bob",
        Scenario.alice_alone)
     = Some (Ok tt,
             (Scenario.registers "bob",
              mkWorld [] [("alice"%string, 0%nat)]
                [(1%nat, Struct.pack_bool false)] [1%nat])).
Proof.
  split; [reflexivity|]. split; [reflexivity|]. split; [reflexivity|].
  exact (C2_duplicate_username_closes Scenario.noon 1 "alice"
           (Scenario.registers "alice" ++ Scenario.registers "bob")
           (skipn 4 (Scenario.registers "alice") ++ Scenario.registers "bob")
           (Scenario.registers "bob") Scenario.alice_alone
           eq_refl eq_refl eq_refl).
Defined.

(** C2, as stated, fails: ["alice"] being registered, a second connection
    that asks for ["alice"] and then for ["bob"] is not left waiting for a
    username after the first request. *)
Lemma C2_duplicate_username_ends_session :
  ~ Reading.remains_awaiting_username "12:00:00" 1
      (Scenario.registers "alice" ++ Scenario.registers "bob",
       Scenario.alice_alone).
Proof.
  intros [s' H]. vm_compute in H. discriminate H.
Qed.

(** C7, as amended. An opcode that is neither 1 nor 2 has no effect on the
    registry, the history or any writer. Before a username has been
    accepted it ends the loop, and the connection is closed. After a
    username has been accepted the opcode is skipped: the session stays
    registered and goes on to read the next opcode. *)
Theorem C7_other_opcode (clock : nat -> string) (now : string) (w : writer)
  (v : str_or_False) (data : Z) (rd rd1 : reader) (self : world) :
  recv_single_value Struct.fmt_i rd = (Ok data, rd1) ->
  data <> 1 -> data <> 2 ->
  TCPServerClient.loop_body now w v (rd, self)
  = (Ok (if truthy v then Next v else Break), (rd1, self))
  /\ TCPServerClient.server_handle_clients clock w (rd, self)
     = Some (Ok tt, (rd1, close w self)).
Proof.
  intros R N1 N2. split.
  - exact (loop_body_other_opcode now w v data rd rd1 self R N1 N2).
  - apply handler_breaks.
    exact (loop_body_other_opcode _ w None data rd rd1 self R N1 N2).
Qed.

Lemma C7_other_opcode_witness :
  recv_single_value Struct.fmt_i (Scenario.opcode 3) = (Ok 3, [])
  /\ 3 <> 1 /\ 3 <> 2
  /\ TCPServerClient.loop_body "12:00:00" 0 (Some "alice"%string)
       (Scenario.opcode 3, Scenario.alice_alone)
     = (Ok (Next (Some "alice"%string)), ([], Scenario.alice_alone))
  /\ TCPServerClient.server_handle_clients Scenario.noon 1
       (Scenario.opcode 3, Scenario.alice_alone)
     = Some (Ok tt, ([], close 1 Scenario.alice_alone)).
Proof.
  split; [reflexivity|]. split; [lia|]. split; [lia|].
  split.
  - apply (C7_other_opcode Scenario.noon "12:00:00" 0 (Some "alice"%string) 3
             (Scenario.opcode 3) [] Scenario.alice_alone); [reflexivity|lia|lia].
  - apply (C7_other_opcode Scenario.noon "12:00:00" 1 None 3
             (Scenario.opcode 3) [] Scenario.alice_alone); [reflexivity|lia|lia].
Defined.

(** C7, as stated, fails: opcode 3 from the registered session of
    ["alice"] does not end its loop. *)
Lemma C7_registered_session_goes_on :
  ~ Reading.terminates_connection "12:00:00" 0 (Some "alice"%string)
      (Scenario.opcode 3, Scenario.alice_alone).
Proof.
  intros [s' H]. vm_compute in H. discriminate H.
Qed.

(** ** Broadcast *)

Lemma sent_to_broadcast (message : list string) (ws : list writer)
  (w' : writer) :
  sent_to w' (flat_map (fun w => Wire.str_list_writes w message) ws)
  = concat (repeat (Wire.str_list message) (count_occ Nat.eq_dec ws w')).
Proof.
  induction ws as [|w ws IH]; cbn [flat_map]; [reflexivity|].
  rewrite sent_to_app, sent_to_str_list_writes, IH.
  destruct (Nat.eqb w w') eqn:E.
  - apply Nat.eqb_eq in E. rewrite (count_occ_cons_eq _ _ E). reflexivity.
  - apply Nat.eqb_neq in E. rewrite (count_occ_cons_neq _ _ E). reflexivity.
Qed.

Lemma registered_is_counted (d : Dict.t writer) (u : string) (w : writer) :
  In (u, w) d ->
  (0 < count_occ Nat.eq_dec (Dict.values d) w)%nat.
Proof.
  intros I. apply count_occ_In. unfold Dict.values.
  now apply (in_map snd) in I.
Qed.

(** What a Send request does to a registered session and to the world. *)
Lemma send_pass (now : string) (w : writer) (username body : string)
  (rd rd1 rd2 : reader) (self : world) :
  truthy (Some username) = true ->
  recv_single_value Struct.fmt_i rd = (Ok 2, rd1) ->
  recv_str rd1 = (Ok body, rd2) ->
  is_str now -> is_str username ->
  Wire.str_list_fits [now; username; body] = true ->
  exists self',
    TCPServerClient.loop_body now w (Some username) (rd, self)
    = (Ok (Next (Some username)), (rd2, self'))
    /\ messages self'
       = (if Nat.eqb (length (messages self)) 10
          then tl (messages self) else messages self)
           ++ [[now; username; body]]
    /\ people self' = people self
    /\ closed self' = closed self
    /\ (forall w',
          sent_to w' (wire self')
          = sent_to w' (wire self)
              ++ concat (repeat (Wire.str_list [now; username; body])
                           (count_occ Nat.eq_dec
                              (Dict.values (people self)) w')))
    /\ (forall u' w',
          In (u', w') (people self) ->
          (0 < count_occ Nat.eq_dec (Dict.values (people self)) w')%nat)
    /\ recv_str_list (Wire.str_list [now; username; body])
       = (Ok [now; username; body], []).
Proof.
  intros T R1 R2 Hn Hu F.
  eexists. split; [exact (loop_body_send now w username body rd rd1 rd2 self T R1 R2 F)|].
  cbn [messages people wire closed]. repeat split.
  - intros w'. now rewrite sent_to_app, sent_to_broadcast.
  - intros u' w'. apply registered_is_counted.
  - rewrite <- (app_nil_r (Wire.str_list _)). apply recv_str_list_frame; [|exact F].
    repeat constructor; try assumption. exact (recv_str_is_str _ _ _ R2).
Qed.

(** C4. A Send request with text [body] from the registered session of
    [username] makes the server build the triple [[now; username; body]]
    with its own time text [now], append it to the history and write it
    as one StringList frame to the writer of every entry of the registry,
    the sender's entry included; the session stays registered. *)
Theorem C4_send_is_broadcast (now : string) (w : writer)
  (username body : string) (rd rd1 rd2 : reader) (self : world) :
  truthy (Some username) = true ->
  recv_single_value Struct.fmt_i rd = (Ok 2, rd1) ->
  recv_str rd1 = (Ok body, rd2) ->
  is_str now -> is_str username ->
  Wire.str_list_fits [now; username; body] = true ->
  exists self',
    TCPServerClient.loop_body now w (Some username) (rd, self)
    = (Ok (Next (Some username)), (rd2, self'))
    /\ messages self'
       = (if Nat.eqb (length (messages self)) 10
          then tl (messages self) else messages self)
           ++ [[now; username; body]]
    /\ people self' = people self
    /\ closed self' = closed self
    /\ (forall w',
          sent_to w' (wire self')
          = sent_to w' (wire self)
              ++ concat (repeat (Wire.str_list [now; username; body])
                           (count_occ Nat.eq_dec
                              (Dict.values (people self)) w')))
    /\ (forall u' w',
          In (u', w') (people self) ->
          (0 < count_occ Nat.eq_dec (Dict.values (people self)) w')%nat)
    /\ recv_str_list (Wire.str_list [now; username; body])
       = (Ok [now; username; body], []).
Proof. apply send_pass. Qed.

Lemma C4_send_is_broadcast_witness :
  exists self',
    TCPServerClient.loop_body "12:00:00" 0 (Some "alice"%string)
      (Scenario.says ["hello"%string],
       mkWorld [] [("alice"%string, 0%nat); ("bob"%string, 1%nat)] [] [])
    = (Ok (Next (Some "alice"%string)), (Scenario.opcode 2, self'))
    /\ messages self' = [["12:00:00"; "alice"; "hello"]%string]
    /\ people self' = [("alice"%string, 0%nat); ("bob"%string, 1%nat)]
    /\ sent_to 0 (wire self')
       = Wire.str_list ["12:00:00"; "alice"; "hello"]%string
    /\ sent_to 1 (wire self')
       = Wire.str_list ["12:00:00"; "alice"; "hello"]%string.
Proof.
  destruct (C4_send_is_broadcast "12:00:00" 0 "alice" "hello"
              (Scenario.says ["hello"%string])
              (skipn 4 (Scenario.says ["hello"%string]))
              (Scenario.opcode 2)
              (mkWorld [] [("alice"%string, 0%nat); ("bob"%string, 1%nat)]
                 [] [])
              eq_refl eq_refl eq_refl eq_refl eq_refl eq_refl)
    as (self' & E & Hm & Hp & _ & Hs & _).
  exists self'. split; [exact E|]. split; [exact Hm|]. split; [exact Hp|].
  split.
  - rewrite (Hs 0%nat). cbn. now rewrite app_nil_r.
  - rewrite (Hs 1%nat). cbn. now rewrite app_nil_r.
Defined.

(** C9. A Send request whose text is the empty string is an ordinary
    message: the server builds the triple with the empty body, appends it
    to the history and writes it to the writer of every entry of the
    registry, and the sender's session stays registered and open. *)
Theorem C9_empty_body_is_a_message (now : string) (w : writer)
  (username : string) (rd rd1 rd2 : reader) (self : world) :
  truthy (Some username) = true ->
  recv_single_value Struct.fmt_i rd = (Ok 2, rd1) ->
  recv_str rd1 = (Ok ""%string, rd2) ->
  is_str now -> is_str username ->
  Wire.str_list_fits [now; username; ""%string] = true ->
  exists self',
    TCPServerClient.loop_body now w (Some username) (rd, self)
    = (Ok (Next (Some username)), (rd2, self'))
    /\ messages self'
       = (if Nat.eqb (length (messages self)) 10
          then tl (messages self) else messages self)
           ++ [[now; username; ""%string]]
    /\ people self' = people self
    /\ closed self' = closed self
    /\ (forall w',
          sent_to w' (wire self')
          = sent_to w' (wire self)
              ++ concat (repeat (Wire.str_list [now; username; ""%string])
                           (count_occ Nat.eq_dec
                              (Dict.values (people self)) w')))
    /\ (forall u' w',
          In (u', w') (people self) ->
          (0 < count_occ Nat.eq_dec (Dict.values (people self)) w')%nat)
    /\ recv_str_list (Wire.str_list [now; username; ""%string])
       = (Ok [now; username; ""%string], []).
Proof. apply send_pass. Qed.

Lemma C9_empty_body_witness :
  exists self',
    TCPServerClient.loop_body "12:00:00" 0 (Some "alice"%string)
      (Scenario.says [""%string], Scenario.alice_alone)
    = (Ok (Next (Some "alice"%string)), (Scenario.opcode 2, self'))
    /\ messages self' = [["12:00:00"; "alice"; ""]%string]
    /\ people self' = [("alice"%string, 0%nat)]
    /\ closed self' = []
    /\ sent_to 0 (wire self')
       = Wire.str_list ["12:00:00"; "alice"; ""]%string.
Proof.
  destruct (C9_empty_body_is_a_message "12:00:00" 0 "alice"
              (Scenario.says [""%string])
              (skipn 4 (Scenario.says [""%string]))
              (Scenario.opcode 2) Scenario.alice_alone
              eq_refl eq_refl eq_refl eq_refl eq_refl eq_refl)
    as (self' & E & Hm & Hp & Hc & Hs & _).
  exists self'. split; [exact E|]. split; [exact Hm|]. split; [exact Hp|].
  split; [exact Hc|].
  rewrite (Hs 0%nat). cbn. now rewrite app_nil_r.
Defined.

(** ** Registration *)

Lemma Forall_skipn {A} (P : A -> Prop) (n : nat) (l : list A) :
  Forall P l -> Forall P (skipn n l).
Proof.
  revert l. induction n as [|n IH]; intros l H; [exact H|].
  destruct H; [constructor | now apply IH].
Qed.

Lemma forallb_skipn {A} (p : A -> bool) (n : nat) (l : list A) :
  forallb p l = true -> forallb p (skipn n l) = true.
Proof.
  revert l. induction n as [|n IH]; intros l H; [exact H|].
  destruct l as [|x l]; [reflexivity|].
  apply andb_true_iff in H as [_ H]. now apply IH.
Qed.

Lemma lastn_fits (msgs : list (list string)) :
  forallb Wire.str_list_fits msgs = true ->
  Wire.list_of_lists_fits (lastn 10 msgs) = true.
Proof.
  intros H. unfold Wire.list_of_lists_fits, lastn.
  rewrite (forallb_skipn _ _ _ H), andb_true_r.
  apply Z.ltb_lt. unfold len. rewrite length_skipn.
  change (2 ^ 31) with 2147483648. lia.
Qed.

Lemma recv_flag (b : bool) (rest : reader) :
  recv_single_value Struct.fmt_bool (Struct.pack_bool b ++ rest)
  = (Ok b, rest).
Proof. destruct b; reflexivity. Qed.

Lemma read_handshake_accepted (ll : list (list string)) :
  Forall (Forall is_str) ll -> Wire.list_of_lists_fits ll = true ->
  TCPServerClient.read_handshake
    (Struct.pack_bool true ++ Wire.list_of_lists ll)
  = (Ok (true, ll), []).
Proof.
  intros Hs Hf. unfold TCPServerClient.read_handshake, bind.
  rewrite recv_flag. rewrite <- (app_nil_r (Wire.list_of_lists ll)).
  now rewrite (recv_list_of_lists_frame _ _ Hs Hf).
Qed.

(** C5. A registration that succeeds writes Bool(true) and then the
    history as one ListOfStringLists frame to the new connection, and
    enters it in the registry. After the [K] messages [msgs] have been
    appended the frame holds, and the client reads back, exactly the last
    10 of them in order: all of them when [K <= 10]. *)
Theorem C5_registration_sends_snapshot (w : writer) (username : string)
  (msgs : list (list string)) (rd rd' : reader) (self : world) :
  messages self = history_after msgs ->
  Forall (Forall is_str) msgs ->
  forallb Wire.str_list_fits msgs = true ->
  recv_str rd = (Ok username, rd') ->
  Dict.contains username (people self) = false ->
  exists self',
    TCPServerClient.server_get_username_validation w (rd, self)
    = (Ok (Some username), (rd', self'))
    /\ people self' = people self ++ [(username, w)]
    /\ messages self' = messages self
    /\ wire self'
       = wire self ++ (w, Struct.pack_bool true)
           :: Wire.list_of_lists_writes w (lastn 10 msgs)
    /\ sent_to w (wire self')
       = sent_to w (wire self)
           ++ Struct.pack_bool true ++ Wire.list_of_lists (lastn 10 msgs)
    /\ TCPServerClient.read_handshake
         (Struct.pack_bool true ++ Wire.list_of_lists (lastn 10 msgs))
       = (Ok (true, lastn 10 msgs), [])
    /\ lastn 10 msgs = skipn (length msgs - 10) msgs
    /\ ((length msgs <= 10)%nat -> lastn 10 msgs = msgs).
Proof.
  intros Hm Hs Hf R C.
  assert (Hm' : messages self = lastn 10 msgs)
    by (now rewrite Hm, history_after_lastn).
  pose proof (lastn_fits _ Hf) as F.
  assert (F' : Wire.list_of_lists_fits (messages self) = true)
    by (now rewrite Hm').
  eexists. split; [exact (validation_accepts w username rd rd' self R C F')|].
  cbn [messages people wire closed]. rewrite Hm'.
  split; [reflexivity|]. split; [reflexivity|]. split; [reflexivity|].
  split.
  { rewrite sent_to_app. cbn [sent_to]. rewrite Nat.eqb_refl.
    now rewrite sent_to_list_of_lists_writes, Nat.eqb_refl. }
  split.
  { apply read_handshake_accepted; [|exact F].
    unfold lastn. now apply Forall_skipn. }
  split; [reflexivity|].
  intros L. unfold lastn. now replace (length msgs - 10)%nat with 0%nat by lia.
Qed.

Lemma C5_registration_witness :
  exists self',
    TCPServerClient.server_get_username_validation 1
      (skipn 4 (Scenario.registers "bob"),
       mkWorld (history_after Scenario.eleven) [("alice"%string, 0%nat)] [] [])
    = (Ok (Some "bob"%string), ([], self'))
    /\ people self' = [("alice"%string, 0%nat); ("bob"%string, 1%nat)]
    /\ sent_to 1 (wire self')
       = Struct.pack_bool true ++ Wire.list_of_lists (tl Scenario.eleven)
    /\ TCPServerClient.read_handshake (sent_to 1 (wire self'))
       = (Ok (true, tl Scenario.eleven), []).
Proof.
  destruct (C5_registration_sends_snapshot 1 "bob" Scenario.eleven
              (skipn 4 (Scenario.registers "bob")) []
              (mkWorld (history_after Scenario.eleven)
                 [("alice"%string, 0%nat)] [] [])
              eq_refl ltac:(repeat constructor) eq_refl eq_refl eq_refl)
    as (self' & E & Hp & _ & _ & Hs & Hr & _).
  exists self'. split; [exact E|]. split; [exact Hp|].
  cbn [wire sent_to app] in Hs. split; [exact Hs|].
  rewrite Hs. exact Hr.
Defined.

(** ** Keys that stay in the registry *)

Lemma keeps_key_refl (k : string) (self : world) : keeps_key k self self.
Proof. intros H. exact H. Qed.

Lemma keeps_key_trans (k : string) (a b c : world) :
  keeps_key k a b -> keeps_key k b c -> keeps_key k a c.
Proof. unfold keeps_key. auto. Qed.

Lemma session_keeps_key_refl (k : string) (s : session) :
  session_keeps_key k s s.
Proof. apply keeps_key_refl. Qed.

Lemma session_keeps_key_trans (k : string) (a b c : session) :
  session_keeps_key k a b -> session_keeps_key k b c ->
  session_keeps_key k a c.
Proof. apply keeps_key_trans. Qed.

Lemma contains_setitem {V} (k u : string) (v : V) (d : Dict.t V) :
  Dict.contains k d = true -> Dict.contains k (Dict.setitem u v d) = true.
Proof.
  induction d as [|[k' v'] d IH]; cbn [Dict.contains Dict.setitem];
    [discriminate|].
  intros H. destruct (String.eqb k' u); cbn [Dict.contains]; [exact H|].
  apply orb_true_iff in H as [H|H]; apply orb_true_iff; auto.
Qed.

Lemma delitem_other {V} (k u : string) (d d' : Dict.t V) :
  Dict.delitem u d = Ok d' -> k <> u ->
  Dict.contains k d' = Dict.contains k d.
Proof.
  intros E N. revert d' E.
  induction d as [|[k' v'] d IH]; cbn [Dict.delitem]; intros d' E;
    [discriminate|].
  destruct (String.eqb k' u) eqn:Q.
  - injection E as <-. apply String.eqb_eq in Q. subst k'.
    cbn [Dict.contains]. apply not_eq_sym, String.eqb_neq in N. now rewrite N.
  - destruct (Dict.delitem u d) as [d''|e]; [|discriminate].
    injection E as <-. cbn [Dict.contains]. now rewrite (IH d'' eq_refl).
Qed.

Lemma on_wire_keeps {A} (k : string) (m : M transport A) :
  respects (keeps_key k) (on_wire m).
Proof. apply respects_on_wire. intros self net H. exact H. Qed.

Lemma on_world_keeps {A} (k : string) (m : M world A) :
  respects (keeps_key k) m -> respects (session_keeps_key k) (on_world m).
Proof.
  apply (respects_on_world (keeps_key k)). intros rd self self' H. exact H.
Qed.

Lemma on_reader_keeps {A} (k : string) (m : M reader A) :
  respects (session_keeps_key k) (on_reader m).
Proof.
  apply (respects_on_reader anything); [|apply respects_anything].
  intros rd rd' self _ H. exact H.
Qed.

Lemma add_to_recent_messages_keeps (k : string) (m : list string) :
  respects (keeps_key k) (TCPServerClient.add_to_recent_messages m).
Proof. intros self r self' [= <- <-] H. exact H. Qed.

Lemma last_message_keeps (k : string) :
  respects (keeps_key k) TCPServerClient.last_message.
Proof.
  unfold TCPServerClient.last_message.
  apply respects_bind;
    [apply keeps_key_trans | apply respects_get, keeps_key_refl |].
  intros self. destruct (rev (messages self)).
  - apply respects_raise, keeps_key_refl.
  - apply respects_ret, keeps_key_refl.
Qed.

Lemma send_messages_to_all_keeps (k : string) (m : list string) :
  respects (keeps_key k) (TCPServerClient.send_messages_to_all m).
Proof.
  unfold TCPServerClient.send_messages_to_all.
  apply respects_bind;
    [apply keeps_key_trans | apply respects_get, keeps_key_refl |].
  intros self. apply respects_for_each;
    [apply keeps_key_refl | apply keeps_key_trans |].
  intros w. apply on_wire_keeps.
Qed.

Lemma new_connection_keeps (k : string) (w : writer) (username : string) :
  respects (keeps_key k) (TCPServerClient.new_connection w username).
Proof.
  unfold TCPServerClient.new_connection.
  apply respects_bind; [apply keeps_key_trans | |].
  - intros self r self' [= <- <-] H. cbn [set_people people].
    now apply contains_setitem.
  - intros _. apply respects_bind;
      [apply keeps_key_trans | apply respects_get, keeps_key_refl |].
    intros self. apply on_wire_keeps.
Qed.

Lemma del_people_keeps (k username : string) :
  k <> username ->
  respects (keeps_key k) (TCPServerClient.del_people username).
Proof.
  intros N self r self'.
  unfold TCPServerClient.del_people, bind, get, lift_result.
  destruct (Dict.delitem username (people self)) as [d|e] eqn:E.
  - intros [= <- <-] H. cbn [set_people people].
    now rewrite (delitem_other _ _ _ _ E N).
  - intros [= <- <-] H. exact H.
Qed.

Ltac keep_step k :=
  first
    [ apply respects_ret; apply session_keeps_key_refl
    | apply respects_raise; apply session_keeps_key_refl
    | apply on_reader_keeps
    | apply on_world_keeps;
      first [ apply on_wire_keeps
            | apply new_connection_keeps
            | apply add_to_recent_messages_keeps
            | apply last_message_keeps
            | apply send_messages_to_all_keeps
            | apply respects_get; apply keeps_key_refl ]
    | apply respects_bind; [ apply session_keeps_key_trans | | intros ? ]
    | match goal with
      | |- respects _ (if ?c then _ else _) => destruct c
      end ].

Lemma validation_keeps (k : string) (w : writer) :
  respects (session_keeps_key k)
    (TCPServerClient.server_get_username_validation w).
Proof.
  unfold TCPServerClient.server_get_username_validation.
  repeat keep_step k.
Qed.

Lemma receive_keeps (k username : string) (w : writer) :
  k <> username ->
  respects (session_keeps_key k)
    (TCPServerClient.server_receive_messages w username).
Proof.
  intros N. unfold TCPServerClient.server_receive_messages.
  apply respects_try_except; [apply session_keeps_key_trans | |].
  - repeat keep_step k.
  - apply respects_bind; [apply session_keeps_key_trans | |].
    + apply on_world_keeps. now apply del_people_keeps.
    + intros _. keep_step k.
Qed.

Lemma truthy_not_empty (username : string) :
  truthy (Some username) = true -> ""%string <> username.
Proof.
  cbn [truthy]. intros H <-. discriminate H.
Qed.

(** No pass of any session takes the empty username out of the registry:
    only a session whose username is truthy ever removes a key, and it
    removes its own. *)
Lemma loop_body_keeps_empty (now : string) (w : writer) (v : str_or_False) :
  respects (session_keeps_key "") (TCPServerClient.loop_body now w v).
Proof.
  unfold TCPServerClient.loop_body.
  apply respects_bind;
    [apply session_keeps_key_trans | apply on_reader_keeps |].
  intros data. apply respects_bind; [apply session_keeps_key_trans | |].
  - destruct (_ && _); [apply validation_keeps | keep_step ""%string].
  - intros [username|]; [|keep_step ""%string].
    destruct (truthy (Some username)) eqn:T; [|keep_step ""%string].
    destruct (data =? 2); [|keep_step ""%string].
    apply respects_bind; [apply session_keeps_key_trans | |].
    + apply receive_keeps. now apply truthy_not_empty.
    + intros message. destruct (_ && _); [keep_step ""%string|].
      destruct message; repeat keep_step ""%string.
Qed.

Lemma while_true_keeps_empty (fuel : nat) (clock : nat -> string) (pass : nat)
  (w : writer) (v : str_or_False) (s s' : session) (r : result unit) :
  TCPServerClient.while_true fuel clock pass w v s = Some (r, s') ->
  session_keeps_key "" s s'.
Proof.
  revert pass v s. induction fuel as [|fuel IH]; intros pass v s;
    cbn [TCPServerClient.while_true]; [discriminate|].
  destruct (TCPServerClient.loop_body (clock pass) w v s)
    as [[[v'|]|e] s1] eqn:E;
    pose proof (loop_body_keeps_empty _ _ _ _ _ _ E) as K.
  - intros H. exact (session_keeps_key_trans _ _ _ _ K (IH _ _ _ H)).
  - intros [= <- <-]. exact K.
  - intros [= <- <-]. exact K.
Qed.

Lemma handler_keeps_empty (clock : nat -> string) (w : writer)
  (s : session) :
  Dict.contains "" (people (snd s)) = true ->
  exists r s',
    TCPServerClient.server_handle_clients clock w s = Some (r, s')
    /\ Dict.contains "" (people (snd s')) = true.
Proof.
  intros C. unfold TCPServerClient.server_handle_clients.
  destruct (while_true_total (S (length (fst s))) clock 0 w None s)
    as (r & s' & E); [lia|].
  rewrite E. pose proof (while_true_keeps_empty _ _ _ _ _ _ _ _ E C) as K.
  destruct r as [[]|e], s' as [rd self]; eexists; eexists;
    (split; [reflexivity | exact K]).
Qed.

(** C10. A client that registers with the empty username is answered
    with accepted=true, entered in the registry under the empty key and
    sent the history, and its connection is closed at once, the entry
    staying behind with the closed writer. No handler ever takes the
    empty key out again, and every later request for the empty username,
    on any connection, is answered with accepted=false. *)
Theorem C10_empty_username_sticks (clock : nat -> string) (w : writer)
  (rd rd1 rd2 : reader) (self : world) :
  recv_single_value Struct.fmt_i rd = (Ok 1, rd1) ->
  recv_str rd1 = (Ok ""%string, rd2) ->
  Dict.contains "" (people self) = false ->
  Wire.list_of_lists_fits (messages self) = true ->
  TCPServerClient.server_handle_clients clock w (rd, self)
  = Some (Ok tt,
          (rd2, mkWorld (messages self) (people self ++ [(""%string, w)])
                  (wire self ++ (w, Struct.pack_bool true)
                     :: Wire.list_of_lists_writes w (messages self))
                  (closed self ++ [w])))
  /\ (forall clock' w' s,
        Dict.contains "" (people (snd s)) = true ->
        exists r s',
          TCPServerClient.server_handle_clients clock' w' s = Some (r, s')
          /\ Dict.contains "" (people (snd s')) = true)
  /\ (forall clock' w' rd' rd1' rd2' self',
        Dict.contains "" (people self') = true ->
        recv_single_value Struct.fmt_i rd' = (Ok 1, rd1') ->
        recv_str rd1' = (Ok ""%string, rd2') ->
        TCPServerClient.server_handle_clients clock' w' (rd', self')
        = Some (Ok tt,
                (rd2', mkWorld (messages self') (people self')
                         (wire self' ++ [(w', Struct.pack_bool false)])
                         (closed self' ++ [w'])))).
Proof.
  intros R1 R2 C F. split; [|split].
  - rewrite (handler_breaks clock w _ _ _ _
               (loop_body_register_accepted _ w None _ _ _ _ _
                  eq_refl R1 R2 C F)).
    reflexivity.
  - intros clock' w' s. apply handler_keeps_empty.
  - intros clock' w' rd' rd1' rd2' self' C' R1' R2'.
    now apply (duplicate_is_rejected clock' w' "" rd' rd1' rd2').
Qed.

Lemma C10_empty_username_witness :
  recv_single_value Struct.fmt_i (Scenario.registers "")
  = (Ok 1, skipn 4 (Scenario.registers ""))
  /\ recv_str (skipn 4 (Scenario.registers "")) = (Ok ""%string, [])
  /\ Dict.contains "" (people Scenario.alice_joined) = false
  /\ Wire.list_of_lists_fits (messages Scenario.alice_joined) = true
  /\ TCPServerClient.server_handle_clients Scenario.noon 1
       (Scenario.registers "", Scenario.alice_joined)
     = Some (Ok tt,
             ([], mkWorld [] [("alice"%string, 0%nat); (""%string, 1%nat)]
                    (wire Scenario.alice_joined
                       ++ [(1%nat, Struct.pack_bool true);
                           (1%nat, Struct.le32 0)])
                    [1%nat]))
  /\ TCPServerClient.server_handle_clients Scenario.noon 2
       (Scenario.registers "",
        mkWorld [] [("alice"%string, 0%nat); (""%string, 1%nat)]
          (wire Scenario.alice_joined
             ++ [(1%nat, Struct.pack_bool true); (1%nat, Struct.le32 0)])
          [1%nat])
     = Some (Ok tt,
             ([], mkWorld [] [("alice"%string, 0%nat); (""%string, 1%nat)]
                    (wire Scenario.alice_joined
                       ++ [(1%nat, Struct.pack_bool true);
                           (1%nat, Struct.le32 0);
                           (2%nat, Struct.pack_bool false)])
                    [1%nat; 2%nat])).
Proof.
  split; [reflexivity|]. split; [reflexivity|]. split; [reflexivity|].
  split; [reflexivity|].
  destruct (C10_empty_username_sticks Scenario.noon 1
              (Scenario.registers "") (skipn 4 (Scenario.registers "")) []
              Scenario.alice_joined eq_refl eq_refl eq_refl eq_refl)
    as (First & _ & Later).
  split; [exact First|].
  exact (Later Scenario.noon 2%nat (Scenario.registers "")
           (skipn 4 (Scenario.registers "")) []
           (mkWorld [] [("alice"%string, 0%nat); (""%string, 1%nat)]
              (wire Scenario.alice_joined
                 ++ [(1%nat, Struct.pack_bool true); (1%nat, Struct.le32 0)])
              [1%nat])
           eq_refl eq_refl eq_refl).
Defined.

(** ** Failures while reading *)

(** Fewer than four bytes where an Int32 is expected: [struct.error]. *)
Lemma short_int_raises (rd : reader) :
  (length rd < 4)%nat ->
  recv_single_value Struct.fmt_i rd = (Raise StructError, []).
Proof.
  intros L. destruct rd as [|b0 [|b1 [|b2 [|b3 rest]]]];
    try reflexivity. simpl in L. lia.
Qed.

(** A failure while the opcode is read leaves the handler as an exception
    and changes nothing in the world: nothing is removed from the
    registry and the writer is not closed. *)
Lemma opcode_failure_leaves_world (clock : nat -> string) (w : writer)
  (fuel pass : nat) (v : str_or_False) (e : exn) (rd rd1 : reader)
  (self : world) :
  recv_single_value Struct.fmt_i rd = (Raise e, rd1) ->
  TCPServerClient.while_true (S fuel) clock pass w v (rd, self)
  = Some (Raise e, (rd1, self)).
Proof.
  intros R. cbn [TCPServerClient.while_true].
  now rewrite (loop_body_read_failure _ w v e rd rd1 self R).
Qed.

(** A failure while the text of a message is read ends the loop of a
    registered session and takes its username out of the registry. *)
Lemma body_failure_unregisters (now : string) (w : writer)
  (username : string) (e : exn) (rd rd1 rd2 : reader) (self : world) :
  truthy (Some username) = true ->
  recv_single_value Struct.fmt_i rd = (Ok 2, rd1) ->
  recv_str rd1 = (Raise e, rd2) ->
  well_formed (people self) ->
  Dict.contains username (people self) = true ->
  exists d,
    TCPServerClient.loop_body now w (Some username) (rd, self)
    = (Ok Break, (rd2, mkWorld (messages self) d (wire self) (closed self)))
    /\ Dict.contains username d = false.
Proof.
  intros T R1 R2 WF C.
  destruct (delitem_present _ _ C) as (d & E & _ & _ & H).
  exists d. rewrite (loop_body_send_failure now w username e rd rd1 rd2 self T R1 R2), E.
  split; [reflexivity | now apply H].
Qed.

(** C1 fails on the code where the stream ends at an opcode. ["alice"]
    registers on a new server and her connection ends before the next
    opcode: the handler is left by [struct.error], the entry of
    ["alice"] stays in the registry, her writer is not closed, and a
    later connection that asks for ["alice"] is refused. *)
Theorem C1_end_of_stream_at_opcode_keeps_username :
  TCPServerClient.server_handle_clients Scenario.noon 0
    (Scenario.registers "alice", TCPServerClient.init)
  = Some (Raise StructError, ([], Scenario.alice_joined))
  /\ Dict.contains "alice" (people Scenario.alice_joined) = true
  /\ closed Scenario.alice_joined = []
  /\ TCPServerClient.server_handle_clients Scenario.noon 1
       (Scenario.registers "alice", Scenario.alice_joined)
     = Some (Ok tt,
             ([], mkWorld [] (people Scenario.alice_joined)
                    (wire Scenario.alice_joined
                       ++ [(1%nat, Struct.pack_bool false)])
                    [1%nat])).
Proof. repeat apply conj; reflexivity. Qed.

(** A failure while the username is read leaves the handler as an
    exception as well; the session was not registered and the world is as
    it was. *)
Lemma username_failure_leaves_world (clock : nat -> string) (w : writer)
  (e : exn) (rd rd1 rd2 : reader) (self : world) :
  recv_single_value Struct.fmt_i rd = (Ok 1, rd1) ->
  recv_str rd1 = (Raise e, rd2) ->
  TCPServerClient.server_handle_clients clock w (rd, self)
  = Some (Raise e, (rd2, self)).
Proof.
  intros R1 R2. apply handler_raises.
  unfold TCPServerClient.loop_body, bind.
  unfold on_reader at 1. cbn [fst snd]. rewrite R1.
  cbn [Z.eqb Pos.eqb andb negb truthy].
  now rewrite (validation_raises w e rd1 rd2 self R2).
Qed.

(** ** Worked examples *)

Example utf8_accepts_two_bytes : Utf8.valid [xc3; xa9] = true.
Proof. reflexivity. Qed.

Example utf8_rejects_overlong : Utf8.valid [xc0; x80] = false.
Proof. reflexivity. Qed.

Example utf8_rejects_surrogate : Utf8.valid [xed; xa0; x80] = false.
Proof. reflexivity. Qed.

Example pack_i_out_of_range :
  Struct.pack_i (2 ^ 31) = Raise StructError
  /\ Struct.pack_i (-1) = Ok [xff; xff; xff; xff]
  /\ Struct.pack_i 258 = Ok [x02; x01; x00; x00].
Proof. repeat apply conj; reflexivity. Qed.

(** A text cut short is read as a shorter text, not as a failure. *)
Example short_text_is_read :
  recv_str (Struct.le32 10 ++ encode "abc") = (Ok "abc"%string, []).
Proof. reflexivity. Qed.

(** A negative length reads up to the end of the stream. *)
Example negative_length_reads_all :
  recv_str (Struct.le32 (-1) ++ encode "abc") = (Ok "abc"%string, []).
Proof. reflexivity. Qed.

(** ["alice"] registers on a new server, says ["hi"] and an empty line,
    and leaves: both messages are kept and sent back to her, her entry is
    removed and her writer closed. *)
Example chat_of_alice :
  match TCPServerClient.server_handle_clients Scenario.noon 0
          (Scenario.chats "alice" ["hi"; ""]%string, TCPServerClient.init)
  with
  | Some (Ok tt, (rd, self)) =>
      rd = []
      /\ messages self = [["12:00:00"; "alice"; "hi"];
                          ["12:00:00"; "alice"; ""]]%string
      /\ people self = []
      /\ closed self = [0%nat]
      /\ sent_to 0 (wire self)
         = Struct.pack_bool true ++ Wire.list_of_lists []
             ++ Wire.str_list ["12:00:00"; "alice"; "hi"]%string
             ++ Wire.str_list ["12:00:00"; "alice"; ""]%string
  | _ => False
  end.
Proof. vm_compute. repeat apply conj; reflexivity. Qed.

(** After that, ["alice"] is free again. *)
Example alice_comes_back :
  exists self,
    TCPServerClient.loop_body "12:00:01" 1 None
      (Scenario.registers "alice",
       mkWorld [["12:00:00"; "alice"; "hi"]]%string [] [] [0%nat])
    = (Ok (Next (Some "alice"%string)), ([], self))
    /\ people self = [("alice"%string, 1%nat)]
    /\ TCPServerClient.read_handshake (sent_to 1 (wire self))
       = (Ok (true, [["12:00:00"; "alice"; "hi"]]%string), []).
Proof. eexists. repeat apply conj; reflexivity. Qed.

(** A message text that is not UTF-8 ends the session of ["alice"] and
    removes her entry. *)
Example bad_text_unregisters :
  TCPServerClient.server_handle_clients Scenario.noon 0
    (Scenario.registers "alice" ++ Scenario.opcode 2
       ++ Struct.le32 1 ++ [xff],
     TCPServerClient.init)
  = Some (Ok tt, ([], mkWorld [] [] (wire Scenario.alice_joined) [0%nat])).
Proof. reflexivity. Qed.

(** * Further properties of the wire codec *)

(** X1. A list of strings written by [send_str_list] is read back by
    [recv_str_list], which stops at the end of the frame and leaves the
    bytes that follow it in the reader. *)
Theorem X1_str_list_round_trip (w : writer) (l : list string)
  (rest : reader) :
  Forall is_str l -> Wire.str_list_fits l = true ->
  exists net,
    send_str_list w l [] = (Ok tt, net)
    /\ sent_to w net = Wire.str_list l
    /\ recv_str_list (sent_to w net ++ rest) = (Ok l, rest).
Proof.
  intros Hs Hf. exists (Wire.str_list_writes w l).
  rewrite (send_str_list_run _ _ _ Hf).
  rewrite sent_to_str_list_writes, Nat.eqb_refl.
  repeat apply conj; try reflexivity. now apply recv_str_list_frame.
Qed.

Lemma X1_str_list_round_trip_witness :
  exists net,
    send_str_list 0 ["12:00:00"; "alice"; ""]%string [] = (Ok tt, net)
    /\ sent_to 0 net = Wire.str_list ["12:00:00"; "alice"; ""]%string
    /\ recv_str_list (sent_to 0 net ++ [x07])
       = (Ok ["12:00:00"; "alice"; ""]%string, [x07]).
Proof.
  exact (X1_str_list_round_trip 0 ["12:00:00"; "alice"; ""]%string [x07]
           ltac:(repeat constructor) eq_refl).
Defined.

(** X2. Frames written one after the other on one writer are read back
    one after the other: a string, a list of strings and a list of lists
    sent in this order are received in this order, and what follows them
    stays in the reader. *)
Theorem X2_frames_in_sequence (w : writer) (x : string) (l : list string)
  (y : list (list string)) (rest : reader) :
  is_str x -> Wire.str_fits x = true ->
  Forall is_str l -> Wire.str_list_fits l = true ->
  Forall (Forall is_str) y -> Wire.list_of_lists_fits y = true ->
  exists net,
    (send_str w x ;; send_str_list w l ;; send_list_of_lists w y) []
    = (Ok tt, net)
    /\ (a <- recv_str ;; b <- recv_str_list ;; c <- recv_list_of_lists ;;
        ret (a, b, c)) (sent_to w net ++ rest)
       = (Ok (x, l, y), rest).
Proof.
  intros Hx Fx Hl Fl Hy Fy.
  exists ([(w, Wire.str x)] ++ Wire.str_list_writes w l
            ++ Wire.list_of_lists_writes w y).
  split.
  - unfold bind. rewrite (send_str_run _ _ _ Fx).
    rewrite (send_str_list_run _ _ _ Fl), (send_list_of_lists_run _ _ _ Fy).
    now rewrite <- app_assoc.
  - rewrite !sent_to_app, sent_to_str_list_writes,
      sent_to_list_of_lists_writes, Nat.eqb_refl.
    cbn [sent_to]. rewrite Nat.eqb_refl, app_nil_r, <- !app_assoc.
    unfold bind. rewrite (recv_str_frame _ _ Hx Fx).
    rewrite (recv_str_list_frame _ _ Hl Fl).
    now rewrite (recv_list_of_lists_frame _ _ Hy Fy).
Qed.

Lemma X2_frames_in_sequence_witness :
  exists net,
    (send_str 0 "hi" ;; send_str_list 0 ["a"; ""]%string ;;
     send_list_of_lists 0 [[]; ["b"%string]]) []
    = (Ok tt, net)
    /\ (a <- recv_str ;; b <- recv_str_list ;; c <- recv_list_of_lists ;;
        ret (a, b, c)) (sent_to 0 net ++ [x07])
       = (Ok ("hi"%string, ["a"; ""]%string, [[]; ["b"%string]]), [x07]).
Proof.
  exact (X2_frames_in_sequence 0 "hi" ["a"; ""]%string [[]; ["b"%string]]
           [x07] eq_refl eq_refl ltac:(repeat constructor) eq_refl
           ltac:(repeat constructor) eq_refl).
Defined.

(** X3. [recv_single_value] needs the whole value: with fewer bytes left
    than the format takes (4 for ['<i'], 1 for ['<?']) it raises
    [struct.error] and leaves the reader empty; otherwise it returns a
    value and takes exactly that many bytes. *)
Theorem X3_recv_single_value_needs_whole_value (frmt : Struct.format)
  (rd : reader) :
  (len rd < Struct.calcsize frmt
   /\ recv_single_value frmt rd = (Raise StructError, []))
  \/ (Struct.calcsize frmt <= len rd
      /\ exists v,
           recv_single_value frmt rd
           = (Ok v, skipn (Z.to_nat (Struct.calcsize frmt)) rd)).
Proof.
  unfold len. destruct frmt.
  - destruct rd as [|b0 [|b1 [|b2 [|b3 rest]]]];
      try (left; split; [cbn; lia | reflexivity]).
    right. split; [cbn [length Struct.calcsize]; lia|].
    eexists. reflexivity.
  - destruct rd as [|b0 rest]; [left; split; [cbn; lia | reflexivity]|].
    right. split; [cbn [length Struct.calcsize]; lia|].
    eexists. reflexivity.
Qed.

(** X4. Every 32-bit integer, negative ones included, packed with ['<i']
    is read back by [recv_single_value], and so is each verdict packed
    with ['<?']; the bytes that follow are left in the reader. *)
Theorem X4_single_value_round_trip (n : Z) (b : bool) (rest : reader) :
  - 2 ^ 31 <= n < 2 ^ 31 ->
  (exists data,
      Struct.pack_i n = Ok data
      /\ length data = 4%nat
      /\ recv_single_value Struct.fmt_i (data ++ rest) = (Ok n, rest))
  /\ recv_single_value Struct.fmt_bool (Struct.pack_bool b ++ rest)
     = (Ok b, rest).
Proof.
  intros Hn. split.
  - exists (Wire.int32 n). rewrite (pack_i_fits _ Hn).
    repeat apply conj; try reflexivity. now apply recv_int32.
  - apply recv_flag.
Qed.

Lemma X4_single_value_round_trip_witness :
  - 2 ^ 31 <= -2 < 2 ^ 31
  /\ (exists data,
        Struct.pack_i (-2) = Ok data
        /\ length data = 4%nat
        /\ recv_single_value Struct.fmt_i (data ++ [x07]) = (Ok (-2), [x07]))
  /\ recv_single_value Struct.fmt_bool (Struct.pack_bool true ++ [x07])
     = (Ok true, [x07]).
Proof.
  split; [lia|].
  exact (X4_single_value_round_trip (-2) true [x07] ltac:(lia)).
Defined.

Lemma read_beyond_end (n : Z) (data : bytes) :
  n < 0 \/ len data <= n -> read n data = (Ok data, []).
Proof.
  unfold read, len. intros H.
  destruct (n =? 0) eqn:E0.
  - apply Z.eqb_eq in E0. destruct data; [reflexivity | simpl length in H; lia].
  - destruct (n <? 0) eqn:E1; [reflexivity|].
    apply Z.ltb_ge in E1. apply Z.eqb_neq in E0.
    rewrite firstn_all2, skipn_all2 by lia. reflexivity.
Qed.

(** X5. A stream that ends inside the text of a string is not an error
    for [recv_str]: when the length prefix announces more bytes than are
    left, or is negative, the bytes that are left are the text. *)
Theorem X5_recv_str_takes_what_is_left (n : Z) (s : string) :
  is_str s -> - 2 ^ 31 <= n < 2 ^ 31 ->
  n < 0 \/ len (encode s) <= n ->
  recv_str (Struct.le32 n ++ encode s) = (Ok s, []).
Proof.
  intros Hs Hn Hl. unfold recv_str, bind.
  change (Struct.le32 n) with (Wire.int32 n).
  rewrite (recv_int32 n (encode s) Hn), (read_beyond_end _ _ Hl).
  unfold lift_result. now rewrite decode_encode.
Qed.

Lemma X5_recv_str_witness :
  is_str "abc" /\ - 2 ^ 31 <= 10 < 2 ^ 31
  /\ (10 < 0 \/ len (encode "abc") <= 10)
  /\ recv_str (Struct.le32 10 ++ encode "abc") = (Ok "abc"%string, []).
Proof.
  assert (L : 10 < 0 \/ len (encode "abc") <= 10) by (right; cbn; lia).
  split; [reflexivity|]. split; [lia|]. split; [exact L|].
  exact (X5_recv_str_takes_what_is_left 10 "abc" eq_refl ltac:(lia) L).
Defined.

(** X6. A count that is zero or negative gives the empty list:
    [recv_str_list] and [recv_list_of_lists] take the four bytes of the
    count and nothing else. *)
Theorem X6_no_items_for_nonpositive_count (n : Z) (rest : reader) :
  - 2 ^ 31 <= n <= 0 ->
  recv_str_list (Struct.le32 n ++ rest) = (Ok [], rest)
  /\ recv_list_of_lists (Struct.le32 n ++ rest) = (Ok [], rest).
Proof.
  intros Hn. assert (R : - 2 ^ 31 <= n < 2 ^ 31) by lia.
  unfold recv_str_list, recv_list_of_lists, bind.
  change (Struct.le32 n) with (Wire.int32 n).
  rewrite (recv_int32 n rest R).
  replace (Z.to_nat n) with 0%nat by lia. split; reflexivity.
Qed.

Lemma X6_no_items_witness :
  - 2 ^ 31 <= -3 <= 0
  /\ recv_str_list (Struct.le32 (-3) ++ [x07]) = (Ok [], [x07])
  /\ recv_list_of_lists (Struct.le32 (-3) ++ [x07]) = (Ok [], [x07]).
Proof.
  split; [lia|].
  exact (X6_no_items_for_nonpositive_count (-3) [x07] ltac:(lia)).
Defined.

Lemma for_range_short {A} (n : nat) (body : M reader A) :
  body [] = (Raise StructError, []) ->
  for_range (S n) body [] = (Raise StructError, []).
Proof. intros H. cbn [for_range]. unfold bind. now rewrite H. Qed.

Lemma for_range_recv_str_short (l : list string) (extra : nat) :
  Forall is_str l -> forallb Wire.str_fits l = true ->
  for_range (length l + S extra) recv_str (concat (map Wire.str l))
  = (Raise StructError, []).
Proof.
  induction l as [|s l IH]; intros Hs Hf.
  - cbn [length map concat Nat.add]. now apply for_range_short.
  - inversion Hs as [|? ? Hs1 Hs2]; subst.
    cbn [forallb] in Hf. apply andb_true_iff in Hf as [Hf1 Hf2].
    cbn [length map concat Nat.add for_range]. unfold bind.
    rewrite (recv_str_frame _ _ Hs1 Hf1), (IH Hs2 Hf2). reflexivity.
Qed.

(** X7. A list of strings that ends before the announced number of
    strings has been read is an error: [recv_str_list] raises
    [struct.error] when the stream stops between two strings. *)
Theorem X7_recv_str_list_missing_items (n : Z) (l : list string) :
  Forall is_str l -> forallb Wire.str_fits l = true ->
  len l < n < 2 ^ 31 ->
  recv_str_list (Struct.le32 n ++ concat (map Wire.str l))
  = (Raise StructError, []).
Proof.
  intros Hs Hf Hn. unfold len in Hn.
  assert (R : - 2 ^ 31 <= n < 2 ^ 31) by lia.
  unfold recv_str_list, bind.
  change (Struct.le32 n) with (Wire.int32 n). rewrite (recv_int32 n _ R).
  replace (Z.to_nat n) with (length l + S (Z.to_nat n - length l - 1))%nat
    by lia.
  now apply for_range_recv_str_short.
Qed.

Lemma X7_recv_str_list_missing_items_witness :
  len ["a"; "b"]%string < 3 < 2 ^ 31
  /\ recv_str_list (Struct.le32 3 ++ concat (map Wire.str ["a"; "b"]%string))
     = (Raise StructError, []).
Proof.
  assert (L : len ["a"; "b"]%string < 3 < 2 ^ 31) by (cbn; lia).
  split; [exact L|].
  exact (X7_recv_str_list_missing_items 3 ["a"; "b"]%string
           ltac:(repeat constructor) eq_refl L).
Defined.

(** * Further properties of the server session *)

(** The three ways of one pass: a Register request from a session without
    a username, a request from a registered session, anything else. *)
Lemma loop_body_cases (now : string) (w : writer) (v : str_or_False)
  (rd : reader) (self : world) :
  TCPServerClient.loop_body now w v (rd, self)
  = match recv_single_value Struct.fmt_i rd with
    | (Raise e, rd1) => (Raise e, (rd1, self))
    | (Ok data, rd1) =>
        if (data =? 1) && negb (truthy v) then
          match TCPServerClient.server_get_username_validation w (rd1, self)
          with
          | (Ok a, s1) => (Ok (if truthy a then Next a else Break), s1)
          | (Raise e, s1) => (Raise e, s1)
          end
        else
          match v with
          | Some username =>
              if truthy v then
                if data =? 2 then message_part now w username (rd1, self)
                else (Ok (Next v), (rd1, self))
              else (Ok Break, (rd1, self))
          | None => (Ok Break, (rd1, self))
          end
    end.
Proof.
  unfold TCPServerClient.loop_body, bind at 1.
  unfold on_reader at 1. cbn [fst snd].
  destruct (recv_single_value Struct.fmt_i rd) as [[data|e] rd1];
    [|reflexivity].
  unfold bind at 1.
  destruct ((data =? 1) && negb (truthy v)) eqn:C.
  - apply andb_true_iff in C as [C _]. apply Z.eqb_eq in C. subst data.
    destruct (TCPServerClient.server_get_username_validation w (rd1, self))
      as [[[username|]|e] s1]; try reflexivity.
    destruct (truthy (Some username)); reflexivity.
  - unfold ret at 1. destruct v as [username|]; [|reflexivity].
    destruct (truthy (Some username)); [|reflexivity].
    destruct (data =? 2); reflexivity.
Qed.

Lemma respects_weaken {S A} (R R' : S -> S -> Prop) (m : M S A) :
  (forall a b, R a b -> R' a b) -> respects R m -> respects R' m.
Proof. intros W H s r s' E. apply W. exact (H _ _ _ E). Qed.

Lemma in_world_on_world {A} (R : world -> world -> Prop) (m : M world A) :
  respects R m -> respects (in_world R) (on_world m).
Proof.
  apply (respects_on_world R). intros rd self self' H. exact H.
Qed.

Lemma in_world_on_reader {A} (R : world -> world -> Prop) (m : M reader A) :
  (forall self, R self self) -> respects (in_world R) (on_reader m).
Proof.
  intros Rf. apply (respects_on_reader anything); [|apply respects_anything].
  intros rd rd' self _. apply Rf.
Qed.

Lemma preserves_refl (P : world -> Prop) (self : world) :
  preserves P self self.
Proof. intros H. exact H. Qed.

Lemma preserves_trans (P : world -> Prop) (a b c : world) :
  preserves P a b -> preserves P b c -> preserves P a c.
Proof. unfold preserves. auto. Qed.

Lemma in_world_refl (R : world -> world -> Prop) :
  (forall self, R self self) -> forall s, in_world R s s.
Proof. intros Rf s. apply Rf. Qed.

Lemma in_world_trans (R : world -> world -> Prop) :
  (forall a b c, R a b -> R b c -> R a c) ->
  forall a b c, in_world R a b -> in_world R b c -> in_world R a c.
Proof. intros Rt a b c. apply Rt. Qed.

Lemma unchanged_refl {X} (f : world -> X) (self : world) :
  unchanged f self self.
Proof. reflexivity. Qed.

Lemma unchanged_trans {X} (f : world -> X) (a b c : world) :
  unchanged f a b -> unchanged f b c -> unchanged f a c.
Proof. unfold unchanged. congruence. Qed.

(** Writing touches neither the registry nor the history nor the list of
    closed writers. *)
Lemma on_wire_unchanged {X A} (f : world -> X) (m : M transport A) :
  (forall self net, f (set_wire net self) = f self) ->
  respects (unchanged f) (on_wire m).
Proof. intros H. apply respects_on_wire. intros self net. apply H. Qed.

Lemma send_messages_to_all_unchanged {X} (f : world -> X)
  (message : list string) :
  (forall self net, f (set_wire net self) = f self) ->
  respects (unchanged f) (TCPServerClient.send_messages_to_all message).
Proof.
  intros H. unfold TCPServerClient.send_messages_to_all.
  apply respects_bind;
    [apply unchanged_trans | apply respects_get, unchanged_refl |].
  intros self. apply respects_for_each;
    [apply unchanged_refl | apply unchanged_trans |].
  intros w. now apply on_wire_unchanged.
Qed.

Lemma last_message_unchanged {X} (f : world -> X) :
  respects (unchanged f) TCPServerClient.last_message.
Proof.
  unfold TCPServerClient.last_message.
  apply respects_bind;
    [apply unchanged_trans | apply respects_get, unchanged_refl |].
  intros self. destruct (rev (messages self)).
  - apply respects_raise, unchanged_refl.
  - apply respects_ret, unchanged_refl.
Qed.

Lemma add_to_recent_messages_unchanged {X} (f : world -> X)
  (message : list string) :
  (forall self g, f (set_messages g self) = f self) ->
  respects (unchanged f) (TCPServerClient.add_to_recent_messages message).
Proof. intros H self r self' [= <- <-]. apply H. Qed.

Lemma new_connection_unchanged {X} (f : world -> X) (w : writer)
  (username : string) :
  (forall self net, f (set_wire net self) = f self) ->
  (forall self g, f (set_people g self) = f self) ->
  respects (unchanged f) (TCPServerClient.new_connection w username).
Proof.
  intros Hw Hp. unfold TCPServerClient.new_connection.
  apply respects_bind; [apply unchanged_trans | |].
  - intros self r self' [= <- <-]. apply Hp.
  - intros _. apply respects_bind;
      [apply unchanged_trans | apply respects_get, unchanged_refl |].
    intros self. now apply on_wire_unchanged.
Qed.

Lemma del_people_unchanged {X} (f : world -> X) (username : string) :
  (forall self g, f (set_people g self) = f self) ->
  respects (unchanged f) (TCPServerClient.del_people username).
Proof.
  intros Hp self r self'.
  unfold TCPServerClient.del_people, bind, get, lift_result.
  destruct (Dict.delitem username (people self)) as [d|e];
    intros [= <- <-]; [apply Hp | reflexivity].
Qed.

(** Walks through a computation built from [bind], [ret], [raise],
    [try_except] and conditionals, leaving its basic steps to [leaf]. *)
Ltac walk refl trans leaf :=
  repeat first
    [ apply respects_ret; refl
    | apply respects_raise; refl
    | apply respects_bind; [ trans | | intros ? ]
    | apply respects_try_except; [ trans | | ]
    | leaf
    | match goal with
      | |- respects _ (if ?c then _ else _) => destruct c
      | |- respects _ (match ?x with _ => _ end) => destruct x
      end ].

Ltac unchanged_leaf :=
  first
    [ apply in_world_on_reader; intros; reflexivity
    | apply in_world_on_world;
      first
        [ apply on_wire_unchanged; reflexivity
        | apply new_connection_unchanged; reflexivity
        | apply del_people_unchanged; reflexivity
        | apply add_to_recent_messages_unchanged; reflexivity
        | apply last_message_unchanged
        | apply send_messages_to_all_unchanged; reflexivity
        | apply respects_get; apply unchanged_refl ] ].

Ltac walk_unchanged :=
  walk ltac:(apply in_world_refl; apply unchanged_refl)
       ltac:(apply in_world_trans; apply unchanged_trans)
       ltac:(unchanged_leaf).

Lemma validation_unchanged_messages (w : writer) :
  respects (in_world (unchanged messages))
    (TCPServerClient.server_get_username_validation w).
Proof.
  unfold TCPServerClient.server_get_username_validation. walk_unchanged.
Qed.

Lemma validation_unchanged_closed (w : writer) :
  respects (in_world (unchanged closed))
    (TCPServerClient.server_get_username_validation w).
Proof.
  unfold TCPServerClient.server_get_username_validation. walk_unchanged.
Qed.

Lemma receive_unchanged_messages (w : writer) (username : string) :
  respects (in_world (unchanged messages))
    (TCPServerClient.server_receive_messages w username).
Proof.
  unfold TCPServerClient.server_receive_messages. walk_unchanged.
Qed.

Lemma message_part_unchanged_closed (now : string) (w : writer)
  (username : string) :
  respects (in_world (unchanged closed)) (message_part now w username).
Proof.
  unfold message_part, TCPServerClient.server_receive_messages.
  walk_unchanged.
Qed.

(** A relation respected by the reads, by the validation of a username
    and by the handling of a message is respected by every pass. *)
Lemma pass_respects (R : session -> session -> Prop) (now : string)
  (w : writer) (v : str_or_False) :
  (forall s, R s s) ->
  (forall a b c, R a b -> R b c -> R a c) ->
  (forall rd rd' self, R (rd, self) (rd', self)) ->
  (truthy v = false ->
   respects R (TCPServerClient.server_get_username_validation w)) ->
  (forall username, v = Some username -> truthy v = true ->
                    respects R (message_part now w username)) ->
  respects R (TCPServerClient.loop_body now w v).
Proof.
  intros Rf Rt Rr Hv Hm [rd self] r s'. rewrite loop_body_cases.
  destruct (recv_single_value Struct.fmt_i rd) as [[data|e] rd1];
    [|intros [= <- <-]; apply Rr].
  destruct ((data =? 1) && negb (truthy v)) eqn:C.
  - apply andb_true_iff in C as [_ C]. apply negb_true_iff in C.
    destruct (TCPServerClient.server_get_username_validation w (rd1, self))
      as [[a|e] s1] eqn:E; intros [= <- <-];
      exact (Rt _ _ _ (Rr rd rd1 self) (Hv C _ _ _ E)).
  - destruct v as [username|]; [|intros [= <- <-]; apply Rr].
    destruct (truthy (Some username)) eqn:T; [|intros [= <- <-]; apply Rr].
    destruct (data =? 2); [|intros [= <- <-]; apply Rr].
    intros E. exact (Rt _ _ _ (Rr rd rd1 self) (Hm _ eq_refl eq_refl _ _ _ E)).
Qed.

Lemma while_true_respects (R : session -> session -> Prop) (w : writer) :
  (forall a b c, R a b -> R b c -> R a c) ->
  (forall now v, respects R (TCPServerClient.loop_body now w v)) ->
  forall fuel clock pass v s r s',
    TCPServerClient.while_true fuel clock pass w v s = Some (r, s') ->
    R s s'.
Proof.
  intros Rt Hp fuel. induction fuel as [|fuel IH]; intros clock pass v s r s';
    cbn [TCPServerClient.while_true]; [discriminate|].
  destruct (TCPServerClient.loop_body (clock pass) w v s)
    as [[[v'|]|e] s1] eqn:E; pose proof (Hp _ _ _ _ _ E) as K.
  - intros H. exact (Rt _ _ _ K (IH _ _ _ _ _ _ H)).
  - intros [= <- <-]. exact K.
  - intros [= <- <-]. exact K.
Qed.

(** What the handler as a whole adds to its loop is [writer.close()]
    at a normal end. *)
Lemma handler_inv (clock : nat -> string) (w : writer) (s : session) :
  exists r s1,
    TCPServerClient.while_true (S (length (fst s))) clock 0 w None s
    = Some (r, s1)
    /\ TCPServerClient.server_handle_clients clock w s
       = Some (r, match r with
                  | Ok _ => (fst s1, close w (snd s1))
                  | Raise _ => s1
                  end).
Proof.
  destruct (while_true_total (S (length (fst s))) clock 0 w None s)
    as (r & s1 & E); [lia|].
  exists r, s1. split; [exact E|].
  unfold TCPServerClient.server_handle_clients. rewrite E.
  destruct r as [[]|e], s1 as [rd self]; reflexivity.
Qed.

(** *** The registry holds each username once *)

(** A Python [dict] holds a key once; the association list that stands
    for it does too, whatever the server does: [well_formed], which the
    statements about a removal assume, is kept by every pass. *)

Lemma keys_setitem {V} (k : string) (v : V) (d : Dict.t V) :
  Dict.keys (Dict.setitem k v d)
  = if Dict.contains k d then Dict.keys d else Dict.keys d ++ [k].
Proof.
  induction d as [|[k' v'] d IH]; cbn [Dict.setitem Dict.contains Dict.keys map fst];
    [reflexivity|].
  destruct (String.eqb k' k) eqn:E; cbn [orb Dict.keys map fst]; [reflexivity|].
  fold (Dict.keys (Dict.setitem k v d)). rewrite IH.
  now destruct (Dict.contains k d).
Qed.

Lemma well_formed_setitem {V} (k : string) (v : V) (d : Dict.t V) :
  well_formed d -> well_formed (Dict.setitem k v d).
Proof.
  unfold well_formed. intros H. rewrite keys_setitem.
  destruct (Dict.contains k d) eqn:C; [exact H|].
  apply NoDup_app; [exact H | repeat constructor; intros [] |].
  intros x I [<-|[]]. apply contains_In in I. congruence.
Qed.

Lemma well_formed_delitem {V} (k : string) (d d' : Dict.t V) :
  Dict.delitem k d = Ok d' -> well_formed d -> well_formed d'.
Proof.
  intros E WF. destruct (Dict.contains k d) eqn:C.
  - destruct (delitem_present _ _ C) as (d'' & E' & _ & _ & H).
    rewrite E in E'. injection E' as <-. now apply H.
  - rewrite (delitem_absent _ _ C) in E. discriminate E.
Qed.

Lemma unchanged_people_preserves (P : Dict.t writer -> Prop)
  (self self' : world) :
  unchanged people self self' ->
  preserves (fun self => P (people self)) self self'.
Proof. unfold unchanged, preserves. now intros ->. Qed.

Lemma new_connection_unique (w : writer) (username : string) :
  respects (preserves unique_names)
    (TCPServerClient.new_connection w username).
Proof.
  unfold TCPServerClient.new_connection.
  apply respects_bind; [apply preserves_trans | |].
  - intros self r self' [= <- <-] H. now apply well_formed_setitem.
  - intros _. apply respects_bind;
      [apply preserves_trans | apply respects_get, preserves_refl |].
    intros self. apply respects_on_wire. intros s net H. exact H.
Qed.

Lemma del_people_unique (username : string) :
  respects (preserves unique_names) (TCPServerClient.del_people username).
Proof.
  intros self r self'.
  unfold TCPServerClient.del_people, bind, get, lift_result.
  destruct (Dict.delitem username (people self)) as [d|e] eqn:E;
    intros [= <- <-] H; [|exact H].
  exact (well_formed_delitem _ _ _ E H).
Qed.

Ltac unique_leaf :=
  first
    [ apply in_world_on_reader; intros; apply preserves_refl
    | apply in_world_on_world;
      first
        [ apply new_connection_unique
        | apply del_people_unique
        | apply (respects_weaken (unchanged people));
          [ apply (unchanged_people_preserves well_formed)
          | first
              [ apply on_wire_unchanged; reflexivity
              | apply add_to_recent_messages_unchanged; reflexivity
              | apply last_message_unchanged
              | apply send_messages_to_all_unchanged; reflexivity
              | apply respects_get; apply unchanged_refl ] ] ] ].

Ltac walk_unique :=
  walk ltac:(apply in_world_refl; apply preserves_refl)
       ltac:(apply in_world_trans; apply preserves_trans)
       ltac:(unique_leaf).

Lemma loop_body_unique (now : string) (w : writer) (v : str_or_False) :
  respects (in_world (preserves unique_names))
    (TCPServerClient.loop_body now w v).
Proof.
  apply pass_respects.
  - apply in_world_refl, preserves_refl.
  - apply in_world_trans, preserves_trans.
  - intros rd rd' self H. exact H.
  - intros _. unfold TCPServerClient.server_get_username_validation.
    walk_unique.
  - intros username _ _.
    unfold message_part, TCPServerClient.server_receive_messages.
    walk_unique.
Qed.

Lemma handler_preserves (P : world -> Prop) (clock : nat -> string)
  (w : writer) (s : session) :
  (forall now v,
      respects (in_world (preserves P)) (TCPServerClient.loop_body now w v)) ->
  (forall self, P self -> P (close w self)) ->
  P (snd s) ->
  exists r s',
    TCPServerClient.server_handle_clients clock w s = Some (r, s')
    /\ P (snd s').
Proof.
  intros Hp Hc H0. destruct (handler_inv clock w s) as (r & s1 & E & ->).
  pose proof (while_true_respects _ w
                (in_world_trans _ (preserves_trans P)) Hp _ _ _ _ _ _ _ E H0)
    as H1.
  eexists. eexists. split; [reflexivity|].
  destruct r; cbn [snd]; auto.
Qed.

(** *** The history stays short and made of triples *)

Lemma add_triple_history_ok (a b c : string) :
  respects (preserves history_ok)
    (TCPServerClient.add_to_recent_messages [a; b; c]).
Proof.
  intros self r self' [= <- <-] [L F]. unfold history_ok.
  cbn [messages set_messages]. split.
  - rewrite length_app. cbn [length].
    destruct (Nat.eqb (length (messages self)) 10) eqn:E.
    + apply Nat.eqb_eq in E. destruct (messages self); cbn [tl length] in *; lia.
    + apply Nat.eqb_neq in E. lia.
  - apply Forall_app. split; [|repeat constructor].
    destruct (Nat.eqb (length (messages self)) 10); [|exact F].
    destruct F; [constructor | assumption].
Qed.

Lemma unchanged_messages_preserves (self self' : world) :
  unchanged messages self self' -> preserves history_ok self self'.
Proof. unfold unchanged, preserves, history_ok. now intros ->. Qed.

Ltac history_leaf :=
  first
    [ apply in_world_on_reader; intros; apply preserves_refl
    | apply in_world_on_world;
      first
        [ apply add_triple_history_ok
        | apply (respects_weaken (unchanged messages));
          [ apply unchanged_messages_preserves
          | first
              [ apply on_wire_unchanged; reflexivity
              | apply new_connection_unchanged; reflexivity
              | apply del_people_unchanged; reflexivity
              | apply last_message_unchanged
              | apply send_messages_to_all_unchanged; reflexivity
              | apply respects_get; apply unchanged_refl ] ] ] ].

Ltac walk_history :=
  walk ltac:(apply in_world_refl; apply preserves_refl)
       ltac:(apply in_world_trans; apply preserves_trans)
       ltac:(history_leaf).

Lemma loop_body_history_ok (now : string) (w : writer) (v : str_or_False) :
  respects (in_world (preserves history_ok))
    (TCPServerClient.loop_body now w v).
Proof.
  apply pass_respects.
  - apply in_world_refl, preserves_refl.
  - apply in_world_trans, preserves_trans.
  - intros rd rd' self H. exact H.
  - intros _. unfold TCPServerClient.server_get_username_validation.
    walk_history.
  - intros username _ _.
    unfold message_part, TCPServerClient.server_receive_messages.
    walk_history.
Qed.

(** X9. The bound on the history is kept by the server at work: if the
    history holds at most 10 messages, each of three strings, it still
    does after any pass of any session and after a whole run of
    [server_handle_clients], so that a snapshot never has more than 10
    entries. *)
Theorem X9_history_stays_bounded (clock : nat -> string) (now : string)
  (w : writer) (v : str_or_False) (s : session) :
  history_ok (snd s) ->
  (forall r s',
      TCPServerClient.loop_body now w v s = (r, s') -> history_ok (snd s'))
  /\ exists r s',
       TCPServerClient.server_handle_clients clock w s = Some (r, s')
       /\ history_ok (snd s').
Proof.
  intros H. split.
  - intros r s' E. exact (loop_body_history_ok now w v s r s' E H).
  - apply (handler_preserves history_ok); [|auto|exact H].
    intros now' v'. apply loop_body_history_ok.
Qed.

Lemma X9_history_stays_bounded_witness :
  history_ok (mkWorld (history_after Scenario.eleven) [] [] [])
  /\ exists r s',
       TCPServerClient.server_handle_clients Scenario.noon 0
         (Scenario.chats "alice" ["hi"%string],
          mkWorld (history_after Scenario.eleven) [] [] [])
       = Some (r, s')
       /\ history_ok (snd s').
Proof.
  assert (H : history_ok (mkWorld (history_after Scenario.eleven) [] [] [])).
  { split; [cbn; lia | repeat constructor]. }
  split; [exact H|].
  exact (proj2 (X9_history_stays_bounded Scenario.noon "12:00:00" 0 None
                  (Scenario.chats "alice" ["hi"%string],
                   mkWorld (history_after Scenario.eleven) [] [] []) H)).
Defined.

(** *** The end of a handler *)

Lemma loop_body_unchanged_closed (now : string) (w : writer)
  (v : str_or_False) :
  respects (in_world (unchanged closed)) (TCPServerClient.loop_body now w v).
Proof.
  apply pass_respects.
  - apply in_world_refl, unchanged_refl.
  - apply in_world_trans, unchanged_trans.
  - reflexivity.
  - intros _. apply validation_unchanged_closed.
  - intros username _ _. apply message_part_unchanged_closed.
Qed.

Lemma loop_body_shrinks (now : string) (w : writer) (v : str_or_False) :
  respects shrinks (TCPServerClient.loop_body now w v).
Proof.
  intros [rd self] r s'. rewrite loop_body_cases.
  destruct (recv_single_value Struct.fmt_i rd) as [[data|e] rd1] eqn:R;
    pose proof (recv_single_value_no_longer _ _ _ _ R) as L;
    [|intros [= <- <-]; exact L].
  assert (K : forall (m : M session flow) r s',
             respects shrinks m -> m (rd1, self) = (r, s') ->
             shrinks (rd, self) s').
  { intros m r0 s0 Hm E. exact (shrinks_trans (rd, self) (rd1, self) s0 L
                                  (Hm _ _ _ E)). }
  destruct ((data =? 1) && negb (truthy v)).
  - destruct (TCPServerClient.server_get_username_validation w (rd1, self))
      as [[a|e] s1] eqn:E; intros [= <- <-];
      exact (shrinks_trans (rd, self) (rd1, self) s1 L
               (validation_shrinks w _ _ _ E)).
  - destruct v as [username|]; [|intros [= <- <-]; exact L].
    destruct (truthy (Some username)); [|intros [= <- <-]; exact L].
    destruct (data =? 2); [|intros [= <- <-]; exact L].
    apply K. unfold message_part.
    apply respects_bind; [apply shrinks_trans | apply receive_shrinks |].
    intros message. destruct (_ && _); [shrink_step|].
    destruct message; repeat shrink_step.
Qed.

(** X10. [server_handle_clients] always comes to an end on a stream that
    ends: a pass that goes on to the next has taken at least four bytes
    from the reader, and the reader never grows. At a normal end the
    handler has closed its own writer and no other; when it is left by an
    exception it has closed none. *)
Theorem X10_handler_ends (clock : nat -> string) (now : string) (w : writer)
  (v : str_or_False) (s : session) :
  (forall f s',
      TCPServerClient.loop_body now w v s = (Ok f, s') ->
      (4 + length (fst s') <= length (fst s))%nat)
  /\ exists r s',
       TCPServerClient.server_handle_clients clock w s = Some (r, s')
       /\ (length (fst s') <= length (fst s))%nat
       /\ closed (snd s')
          = match r with
            | Ok _ => closed (snd s) ++ [w]
            | Raise _ => closed (snd s)
            end.
Proof.
  split.
  - intros f s' E. exact (loop_body_takes_four now w v s s' f E).
  - destruct (handler_inv clock w s) as (r & s1 & E & ->).
    pose proof (while_true_respects _ w shrinks_trans
                  (fun now v => loop_body_shrinks now w v) _ _ _ _ _ _ _ E)
      as L.
    pose proof (while_true_respects _ w
                  (in_world_trans _ (unchanged_trans closed))
                  (fun now v => loop_body_unchanged_closed now w v)
                  _ _ _ _ _ _ _ E) as C.
    unfold in_world, unchanged in C. unfold shrinks, no_longer in L.
    eexists. eexists. split; [reflexivity|].
    destruct r; cbn [fst snd close closed]; rewrite C; split; auto.
Qed.

(** X11. When the text of a message cannot be read from a registered
    session (the stream ends in the length prefix, or the text is not
    UTF-8), the loop ends and the username of the session is taken out of
    the registry. The registry that remains holds exactly the entries
    under the other usernames, in their order and with their writers; the
    history, what has been written and the closed writers are left as
    they were. *)
Theorem X11_failed_text_unregisters (now : string) (w : writer)
  (username : string) (e : exn) (rd rd1 rd2 : reader) (self : world) :
  truthy (Some username) = true ->
  recv_single_value Struct.fmt_i rd = (Ok 2, rd1) ->
  recv_str rd1 = (Raise e, rd2) ->
  well_formed (people self) ->
  Dict.contains username (people self) = true ->
  TCPServerClient.loop_body now w (Some username) (rd, self)
  = (Ok Break,
     (rd2, mkWorld (messages self) (others username (people self))
             (wire self) (closed self)))
  /\ Dict.contains username (others username (people self)) = false
  /\ (forall k, k <> username ->
                writer_of k (others username (people self))
                = writer_of k (people self))
  /\ (forall k, k <> username ->
                Dict.contains k (others username (people self))
                = Dict.contains k (people self))
  /\ well_formed (others username (people self)).
Proof.
  intros T R1 R2 WF C.
  destruct (delitem_present _ _ C) as (d & E & Hk & _ & H).
  rewrite (loop_body_send_failure now w username e rd rd1 rd2 self T R1 R2), E.
  pose proof (delitem_others _ _ _ WF E) as Q. subst d.
  destruct (H WF) as [WF' C']. repeat apply conj; auto.
  intros k N. exact (writer_of_delitem _ _ _ _ E N).
Qed.

Lemma X11_failed_text_unregisters_witness :
  TCPServerClient.loop_body "12:00:00" 1 (Some "bob"%string)
    (Scenario.opcode 2 ++ Struct.le32 1 ++ [xff],
     mkWorld [] [("alice"%string, 0%nat); ("bob"%string, 1%nat);
                 ("carol"%string, 2%nat)] [] [])
  = (Ok Break,
     ([], mkWorld [] [("alice"%string, 0%nat); ("carol"%string, 2%nat)]
            [] []))
  /\ Dict.contains "bob" [("alice"%string, 0%nat); ("carol"%string, 2%nat)]
     = false
  /\ (forall k, k <> "bob"%string ->
                writer_of k [("alice"%string, 0%nat); ("carol"%string, 2%nat)]
                = writer_of k [("alice"%string, 0%nat);
                               ("bob"%string, 1%nat);
                               ("carol"%string, 2%nat)])
  /\ (forall k, k <> "bob"%string ->
                Dict.contains k
                  [("alice"%string, 0%nat); ("carol"%string, 2%nat)]
                = Dict.contains k [("alice"%string, 0%nat);
                                   ("bob"%string, 1%nat);
                                   ("carol"%string, 2%nat)])
  /\ well_formed [("alice"%string, 0%nat); ("carol"%string, 2%nat)].
Proof.
  assert (WF : well_formed
                 (people (mkWorld [] [("alice"%string, 0%nat);
                                      ("bob"%string, 1%nat);
                                      ("carol"%string, 2%nat)] [] []))).
  { unfold well_formed. cbn. repeat constructor; cbn; intuition discriminate. }
  exact (X11_failed_text_unregisters "12:00:00" 1 "bob"
           UnicodeDecodeError
           (Scenario.opcode 2 ++ Struct.le32 1 ++ [xff])
           (Struct.le32 1 ++ [xff]) []
           (mkWorld [] [("alice"%string, 0%nat);
                        ("bob"%string, 1%nat);
                        ("carol"%string, 2%nat)] [] [])
           eq_refl eq_refl eq_refl WF eq_refl).
Defined.

(** X12. A session that has no username cannot post: a Send request
    before registration ends the loop without reading the text, and
    leaves the registry, the history and every writer as they were; the
    handler then closes the connection. *)
Theorem X12_send_before_registration (clock : nat -> string) (now : string)
  (w : writer) (v : str_or_False) (rd rd1 : reader) (self : world) :
  truthy v = false ->
  recv_single_value Struct.fmt_i rd = (Ok 2, rd1) ->
  TCPServerClient.loop_body now w v (rd, self) = (Ok Break, (rd1, self))
  /\ TCPServerClient.server_handle_clients clock w (rd, self)
     = Some (Ok tt, (rd1, close w self)).
Proof.
  intros T R.
  assert (P : forall now' v', truthy v' = false ->
              TCPServerClient.loop_body now' w v' (rd, self)
              = (Ok Break, (rd1, self))).
  { intros now' v' T'. rewrite loop_body_cases, R. cbn [Z.eqb Pos.eqb andb].
    destruct v' as [u|]; [|reflexivity]. now rewrite T'. }
  split; [now apply P|].
  apply handler_breaks. now apply P.
Qed.

Lemma X12_send_before_registration_witness :
  TCPServerClient.loop_body "12:00:00" 1 None
    (Scenario.says ["hi"%string], Scenario.alice_alone)
  = (Ok Break, (skipn 4 (Scenario.says ["hi"%string]), Scenario.alice_alone))
  /\ TCPServerClient.server_handle_clients Scenario.noon 1
       (Scenario.says ["hi"%string], Scenario.alice_alone)
     = Some (Ok tt,
             (skipn 4 (Scenario.says ["hi"%string]),
              close 1 Scenario.alice_alone)).
Proof.
  exact (X12_send_before_registration Scenario.noon "12:00:00" 1 None
           (Scenario.says ["hi"%string])
           (skipn 4 (Scenario.says ["hi"%string])) Scenario.alice_alone
           eq_refl eq_refl).
Defined.

(** *** The username of a session *)

Lemma message_part_next (now : string) (w : writer) (username : string)
  (s s' : session) (v' : str_or_False) :
  message_part now w username s = (Ok (Next v'), s') -> v' = Some username.
Proof.
  unfold message_part, bind.
  destruct (TCPServerClient.server_receive_messages w username s)
    as [[message|e] s1]; [|discriminate].
  destruct (negb (truthy message) && differs_from_empty message);
    [discriminate|].
  destruct message as [message|]; [|discriminate].
  destruct (on_world _ s1) as [[[]|e] s2]; [|discriminate].
  destruct (on_world TCPServerClient.last_message s2) as [[last|e] s3];
    [|discriminate].
  destruct (on_world _ s3) as [[[]|e] s4]; [|discriminate].
  now intros [= <- <-].
Qed.

(** X13. The username of a registered session never changes: a pass that
    goes on to the next keeps it, and a Register request from a session
    that has a username is skipped, its text staying unread in the
    stream and nothing being written or registered. *)
Theorem X13_username_is_kept (now : string) (w : writer) (v : str_or_False) :
  truthy v = true ->
  (forall s v' s',
      TCPServerClient.loop_body now w v s = (Ok (Next v'), s') -> v' = v)
  /\ (forall rd rd1 self,
        recv_single_value Struct.fmt_i rd = (Ok 1, rd1) ->
        TCPServerClient.loop_body now w v (rd, self)
        = (Ok (Next v), (rd1, self))).
Proof.
  intros T. split.
  - intros [rd self] v' s'. rewrite loop_body_cases.
    destruct (recv_single_value Struct.fmt_i rd) as [[data|e] rd1];
      [|discriminate].
    rewrite T, andb_false_r. destruct v as [username|]; [|discriminate].
    destruct (data =? 2); [apply message_part_next | now intros [= <- <-]].
  - intros rd rd1 self R. rewrite loop_body_cases, R, T.
    cbn [negb andb Z.eqb Pos.eqb]. now destruct v.
Qed.

Lemma X13_username_is_kept_witness :
  truthy (Some "alice"%string) = true
  /\ TCPServerClient.loop_body "12:00:00" 0 (Some "alice"%string)
       (Scenario.registers "bob", Scenario.alice_alone)
     = (Ok (Next (Some "alice"%string)),
        (skipn 4 (Scenario.registers "bob"), Scenario.alice_alone)).
Proof.
  split; [reflexivity|].
  exact (proj2 (X13_username_is_kept "12:00:00" 0 (Some "alice"%string)
                  eq_refl)
           (Scenario.registers "bob") (skipn 4 (Scenario.registers "bob"))
           Scenario.alice_alone eq_refl).
Defined.

(** *** Sessions do not unregister one another *)

Lemma validation_fresh (w : writer) (s s1 : session) (username : string) :
  TCPServerClient.server_get_username_validation w s
  = (Ok (Some username), s1) ->
  Dict.contains username (people (snd s)) = false.
Proof.
  unfold TCPServerClient.server_get_username_validation, bind.
  destruct (on_reader recv_str s) as [[u|e] s0] eqn:E; [|discriminate].
  apply on_reader_inv in E as [_ E].
  unfold on_world at 1, get. cbn [fst snd]. rewrite E.
  destruct (Dict.contains u (people (snd s))) eqn:C; cbn [negb].
  - destruct (on_world _ _) as [[[]|e] s2]; discriminate.
  - destruct (on_world _ _) as [[[]|e] s2]; [|discriminate].
    destruct (on_world _ _) as [[[]|e] s3]; [|discriminate].
    now intros [= <- _].
Qed.

Lemma message_part_keeps (k username : string) (now : string) (w : writer) :
  k <> username ->
  respects (session_keeps_key k) (message_part now w username).
Proof.
  intros N. unfold message_part.
  apply respects_bind; [apply session_keeps_key_trans | |].
  - now apply receive_keeps.
  - intros message. destruct (_ && _); [keep_step k|].
    destruct message; repeat keep_step k.
Qed.

Lemma pass_keeps_others (now : string) (w : writer) (v : str_or_False)
  (k : string) (s s' : session) (r : result flow) :
  (truthy v = true -> v <> Some k) ->
  Dict.contains k (people (snd s)) = true ->
  TCPServerClient.loop_body now w v s = (r, s') ->
  Dict.contains k (people (snd s')) = true
  /\ (forall v', r = Ok (Next v') -> truthy v' = true -> v' <> Some k).
Proof.
  intros Hv C. destruct s as [rd self]. cbn [snd] in C.
  rewrite loop_body_cases.
  destruct (recv_single_value Struct.fmt_i rd) as [[data|e] rd1];
    [|intros [= <- <-]; split; [exact C | discriminate]].
  destruct ((data =? 1) && negb (truthy v)).
  - destruct (TCPServerClient.server_get_username_validation w (rd1, self))
      as [[a|e] s1] eqn:E; intros [= <- <-];
      pose proof (validation_keeps k w _ _ _ E C) as K;
      (split; [exact K|]); [|discriminate].
    intros v' [= Q] T. destruct (truthy a); [|discriminate].
    injection Q as <-. destruct a as [u|]; [|discriminate].
    apply validation_fresh in E. cbn [snd] in E. congruence.
  - destruct v as [username|];
      [|intros [= <- <-]; split; [exact C | discriminate]].
    destruct (truthy (Some username)) eqn:T;
      [|intros [= <- <-]; split; [exact C | discriminate]].
    specialize (Hv eq_refl).
    destruct (data =? 2).
    + intros E. split.
      * apply (message_part_keeps k username now w) in E; [now apply E|].
        congruence.
      * intros v' -> _. apply message_part_next in E. now subst v'.
    + intros [= <- <-]. split; [exact C|]. now intros v' [= <-] _.
Qed.

Lemma while_true_keeps_others (k : string) (w : writer) (fuel : nat)
  (clock : nat -> string) (pass : nat) (v : str_or_False) (s s' : session)
  (r : result unit) :
  (truthy v = true -> v <> Some k) ->
  Dict.contains k (people (snd s)) = true ->
  TCPServerClient.while_true fuel clock pass w v s = Some (r, s') ->
  Dict.contains k (people (snd s')) = true.
Proof.
  revert pass v s. induction fuel as [|fuel IH]; intros pass v s Hv C;
    cbn [TCPServerClient.while_true]; [discriminate|].
  destruct (TCPServerClient.loop_body (clock pass) w v s) as [r1 s1] eqn:E.
  destruct (pass_keeps_others _ _ _ _ _ _ _ Hv C E) as [C1 H1].
  destruct r1 as [[v'|]|e].
  - apply IH; [|exact C1]. intros T. now apply (H1 v').
  - now intros [= <- <-].
  - now intros [= <- <-].
Qed.

(** X14. A session only ever takes its own username out of the registry.
    A username [k] that is registered stays registered through any pass
    of a session whose username is not [k], however the pass ends, and
    through a whole run of the handler of another connection. *)
Theorem X14_other_usernames_survive (clock : nat -> string) (now : string)
  (w : writer) (v : str_or_False) (k : string) (s : session) :
  Dict.contains k (people (snd s)) = true ->
  (truthy v = true -> v <> Some k) ->
  (forall r s',
      TCPServerClient.loop_body now w v s = (r, s') ->
      Dict.contains k (people (snd s')) = true)
  /\ exists r s',
       TCPServerClient.server_handle_clients clock w s = Some (r, s')
       /\ Dict.contains k (people (snd s')) = true.
Proof.
  intros C Hv. split.
  - intros r s' E. exact (proj1 (pass_keeps_others _ _ _ _ _ _ _ Hv C E)).
  - destruct (handler_inv clock w s) as (r & s1 & E & ->).
    assert (K : Dict.contains k (people (snd s1)) = true).
    { exact (while_true_keeps_others k w _ _ _ None s s1 r
               ltac:(discriminate) C E). }
    eexists. eexists. split; [reflexivity|]. now destruct r.
Qed.

Lemma X14_other_usernames_survive_witness :
  Dict.contains "alice" (people Scenario.alice_alone) = true
  /\ (truthy (Some "bob"%string) = true
      -> Some "bob"%string <> Some "alice"%string)
  /\ (forall r s',
        TCPServerClient.loop_body "12:00:00" 1 (Some "bob"%string)
          (Scenario.opcode 2, Scenario.alice_alone) = (r, s') ->
        Dict.contains "alice" (people (snd s')) = true)
  /\ exists r s',
       TCPServerClient.server_handle_clients Scenario.noon 1
         (Scenario.opcode 2, Scenario.alice_alone) = Some (r, s')
       /\ Dict.contains "alice" (people (snd s')) = true.
Proof.
  assert (N : truthy (Some "bob"%string) = true
              -> Some "bob"%string <> Some "alice"%string)
    by (intros _; discriminate).
  split; [reflexivity|]. split; [exact N|].
  exact (X14_other_usernames_survive Scenario.noon "12:00:00" 1
           (Some "bob"%string) "alice"
           (Scenario.opcode 2, Scenario.alice_alone) eq_refl N).
Defined.

(** *** A registered username is not taken over *)

Lemma keeps_entry_refl (k : string) (w0 : writer) (self : world) :
  keeps_entry k w0 self self.
Proof. intros H. exact H. Qed.

Lemma keeps_entry_trans (k : string) (w0 : writer) (a b c : world) :
  keeps_entry k w0 a b -> keeps_entry k w0 b c -> keeps_entry k w0 a c.
Proof. unfold keeps_entry. auto. Qed.

Lemma unchanged_people_keeps_entry (k : string) (w0 : writer)
  (self self' : world) :
  unchanged people self self' -> keeps_entry k w0 self self'.
Proof. unfold unchanged, keeps_entry. now intros ->. Qed.

Lemma del_people_keeps_entry (k : string) (w0 : writer) (username : string) :
  k <> username ->
  respects (keeps_entry k w0) (TCPServerClient.del_people username).
Proof.
  intros N self r self'.
  unfold TCPServerClient.del_people, bind, get, lift_result.
  destruct (Dict.delitem username (people self)) as [d|e] eqn:E.
  - intros [= <- <-] H. cbn [set_people people].
    now rewrite (writer_of_delitem _ _ _ _ E N).
  - intros [= <- <-] H. exact H.
Qed.

Lemma new_connection_people (w : writer) (username : string)
  (self self' : world) (r : result unit) :
  TCPServerClient.new_connection w username self = (r, self') ->
  people self' = Dict.setitem username w (people self).
Proof.
  unfold TCPServerClient.new_connection, bind, modify, get, on_wire.
  cbn [set_people messages wire people].
  destruct (send_list_of_lists w (messages self) (wire self)) as [r1 net].
  intros [= <- <-]. reflexivity.
Qed.

(** The registry after the validation of a username: as it was, or with
    one more entry, for the connection of the session, under a username
    that was not registered. *)
Lemma validation_people (w : writer) (s s' : session)
  (r : result str_or_False) :
  TCPServerClient.server_get_username_validation w s = (r, s') ->
  people (snd s') = people (snd s)
  \/ exists u,
       Dict.contains u (people (snd s)) = false
       /\ people (snd s') = people (snd s) ++ [(u, w)].
Proof.
  destruct s as [rd self].
  unfold TCPServerClient.server_get_username_validation, bind.
  unfold on_reader at 1. cbn [fst snd].
  destruct (recv_str rd) as [[u|e] rd1]; [|intros [= <- <-]; now left].
  unfold on_world at 1, get. cbn [fst snd].
  destruct (Dict.contains u (people self)) eqn:C; cbn [negb].
  - destruct (on_world (on_wire (write w (Struct.pack_bool false)))
                (rd1, self)) as [r2 s2] eqn:W.
    pose proof (in_world_on_world _ _
                  (on_wire_unchanged people _ ltac:(reflexivity)) _ _ _ W)
      as U.
    destruct r2 as [[]|e]; intros [= <- <-]; left; exact U.
  - destruct (on_world (on_wire (write w (Struct.pack_bool true)))
                (rd1, self)) as [r2 s2] eqn:W.
    pose proof (in_world_on_world _ _
                  (on_wire_unchanged people _ ltac:(reflexivity)) _ _ _ W)
      as U.
    unfold in_world, unchanged in U. cbn [snd] in U.
    destruct r2 as [[]|e]; [|intros [= <- <-]; left; exact U].
    unfold on_world at 1.
    destruct (TCPServerClient.new_connection w u (snd s2)) as [r3 self3]
      eqn:N.
    apply new_connection_people in N. rewrite U in N.
    rewrite (setitem_new _ _ _ C) in N.
    destruct r3 as [[]|e]; intros [= <- <-]; right; exists u;
      (split; [exact C | exact N]).
Qed.

Lemma validation_keeps_entry (k : string) (w0 w : writer) :
  respects (in_world (keeps_entry k w0))
    (TCPServerClient.server_get_username_validation w).
Proof.
  intros s r s' E H. unfold in_world.
  destruct (validation_people w s s' r E) as [->|(u & _ & ->)];
    [exact H | now apply writer_of_app].
Qed.

Ltac entry_leaf N :=
  first
    [ apply in_world_on_reader; intros; apply keeps_entry_refl
    | apply in_world_on_world;
      first
        [ apply del_people_keeps_entry; exact N
        | apply (respects_weaken (unchanged people));
          [ apply unchanged_people_keeps_entry
          | first
              [ apply on_wire_unchanged; reflexivity
              | apply add_to_recent_messages_unchanged; reflexivity
              | apply last_message_unchanged
              | apply send_messages_to_all_unchanged; reflexivity
              | apply respects_get; apply unchanged_refl ] ] ] ].

Lemma message_part_keeps_entry (k : string) (w0 : writer)
  (username now : string) (w : writer) :
  k <> username ->
  respects (in_world (keeps_entry k w0)) (message_part now w username).
Proof.
  intros N. unfold message_part, TCPServerClient.server_receive_messages.
  walk ltac:(apply in_world_refl; apply keeps_entry_refl)
       ltac:(apply in_world_trans; apply keeps_entry_trans)
       ltac:(entry_leaf N).
Qed.

Lemma pass_keeps_entry (now : string) (w : writer) (v : str_or_False)
  (k : string) (w0 : writer) :
  (truthy v = true -> v <> Some k) ->
  respects (in_world (keeps_entry k w0)) (TCPServerClient.loop_body now w v).
Proof.
  intros Hv. apply pass_respects.
  - apply in_world_refl, keeps_entry_refl.
  - apply in_world_trans, keeps_entry_trans.
  - intros rd rd' self H. exact H.
  - intros _. apply validation_keeps_entry.
  - intros username -> T. apply message_part_keeps_entry.
    intros <-. now apply (Hv T).
Qed.

Lemma while_true_keeps_entry (k : string) (w0 w : writer) (fuel : nat)
  (clock : nat -> string) (pass : nat) (v : str_or_False) (s s' : session)
  (r : result unit) :
  (truthy v = true -> v <> Some k) ->
  writer_of k (people (snd s)) = Some w0 ->
  TCPServerClient.while_true fuel clock pass w v s = Some (r, s') ->
  writer_of k (people (snd s')) = Some w0.
Proof.
  revert pass v s. induction fuel as [|fuel IH]; intros pass v s Hv C;
    cbn [TCPServerClient.while_true]; [discriminate|].
  destruct (TCPServerClient.loop_body (clock pass) w v s) as [r1 s1] eqn:E.
  pose proof (pass_keeps_entry _ _ _ k w0 Hv _ _ _ E C) as C1.
  destruct (pass_keeps_others _ _ _ _ _ _ _ Hv (writer_of_contains _ _ _ C) E)
    as [_ H1].
  destruct r1 as [[v'|]|e].
  - apply IH; [|exact C1]. intros T. now apply (H1 v').
  - now intros [= <- <-].
  - now intros [= <- <-].
Qed.

(** X8. A registered username is never taken over. If the registry
    gives the connection [w0] for the username [k], it still does after
    any pass of a session whose username is not [k], however the pass
    ends, and after a whole run of the handler of another connection: a
    Register request enters a username only when it is not in the
    registry, so it never replaces the connection of an entry, and a
    session removes no entry but its own. *)
Theorem X8_registered_name_is_not_taken_over (clock : nat -> string)
  (now : string) (w : writer) (v : str_or_False) (k : string) (w0 : writer)
  (s : session) :
  writer_of k (people (snd s)) = Some w0 ->
  (truthy v = true -> v <> Some k) ->
  (forall r s',
      TCPServerClient.loop_body now w v s = (r, s') ->
      writer_of k (people (snd s')) = Some w0)
  /\ exists r s',
       TCPServerClient.server_handle_clients clock w s = Some (r, s')
       /\ writer_of k (people (snd s')) = Some w0.
Proof.
  intros C Hv. split.
  - intros r s' E. exact (pass_keeps_entry now w v k w0 Hv s r s' E C).
  - destruct (handler_inv clock w s) as (r & s1 & E & ->).
    assert (K : writer_of k (people (snd s1)) = Some w0).
    { exact (while_true_keeps_entry k w0 w _ _ _ None s s1 r
               ltac:(discriminate) C E). }
    eexists. eexists. split; [reflexivity|]. now destruct r.
Qed.

Lemma X8_registered_name_witness :
  writer_of "alice" (people Scenario.alice_alone) = Some 0%nat
  /\ (truthy None = true -> None <> Some "alice"%string)
  /\ (forall r s',
        TCPServerClient.loop_body "12:00:00" 1 None
          (Scenario.registers "alice", Scenario.alice_alone) = (r, s') ->
        writer_of "alice" (people (snd s')) = Some 0%nat)
  /\ exists r s',
       TCPServerClient.server_handle_clients Scenario.noon 1
         (Scenario.registers "alice", Scenario.alice_alone) = Some (r, s')
       /\ writer_of "alice" (people (snd s')) = Some 0%nat.
Proof.
  assert (N : truthy None = true -> None <> Some "alice"%string)
    by (intros _; discriminate).
  split; [reflexivity|]. split; [exact N|].
  exact (X8_registered_name_is_not_taken_over Scenario.noon "12:00:00" 1
           None "alice" 0%nat
           (Scenario.registers "alice", Scenario.alice_alone) eq_refl N).
Defined.

(** *** Who is written to *)

Lemma only_writes_to_refl (w : writer) (net : transport) :
  only_writes_to w net net.
Proof. intros w' _. reflexivity. Qed.

Lemma only_writes_to_trans (w : writer) (a b c : transport) :
  only_writes_to w a b -> only_writes_to w b c -> only_writes_to w a c.
Proof. intros H1 H2 w' N. now rewrite (H2 w' N), (H1 w' N). Qed.

Lemma write_only_to (w : writer) (data : bytes) :
  respects (only_writes_to w) (write w data).
Proof.
  intros net r net' [= <- <-] w' N. rewrite sent_to_app. cbn [sent_to].
  apply not_eq_sym, Nat.eqb_neq in N. rewrite N. apply app_nil_r.
Qed.

Ltac wire_leaf w :=
  first
    [ apply write_only_to
    | apply respects_lift_result; apply only_writes_to_refl ].

Ltac walk_wire w :=
  walk ltac:(apply only_writes_to_refl) ltac:(apply only_writes_to_trans)
       ltac:(wire_leaf w).

Lemma send_str_only_to (w : writer) (s : string) :
  respects (only_writes_to w) (send_str w s).
Proof. unfold send_str. walk_wire w. Qed.

Lemma send_str_list_only_to (w : writer) (l : list string) :
  respects (only_writes_to w) (send_str_list w l).
Proof.
  unfold send_str_list. walk_wire w.
  apply respects_for_each;
    [apply only_writes_to_refl | apply only_writes_to_trans |].
  intros s. apply send_str_only_to.
Qed.

Lemma send_list_of_lists_only_to (w : writer) (ll : list (list string)) :
  respects (only_writes_to w) (send_list_of_lists w ll).
Proof.
  unfold send_list_of_lists. walk_wire w.
  apply respects_for_each;
    [apply only_writes_to_refl | apply only_writes_to_trans |].
  intros l. apply send_str_list_only_to.
Qed.

Lemma silent_refl (w : writer) (self : world) : silent_for_others w self self.
Proof. apply only_writes_to_refl. Qed.

Lemma silent_trans (w : writer) (a b c : world) :
  silent_for_others w a b -> silent_for_others w b c ->
  silent_for_others w a c.
Proof. apply only_writes_to_trans. Qed.

Lemma on_wire_silent {A} (w : writer) (m : M transport A) :
  respects (only_writes_to w) m ->
  respects (silent_for_others w) (on_wire m).
Proof.
  intros H self r self'. unfold on_wire.
  destruct (m (wire self)) as [r1 net] eqn:E. intros [= <- <-].
  unfold silent_for_others. cbn [set_wire wire]. exact (H _ _ _ E).
Qed.

Lemma new_connection_silent (w : writer) (username : string) :
  respects (silent_for_others w)
    (TCPServerClient.new_connection w username).
Proof.
  unfold TCPServerClient.new_connection.
  apply respects_bind; [apply silent_trans | |].
  - intros self r self' [= <- <-]. unfold silent_for_others.
    cbn [set_people wire]. apply only_writes_to_refl.
  - intros _. apply respects_bind;
      [apply silent_trans | apply respects_get, silent_refl |].
    intros self. apply on_wire_silent, send_list_of_lists_only_to.
Qed.

Lemma validation_silent (w : writer) :
  respects (in_world (silent_for_others w))
    (TCPServerClient.server_get_username_validation w).
Proof.
  unfold TCPServerClient.server_get_username_validation.
  walk ltac:(apply in_world_refl; apply silent_refl)
       ltac:(apply in_world_trans; apply silent_trans)
       ltac:(first
               [ apply in_world_on_reader; intros; apply silent_refl
               | apply in_world_on_world;
                 first [ apply on_wire_silent; apply write_only_to
                       | apply new_connection_silent
                       | apply respects_get; apply silent_refl ] ]).
Qed.

(** X15. Until it is registered, a session writes to no connection but
    its own: whatever a pass of a session without a username does
    (verdict, snapshot of the history, failure on the way), the byte
    stream of every other writer is as it was before the pass. *)
Theorem X15_unregistered_session_writes_to_itself (now : string)
  (w w' : writer) (v : str_or_False) (s s' : session) (r : result flow) :
  truthy v = false -> w' <> w ->
  TCPServerClient.loop_body now w v s = (r, s') ->
  sent_to w' (wire (snd s')) = sent_to w' (wire (snd s)).
Proof.
  intros T N E.
  assert (H : respects (in_world (silent_for_others w))
                (TCPServerClient.loop_body now w v)).
  { apply pass_respects.
    - apply in_world_refl, silent_refl.
    - apply in_world_trans, silent_trans.
    - intros rd rd' self. apply silent_refl.
    - intros _. apply validation_silent.
    - intros username _ T'. congruence. }
  exact (H s r s' E w' N).
Qed.

Lemma X15_unregistered_session_witness :
  truthy None = false /\ 0%nat <> 1%nat
  /\ sent_to 0
       (wire (snd (snd (TCPServerClient.loop_body "12:00:00" 1 None
                          (Scenario.registers "bob",
                           Scenario.alice_joined)))))
     = sent_to 0 (wire Scenario.alice_joined).
Proof.
  split; [reflexivity|]. split; [discriminate|].
  exact (X15_unregistered_session_writes_to_itself "12:00:00" 1 0 None
           (Scenario.registers "bob", Scenario.alice_joined) _ _
           eq_refl ltac:(discriminate)
           (surjective_pairing
              (TCPServerClient.loop_body "12:00:00" 1 None
                 (Scenario.registers "bob", Scenario.alice_joined)))).
Defined.

(** * A whole client session, end to end *)

Lemma input_loop_run (w : writer) (lines : list string) (net : transport) :
  forallb Wire.str_fits lines = true ->
  exists net',
    TCPServerClient.input_loop w lines net = (Ok tt, net ++ net')
    /\ sent_to w net' = message_stream lines.
Proof.
  intros F. unfold TCPServerClient.input_loop, bind at 1.
  assert (H : exists net1,
             for_each lines
               (fun data =>
                  opcode <- lift_result (Struct.pack_i 2) ;;
                  write w opcode ;; send_str w data) net
             = (Ok tt, net ++ net1)
             /\ sent_to w net1 = concat (map (request 2) lines)).
  { revert net. induction lines as [|l ls IH]; intros net.
    - exists []. cbn [for_each map concat sent_to]. unfold ret.
      now rewrite app_nil_r.
    - cbn [forallb] in F. apply andb_true_iff in F as [F1 F2].
      cbn [for_each]. unfold bind at 1.
      assert (E : (opcode <- lift_result (Struct.pack_i 2) ;;
                   write w opcode ;; send_str w l) net
                  = (Ok tt, net ++ [(w, Wire.int32 2); (w, Wire.str l)])).
      { unfold bind, lift_result, write, modify. cbn [Struct.pack_i].
        replace (Struct.pack_i 2) with (Ok (Wire.int32 2)) by reflexivity.
        rewrite (send_str_run _ _ _ F1), <- app_assoc. reflexivity. }
      rewrite E. destruct (IH F2 (net ++ [(w, Wire.int32 2); (w, Wire.str l)]))
        as (net1 & E1 & S1).
      exists ([(w, Wire.int32 2); (w, Wire.str l)] ++ net1).
      rewrite E1, <- app_assoc. split; [reflexivity|].
      rewrite sent_to_app, S1. cbn [sent_to map concat].
      rewrite Nat.eqb_refl. unfold request.
      now rewrite app_nil_r, <- app_assoc. }
  destruct H as (net1 & E1 & S1). rewrite E1.
  exists (net1 ++ [(w, Wire.int32 2)]).
  unfold bind, lift_result, write, modify.
  replace (Struct.pack_i 2) with (Ok (Wire.int32 2)) by reflexivity.
  rewrite <- app_assoc. split; [reflexivity|].
  rewrite sent_to_app, S1. cbn [sent_to]. rewrite Nat.eqb_refl.
  unfold message_stream. now rewrite app_nil_r.
Qed.

Lemma write_to_server_run (w : writer) (username : string)
  (lines : list string) :
  Wire.str_fits username = true -> forallb Wire.str_fits lines = true ->
  exists net,
    TCPServerClient.write_to_server w username lines [] = (Ok tt, net)
    /\ sent_to w net = client_stream username lines.
Proof.
  intros Fu Fl. unfold TCPServerClient.write_to_server, bind at 1.
  assert (E : TCPServerClient.client_send_username w username []
              = (Ok tt, [(w, Wire.int32 1); (w, Wire.str username)])).
  { unfold TCPServerClient.client_send_username, bind, lift_result, write,
      modify.
    replace (Struct.pack_i 1) with (Ok (Wire.int32 1)) by reflexivity.
    now rewrite (send_str_run _ _ _ Fu). }
  rewrite E.
  destruct (input_loop_run w lines [(w, Wire.int32 1); (w, Wire.str username)]
              Fl) as (net' & E' & S').
  eexists. split; [exact E'|].
  rewrite sent_to_app, S'. cbn [sent_to]. rewrite Nat.eqb_refl.
  unfold client_stream, request. now rewrite app_nil_r, <- app_assoc.
Qed.

Lemma history_from_cons (h : list (list string)) (m : list string)
  (msgs : list (list string)) :
  history_from h (m :: msgs)
  = history_from
      ((if Nat.eqb (length h) 10 then tl h else h) ++ [m]) msgs.
Proof. reflexivity. Qed.

Lemma triple_fits (a b c : string) :
  Wire.str_fits a = true -> Wire.str_fits b = true ->
  Wire.str_fits c = true -> Wire.str_list_fits [a; b; c] = true.
Proof.
  intros Ha Hb Hc. unfold Wire.str_list_fits. cbn [forallb].
  now rewrite Ha, Hb, Hc.
Qed.

Lemma message_stream_cons (l : string) (ls : list string) :
  message_stream (l :: ls)
  = Wire.int32 2 ++ Wire.str l ++ message_stream ls.
Proof.
  unfold message_stream, request. cbn [map concat].
  now rewrite <- !app_assoc.
Qed.

(** The passes of a registered session over the requests of its client,
    up to the end of the stream. *)
Lemma registered_phase (clock : nat -> string) (w : writer)
  (username : string) (d : Dict.t writer) (lines : list string) :
  truthy (Some username) = true ->
  Wire.str_fits username = true ->
  (forall k, Wire.str_fits (clock k) = true) ->
  Forall is_str lines -> forallb Wire.str_fits lines = true ->
  forall pass fuel self,
    (length lines < fuel)%nat ->
    Dict.delitem username (people self) = Ok d ->
    TCPServerClient.while_true fuel clock pass w (Some username)
      (@pair reader world (message_stream lines) self)
    = Some (Ok tt,
            ([], mkWorld
                   (history_from (messages self)
                      (posts clock pass username lines))
                   d
                   (wire self
                      ++ broadcasts (Dict.values (people self))
                           (posts clock pass username lines))
                   (closed self))).
Proof.
  intros T Fu Fc. induction lines as [|l ls IH];
    intros Hs Fl pass fuel self L D;
    (destruct fuel as [|fuel]; [cbn [length] in L; lia|]);
    cbn [TCPServerClient.while_true].
  - assert (R1 : recv_single_value Struct.fmt_i (message_stream [])
                 = (Ok 2, [])) by reflexivity.
    assert (R2 : recv_str [] = (Raise StructError, [])) by reflexivity.
    rewrite (loop_body_send_failure _ w username _ _ _ _ self T R1 R2), D.
    cbn [posts broadcasts flat_map]. now rewrite app_nil_r.
  - pose proof (Forall_inv Hs) as Hs1. pose proof (Forall_inv_tail Hs) as Hs2.
    cbn [forallb] in Fl. apply andb_true_iff in Fl as [Fl1 Fl2].
    assert (R1 : recv_single_value Struct.fmt_i (message_stream (l :: ls))
                 = (Ok 2, Wire.str l ++ message_stream ls)).
    { rewrite message_stream_cons. apply recv_int32.
      change (2 ^ 31) with 2147483648. lia. }
    pose proof (recv_str_frame l (message_stream ls) Hs1 Fl1) as R2.
    pose proof (loop_body_send (clock pass) w username l _ _ _ self T R1 R2
                  (triple_fits _ _ _ (Fc pass) Fu Fl1)) as E.
    rewrite E.
    match goal with
    | |- TCPServerClient.while_true _ _ _ _ _ (_, ?self1) = _ =>
        rewrite (IH Hs2 Fl2 (S pass) fuel self1
                   ltac:(cbn [length] in L; lia) D)
    end.
    cbn [messages people wire closed posts broadcasts flat_map].
    rewrite history_from_cons, <- app_assoc. reflexivity.
Qed.

Lemma delitem_last {V} (k : string) (v : V) (d : Dict.t V) :
  Dict.contains k d = false -> Dict.delitem k (d ++ [(k, v)]) = Ok d.
Proof.
  induction d as [|[k' v'] d IH]; cbn [Dict.contains Dict.delitem app].
  - intros _. now rewrite String.eqb_refl.
  - intros H. apply orb_false_iff in H as [H1 H2].
    now rewrite H1, (IH H2).
Qed.

Lemma sent_to_broadcasts (ws : list writer) (msgs : list (list string))
  (w : writer) :
  sent_to w (broadcasts ws msgs)
  = concat
      (map (fun m =>
              concat (repeat (Wire.str_list m) (count_occ Nat.eq_dec ws w)))
         msgs).
Proof.
  induction msgs as [|m msgs IH]; cbn [broadcasts flat_map map concat];
    [reflexivity|].
  rewrite sent_to_app, sent_to_broadcast. fold (broadcasts ws msgs).
  now rewrite IH.
Qed.

Lemma message_stream_longer (lines : list string) :
  (length lines < length (message_stream lines))%nat.
Proof.
  assert (H : length (Wire.int32 2) = 4%nat) by reflexivity.
  induction lines as [|l ls IH].
  - unfold message_stream. cbn [map concat app length]. lia.
  - rewrite message_stream_cons, !length_app. cbn [length]. lia.
Qed.

(** The run of the handler on the whole stream of one client. *)
Lemma client_session_run (clock : nat -> string) (w : writer)
  (username : string) (lines : list string) (self : world) :
  is_str username -> truthy (Some username) = true ->
  Wire.str_fits username = true ->
  Forall is_str lines -> forallb Wire.str_fits lines = true ->
  (forall k, Wire.str_fits (clock k) = true) ->
  Dict.contains username (people self) = false ->
  Wire.list_of_lists_fits (messages self) = true ->
  exists net self',
    TCPServerClient.write_to_server 0 username lines [] = (Ok tt, net)
    /\ sent_to 0 net = client_stream username lines
    /\ TCPServerClient.server_handle_clients clock w (sent_to 0 net, self)
       = Some (Ok tt, ([], self'))
    /\ messages self'
       = history_from (messages self) (posts clock 1 username lines)
    /\ people self' = people self
    /\ closed self' = closed self ++ [w]
    /\ forall w0,
         sent_to w0 (wire self')
         = sent_to w0 (wire self)
             ++ (if Nat.eqb w w0
                 then Struct.pack_bool true
                        ++ Wire.list_of_lists (messages self)
                 else [])
             ++ concat
                  (map (fun m =>
                          concat
                            (repeat (Wire.str_list m)
                               (count_occ Nat.eq_dec
                                  (Dict.values
                                     (people self ++ [(username, w)]))
                                  w0)))
                     (posts clock 1 username lines)).
Proof.
  intros Hu T Fu Hl Fl Fc C F.
  destruct (write_to_server_run 0 username lines Fu Fl) as (net & E & S).
  exists net. rewrite S.
  assert (R1 : recv_single_value Struct.fmt_i (client_stream username lines)
               = (Ok 1, Wire.str username ++ message_stream lines)).
  { unfold client_stream, request. rewrite <- app_assoc. apply recv_int32.
    change (2 ^ 31) with 2147483648. lia. }
  pose proof (recv_str_frame username (message_stream lines) Hu Fu) as R2.
  pose proof (loop_body_register_accepted (clock 0%nat) w None username
                _ _ _ self eq_refl R1 R2 C F) as P.
  rewrite T in P.
  pose proof (registered_phase clock w username (people self) lines T Fu Fc
                Hl Fl 1%nat (length (client_stream username lines))
                (mkWorld (messages self) (people self ++ [(username, w)])
                   (wire self ++ (w, Wire.flag true)
                      :: Wire.list_of_lists_writes w (messages self))
                   (closed self))) as Q.
  cbn [messages people wire closed] in Q.
  specialize (Q ltac:(unfold client_stream; rewrite length_app;
                      pose proof (message_stream_longer lines); lia)
                (delitem_last username w (people self) C)).
  eexists. split; [exact E|]. split; [reflexivity|]. split.
  { unfold TCPServerClient.server_handle_clients.
    change (fst (client_stream username lines, self))
      with (client_stream username lines).
    cbn [TCPServerClient.while_true].
    change (@pair bytes world) with (@pair reader world).
    rewrite P, Q. reflexivity. }
  cbn [messages people wire closed close].
  split; [reflexivity|]. split; [reflexivity|]. split; [reflexivity|].
  intros w0. rewrite !sent_to_app, sent_to_broadcasts. cbn [sent_to].
  rewrite sent_to_list_of_lists_writes.
  destruct (Nat.eqb w w0); now rewrite <- !app_assoc.
Qed.

(** X16. A whole session of the client against the server. The client
    entering the username [username] and then the [lines] writes
    Int32(1), String(username), then Int32(2), String(line) for each
    line, and a last Int32(2). On this stream, [username] being free and
    not empty, the handler registers the session, appends one triple per
    line to the history in the order of the lines, sends each triple once
    per entry of the registry (the new one included) after the verdict
    and the snapshot, and at the end of the stream takes [username] out of
    the registry again and closes the connection. *)
Theorem X16_client_session (clock : nat -> string) (w : writer)
  (username : string) (lines : list string) (self : world) :
  is_str username -> truthy (Some username) = true ->
  Wire.str_fits username = true ->
  Forall is_str lines -> forallb Wire.str_fits lines = true ->
  (forall k, Wire.str_fits (clock k) = true) ->
  Dict.contains username (people self) = false ->
  Wire.list_of_lists_fits (messages self) = true ->
  exists net self',
    TCPServerClient.write_to_server 0 username lines [] = (Ok tt, net)
    /\ sent_to 0 net = client_stream username lines
    /\ TCPServerClient.server_handle_clients clock w (sent_to 0 net, self)
       = Some (Ok tt, ([], self'))
    /\ messages self'
       = history_from (messages self) (posts clock 1 username lines)
    /\ people self' = people self
    /\ closed self' = closed self ++ [w]
    /\ forall w0,
         sent_to w0 (wire self')
         = sent_to w0 (wire self)
             ++ (if Nat.eqb w w0
                 then Struct.pack_bool true
                        ++ Wire.list_of_lists (messages self)
                 else [])
             ++ concat
                  (map (fun m =>
                          concat
                            (repeat (Wire.str_list m)
                               (count_occ Nat.eq_dec
                                  (Dict.values
                                     (people self ++ [(username, w)]))
                                  w0)))
                     (posts clock 1 username lines)).
Proof. apply client_session_run. Qed.

Lemma X16_client_session_witness :
  exists net self',
    TCPServerClient.write_to_server 0 "bob" ["hi"; ""]%string []
    = (Ok tt, net)
    /\ sent_to 0 net = client_stream "bob" ["hi"; ""]%string
    /\ TCPServerClient.server_handle_clients Scenario.noon 1
         (sent_to 0 net, Scenario.alice_joined)
       = Some (Ok tt, ([], self'))
    /\ messages self'
       = history_from (messages Scenario.alice_joined)
           (posts Scenario.noon 1 "bob" ["hi"; ""]%string)
    /\ people self' = people Scenario.alice_joined
    /\ closed self' = closed Scenario.alice_joined ++ [1%nat]
    /\ forall w0,
         sent_to w0 (wire self')
         = sent_to w0 (wire Scenario.alice_joined)
             ++ (if Nat.eqb 1 w0
                 then Struct.pack_bool true
                        ++ Wire.list_of_lists (messages Scenario.alice_joined)
                 else [])
             ++ concat
                  (map (fun m =>
                          concat
                            (repeat (Wire.str_list m)
                               (count_occ Nat.eq_dec
                                  (Dict.values
                                     (people Scenario.alice_joined
                                        ++ [("bob"%string, 1%nat)]))
                                  w0)))
                     (posts Scenario.noon 1 "bob" ["hi"; ""]%string)).
Proof.
  exact (X16_client_session Scenario.noon 1 "bob" ["hi"; ""]%string
           Scenario.alice_joined eq_refl eq_refl eq_refl
           ltac:(repeat constructor) eq_refl (fun k => eq_refl)
           eq_refl eq_refl).
Defined.

(** * The reader flow of the client *)

Lemma print_each (ll : list (list string)) (rd : reader)
  (out : list string) :
  for_each ll (fun message =>
                 ClientSide.print (ClientSide.join " " message)) (rd, out)
  = (Ok tt, (rd, out ++ map (ClientSide.join " ") ll)).
Proof.
  revert out. induction ll as [|l ll IH]; intros out; cbn [for_each map].
  - unfold ret. now rewrite app_nil_r.
  - unfold bind, ClientSide.print, modify. cbn [fst snd].
    now rewrite IH, <- app_assoc.
Qed.

Lemma get_recent_run (hist : list (list string)) (rest : reader)
  (out : list string) :
  Forall (Forall is_str) hist -> Wire.list_of_lists_fits hist = true ->
  ClientSide.client_get_recent_messages
    (@pair reader (list string) (Wire.list_of_lists hist ++ rest) out)
  = (Ok tt, (rest, out ++ map (ClientSide.join " ") hist)).
Proof.
  intros Hs Hf. unfold ClientSide.client_get_recent_messages, bind.
  unfold ClientSide.on_input. cbn [fst snd].
  rewrite (recv_list_of_lists_frame _ _ Hs Hf). apply print_each.
Qed.

Lemma loop_pass_run (m : list string) (rest : reader) (out : list string) :
  Forall is_str m -> Wire.str_list_fits m = true ->
  ClientSide.loop_pass
    (@pair reader (list string) (Wire.str_list m ++ rest) out)
  = (Ok tt, (rest, out ++ [ClientSide.join " " m])).
Proof.
  intros Hs Hf. unfold ClientSide.loop_pass, bind, ClientSide.on_input.
  cbn [fst snd]. now rewrite (recv_str_list_frame _ _ Hs Hf).
Qed.

Lemma while_valid_run (msgs : list (list string)) :
  Forall (Forall is_str) msgs -> forallb Wire.str_list_fits msgs = true ->
  forall fuel out,
    (length msgs < fuel)%nat ->
    ClientSide.while_valid fuel
      (@pair reader (list string) (concat (map Wire.str_list msgs)) out)
    = Some (Raise StructError,
            ([], out ++ map (ClientSide.join " ") msgs)).
Proof.
  induction msgs as [|m msgs IH]; intros Hs Hf fuel out L;
    (destruct fuel as [|fuel]; [cbn [length] in L; lia|]);
    cbn [ClientSide.while_valid map concat].
  - now rewrite app_nil_r.
  - pose proof (Forall_inv Hs) as Hs1. pose proof (Forall_inv_tail Hs) as Hs2.
    cbn [forallb] in Hf. apply andb_true_iff in Hf as [Hf1 Hf2].
    rewrite (loop_pass_run m _ out Hs1 Hf1).
    rewrite (IH Hs2 Hf2 fuel _ ltac:(cbn [length] in L; lia)).
    now rewrite <- app_assoc.
Qed.

Lemma frames_longer (msgs : list (list string)) :
  (length msgs <= length (concat (map Wire.str_list msgs)))%nat.
Proof.
  induction msgs as [|m msgs IH]; cbn [map concat length]; [lia|].
  rewrite length_app. unfold Wire.str_list at 1. rewrite length_app.
  assert (H : length (Wire.int32 (len m)) = 4%nat) by reflexivity. lia.
Qed.

(** What the client prints of a stream made of the verdict true, a
    snapshot and messages. *)
Lemma reader_flow_run (hist msgs : list (list string)) (out : list string) :
  Forall (Forall is_str) hist -> Wire.list_of_lists_fits hist = true ->
  Forall (Forall is_str) msgs -> forallb Wire.str_list_fits msgs = true ->
  ClientSide.read_from_server
    (@pair reader (list string)
       (Struct.pack_bool true ++ Wire.list_of_lists hist
          ++ concat (map Wire.str_list msgs)) out)
  = Some (Raise StructError,
          ([], out ++ map (ClientSide.join " ") hist
                 ++ map (ClientSide.join " ") msgs)).
Proof.
  intros Hh Fh Hm Fm. unfold ClientSide.read_from_server.
  assert (E : ClientSide.read_verdict
                (@pair reader (list string)
                   (Struct.pack_bool true ++ Wire.list_of_lists hist
                      ++ concat (map Wire.str_list msgs)) out)
              = (Ok true,
                 (concat (map Wire.str_list msgs),
                  out ++ map (ClientSide.join " ") hist))).
  { unfold ClientSide.read_verdict, bind at 1.
    unfold ClientSide.on_input at 1. cbn [fst snd]. rewrite recv_flag.
    unfold bind. now rewrite (get_recent_run _ _ _ Hh Fh). }
  rewrite E. cbn [fst].
  rewrite (while_valid_run msgs Hm Fm
             (S (length (concat (map Wire.str_list msgs)))) _
             ltac:(pose proof (frames_longer msgs); lia)).
  now rewrite <- app_assoc.
Qed.

(** X17. The reader flow of the client shows what the server sends: on
    the verdict true followed by a snapshot of the history and then by
    messages, it prints each entry of the snapshot and then each message,
    in order, as its strings joined by single spaces, and stops with
    [struct.error] when the stream ends. On the verdict false it prints
    nothing and reads nothing more. *)
Theorem X17_reader_flow_prints (hist msgs : list (list string))
  (rest : reader) (out : list string) :
  Forall (Forall is_str) hist -> Wire.list_of_lists_fits hist = true ->
  Forall (Forall is_str) msgs -> forallb Wire.str_list_fits msgs = true ->
  ClientSide.read_from_server
    (@pair reader (list string)
       (Struct.pack_bool true ++ Wire.list_of_lists hist
          ++ concat (map Wire.str_list msgs)) out)
  = Some (Raise StructError,
          ([], out ++ map (ClientSide.join " ") hist
                 ++ map (ClientSide.join " ") msgs))
  /\ ClientSide.read_from_server
       (@pair reader (list string) (Struct.pack_bool false ++ rest) out)
     = Some (Ok tt, (rest, out)).
Proof.
  intros Hh Fh Hm Fm. split; [now apply reader_flow_run | reflexivity].
Qed.

Lemma X17_reader_flow_prints_witness :
  ClientSide.read_from_server
    (@pair reader (list string)
       (Struct.pack_bool true
          ++ Wire.list_of_lists [["12:00:00"; "alice"; "hi"]]%string
          ++ concat (map Wire.str_list [["12:00:01"; "bob"; ""]]%string))
       [])
  = Some (Raise StructError,
          ([], ["12:00:00 alice hi"; "12:00:01 bob "]%string))
  /\ ClientSide.read_from_server
       (@pair reader (list string) (Struct.pack_bool false ++ [x07]) [])
     = Some (Ok tt, ([x07], [])).
Proof.
  exact (X17_reader_flow_prints [["12:00:00"; "alice"; "hi"]]%string
           [["12:00:01"; "bob"; ""]]%string [x07] []
           ltac:(repeat constructor) eq_refl
           ltac:(repeat constructor) eq_refl).
Defined.

Lemma recv_str_list_takes_four (rd rd' : reader) (l : list string) :
  recv_str_list rd = (Ok l, rd') -> (4 + length rd' <= length rd)%nat.
Proof.
  unfold recv_str_list. intros H.
  apply bind_ok_inv in H as (n & rd1 & H1 & H2).
  apply recv_opcode_takes_four in H1.
  pose proof (respects_for_range no_longer no_longer_refl no_longer_trans
                (Z.to_nat n) recv_str recv_str_no_longer _ _ _ H2) as L.
  unfold no_longer in L. lia.
Qed.

Lemma loop_pass_takes_four (c c' : ClientSide.client) :
  ClientSide.loop_pass c = (Ok tt, c') ->
  (4 + length (fst c') <= length (fst c))%nat.
Proof.
  unfold ClientSide.loop_pass. intros H.
  apply bind_ok_inv in H as (m & c1 & H1 & H2).
  unfold ClientSide.on_input in H1.
  destruct (recv_str_list (fst c)) as [r rd1] eqn:E.
  injection H1 as -> <-. apply recv_str_list_takes_four in E.
  unfold ClientSide.print, modify in H2. injection H2 as <-.
  exact E.
Qed.

Lemma while_valid_ends (fuel : nat) (c : ClientSide.client) :
  (length (fst c) < fuel)%nat ->
  exists e c', ClientSide.while_valid fuel c = Some (Raise e, c').
Proof.
  revert c. induction fuel as [|fuel IH]; intros c L; [lia|].
  cbn [ClientSide.while_valid].
  destruct (ClientSide.loop_pass c) as [[[]|e] c1] eqn:E.
  - apply loop_pass_takes_four in E. apply IH. lia.
  - now exists e, c1.
Qed.

(** X18. The reader flow of the client always comes to an end on a stream
    that ends, and it returns normally only when the verdict was false:
    once a username has been accepted the loop of [read_from_server] is
    left by an exception and in no other way. *)
Theorem X18_reader_flow_ends (c : ClientSide.client) :
  exists r c',
    ClientSide.read_from_server c = Some (r, c')
    /\ (r = Ok tt -> ClientSide.read_verdict c = (Ok false, c')).
Proof.
  unfold ClientSide.read_from_server.
  destruct (ClientSide.read_verdict c) as [[[|]|e] c1].
  - destruct (while_valid_ends (S (length (fst c1))) c1) as (e & c' & E);
      [lia|].
    rewrite E. exists (Raise e), c'. split; [reflexivity | discriminate].
  - exists (Ok tt), c1. split; reflexivity.
  - exists (Raise e), c1. split; [reflexivity | discriminate].
Qed.

(** * Writer flow, server and reader flow together *)

Lemma posts_are_strs (clock : nat -> string) (username : string)
  (lines : list string) :
  (forall k, is_str (clock k)) -> is_str username -> Forall is_str lines ->
  forall pass, Forall (Forall is_str) (posts clock pass username lines).
Proof.
  intros Hc Hu Hl. induction Hl as [|l ls H1 H2 IH]; intros pass;
    cbn [posts]; [constructor|].
  constructor; [|apply IH]. repeat constructor; auto.
Qed.

Lemma posts_fit (clock : nat -> string) (username : string)
  (lines : list string) :
  (forall k, Wire.str_fits (clock k) = true) ->
  Wire.str_fits username = true -> forallb Wire.str_fits lines = true ->
  forall pass,
    forallb Wire.str_list_fits (posts clock pass username lines) = true.
Proof.
  intros Fc Fu. induction lines as [|l ls IH]; intros Fl pass;
    cbn [posts forallb]; [reflexivity|].
  cbn [forallb] in Fl. apply andb_true_iff in Fl as [F1 F2].
  now rewrite (triple_fits _ _ _ (Fc pass) Fu F1), (IH F2).
Qed.

Lemma one_copy_each (msgs : list (list string)) :
  concat (map (fun m => concat (repeat (Wire.str_list m) 1)) msgs)
  = concat (map Wire.str_list msgs).
Proof.
  induction msgs as [|m msgs IH]; cbn [map]; [reflexivity|].
  change (concat (?x :: ?l)) with (x ++ concat l). rewrite IH.
  cbn [repeat concat]. now rewrite app_nil_r.
Qed.

Lemma count_new_entry (d : Dict.t writer) (username : string) (w : writer) :
  count_occ Nat.eq_dec (Dict.values d) w = 0%nat ->
  count_occ Nat.eq_dec (Dict.values (d ++ [(username, w)])) w = 1%nat.
Proof.
  induction d as [|[k v] d IH]; cbn [app Dict.values map snd count_occ].
  - intros _. destruct (Nat.eq_dec w w) as [_|Q]; [reflexivity | now elim Q].
  - destruct (Nat.eq_dec v w); [discriminate | exact IH].
Qed.

(** X19. Writer flow, server and reader flow together. A client on a
    connection that is not in the registry yet enters a free, non-empty
    username and then some lines. What the server writes back on the
    connection during the session makes the reader flow of that client
    print the history as it was when the client joined and then the
    client's own lines, in order, each as "time username line". *)
Theorem X19_client_sees_history_and_own_lines (clock : nat -> string)
  (w : writer) (username : string) (lines : list string) (self : world) :
  is_str username -> truthy (Some username) = true ->
  Wire.str_fits username = true ->
  Forall is_str lines -> forallb Wire.str_fits lines = true ->
  (forall k, is_str (clock k)) ->
  (forall k, Wire.str_fits (clock k) = true) ->
  Dict.contains username (people self) = false ->
  count_occ Nat.eq_dec (Dict.values (people self)) w = 0%nat ->
  Forall (Forall is_str) (messages self) ->
  Wire.list_of_lists_fits (messages self) = true ->
  exists net self' received,
    TCPServerClient.write_to_server 0 username lines [] = (Ok tt, net)
    /\ TCPServerClient.server_handle_clients clock w (sent_to 0 net, self)
       = Some (Ok tt, ([], self'))
    /\ sent_to w (wire self') = sent_to w (wire self) ++ received
    /\ ClientSide.read_from_server
         (@pair reader (list string) received [])
       = Some (Raise StructError,
               ([], map (ClientSide.join " ") (messages self)
                      ++ map (ClientSide.join " ")
                           (posts clock 1 username lines))).
Proof.
  intros Hu T Fu Hl Fl Hc Fc C N Hm Fm.
  destruct (client_session_run clock w username lines self
              Hu T Fu Hl Fl Fc C Fm)
    as (net & self' & E1 & _ & E2 & _ & _ & _ & S).
  exists net, self',
    (Struct.pack_bool true ++ Wire.list_of_lists (messages self)
       ++ concat (map Wire.str_list (posts clock 1 username lines))).
  split; [exact E1|]. split; [exact E2|]. split.
  - rewrite (S w), Nat.eqb_refl, (count_new_entry _ username w N).
    now rewrite one_copy_each, <- app_assoc.
  - apply (reader_flow_run (messages self) _ [] Hm Fm).
    + now apply posts_are_strs.
    + now apply posts_fit.
Qed.

Lemma X19_client_sees_witness :
  exists net self' received,
    TCPServerClient.write_to_server 0 "bob" ["hi"; ""]%string []
    = (Ok tt, net)
    /\ TCPServerClient.server_handle_clients Scenario.noon 1
         (sent_to 0 net,
          mkWorld [["11:59:59"; "alice"; "hello"]]%string
            [("alice"%string, 0%nat)] [] [])
       = Some (Ok tt, ([], self'))
    /\ sent_to 1 (wire self') = sent_to 1 [] ++ received
    /\ ClientSide.read_from_server
         (@pair reader (list string) received [])
       = Some (Raise StructError,
               ([], map (ClientSide.join " ")
                      [["11:59:59"; "alice"; "hello"]]%string
                      ++ map (ClientSide.join " ")
                           (posts Scenario.noon 1 "bob" ["hi"; ""]%string))).
Proof.
  exact (X19_client_sees_history_and_own_lines Scenario.noon 1 "bob"
           ["hi"; ""]%string
           (mkWorld [["11:59:59"; "alice"; "hello"]]%string
              [("alice"%string, 0%nat)] [] [])
           eq_refl eq_refl eq_refl ltac:(repeat constructor) eq_refl
           (fun k => eq_refl) (fun k => eq_refl) eq_refl eq_refl
           ltac:(repeat constructor) eq_refl).
Defined.

(** * The peer-to-peer chat over UDP *)

Lemma replay_run (addr : ChatProtocol.address) (l : list string)
  (self : ChatProtocol.peer) :
  for_each l (fun message => ChatProtocol.sendto ("2" ++ message) addr) self
  = (Ok tt,
     ChatProtocol.mkPeer (ChatProtocol.messages self)
       (ChatProtocol.username self)
       (ChatProtocol.sent self
          ++ map (fun m => (encode ("2" ++ m), addr)) l)
       (ChatProtocol.closed self) (ChatProtocol.printed self)).
Proof.
  revert self. induction l as [|m l IH]; intros self; cbn [for_each map].
  - unfold ret. rewrite app_nil_r. now destruct self.
  - unfold bind, ChatProtocol.sendto, modify. rewrite IH.
    cbn [ChatProtocol.messages ChatProtocol.username ChatProtocol.sent
         ChatProtocol.closed ChatProtocol.printed].
    now rewrite <- app_assoc.
Qed.

(** [datagram_received] in one piece: it raises on bytes that are not
    UTF-8 and on the empty text, before it has done anything; otherwise
    it answers, closes and records as follows. *)
Lemma datagram_received_cases (local_ip : string) (data : bytes)
  (addr : ChatProtocol.address) (self : ChatProtocol.peer) :
  ChatProtocol.datagram_received local_ip data addr self
  = match decode data with
    | Raise e => (Raise e, self)
    | Ok text =>
        match Str.first text with
        | Raise e => (Raise e, self)
        | Ok c =>
            (Ok tt,
             ChatProtocol.mkPeer
               (ChatProtocol.messages self ++ recorded text c self)
               (ChatProtocol.username self)
               (ChatProtocol.sent self ++ replies local_ip text c addr self)
               (ChatProtocol.closed self
                || (negb (String.eqb (fst addr) local_ip)
                    && String.eqb text "False"))
               (ChatProtocol.printed self ++ recorded text c self))
        end
    end.
Proof.
  unfold replies, recorded, ChatProtocol.datagram_received, bind,
    lift_result, get, ret.
  destruct (decode data) as [text|e]; [|reflexivity].
  destruct self as [ms name snt cl pr].
  destruct (Str.first text) as [c|e];
    [|destruct (String.eqb (fst addr) local_ip); reflexivity].
  repeat first
    [ progress
        (cbn [negb andb orb];
         cbv beta iota delta
           [ChatProtocol.messages ChatProtocol.username ChatProtocol.sent
            ChatProtocol.closed ChatProtocol.printed])
    | rewrite replay_run
    | match goal with
      | |- context [String.eqb ?a ?b] => destruct (String.eqb a b) eqn:?
      | |- context [Str.mem ?a ?b] => destruct (Str.mem a b) eqn:?
      end
    | progress
        unfold ChatProtocol.sendto, ChatProtocol.close, ChatProtocol.record,
          modify ];
    rewrite ?app_nil_r, ?orb_true_r, ?orb_false_r;
    first [ reflexivity | congruence ].
Qed.

Lemma encode_cons (a : ascii) (s : string) :
  encode (String a s) = byte_of_ascii a :: encode s.
Proof. reflexivity. Qed.

Lemma encode_nil_inv (s : string) : encode s = [] -> s = EmptyString.
Proof. destruct s; [reflexivity | discriminate]. Qed.

Lemma mem_false (x : string) (l : list string) :
  Str.mem x l = false -> ~ In x l.
Proof.
  unfold Str.mem. intros H I.
  assert (E : existsb (String.eqb x) l = true).
  { apply existsb_exists. exists x. split; [exact I | apply String.eqb_refl]. }
  congruence.
Qed.

Lemma recorded_new (text c : string) (self : ChatProtocol.peer) :
  recorded text c self = []
  \/ (recorded text c self = [Str.rest text]
      /\ c = "2"%string
      /\ ~ In (Str.rest text) (ChatProtocol.messages self)).
Proof.
  unfold recorded.
  destruct (String.eqb c "2") eqn:E; [|now left].
  destruct (Str.mem (Str.rest text) (ChatProtocol.messages self)) eqn:Q;
    [now left|].
  right. cbn [negb andb]. apply String.eqb_eq in E.
  repeat split; [exact E | now apply mem_false].
Qed.

(** X20. A peer records and prints each chat message at most once:
    whatever datagram arrives, [datagram_received] leaves the list of
    messages as it was or adds one message that was not in it, printing
    exactly what it adds; a list without repetitions stays so, and the
    username is not touched. *)
Theorem X20_messages_recorded_once (local_ip : string) (data : bytes)
  (addr : ChatProtocol.address) (self self' : ChatProtocol.peer)
  (r : result unit) :
  NoDup (ChatProtocol.messages self) ->
  ChatProtocol.datagram_received local_ip data addr self = (r, self') ->
  NoDup (ChatProtocol.messages self')
  /\ ChatProtocol.username self' = ChatProtocol.username self
  /\ exists new,
       ChatProtocol.messages self' = ChatProtocol.messages self ++ new
       /\ ChatProtocol.printed self' = ChatProtocol.printed self ++ new
       /\ (length new <= 1)%nat
       /\ forall m, In m new -> ~ In m (ChatProtocol.messages self).
Proof.
  intros ND. rewrite datagram_received_cases.
  assert (Same : NoDup (ChatProtocol.messages self)
                 /\ ChatProtocol.username self = ChatProtocol.username self
                 /\ exists new,
                      ChatProtocol.messages self
                      = ChatProtocol.messages self ++ new
                      /\ ChatProtocol.printed self
                         = ChatProtocol.printed self ++ new
                      /\ (length new <= 1)%nat
                      /\ forall m, In m new
                                   -> ~ In m (ChatProtocol.messages self)).
  { split; [exact ND|]. split; [reflexivity|]. exists [].
    rewrite !app_nil_r. repeat split; [cbn; lia | intros m []]. }
  destruct (decode data) as [text|e]; [|now intros [= <- <-]].
  destruct (Str.first text) as [c|e]; [|now intros [= <- <-]].
  intros [= <- <-].
  cbn [ChatProtocol.messages ChatProtocol.username ChatProtocol.printed].
  destruct (recorded_new text c self) as [->|(-> & _ & N)].
  - rewrite !app_nil_r. split; [exact ND|]. split; [reflexivity|].
    exists []. rewrite !app_nil_r. repeat split; [cbn; lia | intros m []].
  - split.
    + apply NoDup_app; [exact ND | repeat constructor; intros [] |].
      intros x I [<-|[]]. now apply N.
    + split; [reflexivity|]. exists [Str.rest text].
      repeat split; [cbn; lia|]. now intros m [<-|[]].
Qed.

Lemma X20_messages_recorded_once_witness :
  NoDup (ChatProtocol.messages
           (ChatProtocol.mkPeer ["12:00:00 alice hi"%string]
              "bob" [] false []))
  /\ ChatProtocol.datagram_received "10.0.0.2"
       (encode "212:00:00 alice hi") ("10.0.0.1"%string, 65432)
       (ChatProtocol.mkPeer ["12:00:00 alice hi"%string] "bob" [] false [])
     = (Ok tt,
        ChatProtocol.mkPeer ["12:00:00 alice hi"%string] "bob" [] false [])
  /\ NoDup ["12:00:00 alice hi"%string].
Proof.
  assert (ND : NoDup ["12:00:00 alice hi"%string])
    by (repeat constructor; intros []).
  split; [exact ND|]. split; [reflexivity|].
  exact (proj1 (X20_messages_recorded_once "10.0.0.2"
                  (encode "212:00:00 alice hi")
                  ("10.0.0.1"%string, 65432)
                  (ChatProtocol.mkPeer ["12:00:00 alice hi"%string]
                     "bob" [] false [])
                  _ _ ND eq_refl)).
Defined.

Lemma encode_app (a b : string) : encode (a ++ b) = encode a ++ encode b.
Proof.
  induction a as [|c a IH]; [reflexivity|].
  cbn [append]. rewrite !encode_cons, IH. reflexivity.
Qed.

Lemma encode_of_bytes (data : bytes) : encode (string_of_list_byte data) = data.
Proof. apply list_byte_of_string_of_list_byte. Qed.

Lemma string_of_encode (s : string) : string_of_list_byte (encode s) = s.
Proof. apply string_of_list_byte_of_string. Qed.

Lemma encode_inj (a b : string) : encode a = encode b -> a = b.
Proof.
  intros E. rewrite <- (string_of_encode a), <- (string_of_encode b).
  now rewrite E.
Qed.

Lemma valid_app (l1 l2 : bytes) :
  Utf8.valid l1 = true -> Utf8.valid (l1 ++ l2) = Utf8.valid l2.
Proof.
  remember (length l1) as n eqn:E. revert l1 E.
  induction n as [n IH] using lt_wf_ind. intros l1 E V. subst n.
  destruct l1 as [|b0 t0]; [reflexivity|].
  cbn [app Utf8.valid] in V |- *.
  destruct (Utf8.between 0 127 b0).
  { apply (IH (length t0)); [cbn; lia | reflexivity | exact V]. }
  destruct t0 as [|b1 t1]; [discriminate|].
  cbn [app] in V |- *.
  destruct (Utf8.between 194 223 b0 && Utf8.cont b1).
  { apply (IH (length t1)); [cbn; lia | reflexivity | exact V]. }
  destruct t1 as [|b2 t2]; [discriminate|].
  cbn [app] in V |- *.
  destruct (Utf8.three b0 b1 && Utf8.cont b2).
  { apply (IH (length t2)); [cbn; lia | reflexivity | exact V]. }
  destruct t2 as [|b3 t3]; [discriminate|].
  cbn [app] in V |- *.
  destruct (Utf8.four b0 b1 && Utf8.cont b2 && Utf8.cont b3); [|discriminate].
  apply (IH (length t3)); [cbn; lia | reflexivity | exact V].
Qed.

Lemma is_str_app (a b : string) : is_str a -> is_str b -> is_str (a ++ b).
Proof.
  unfold is_str. intros Ha Hb. rewrite encode_app, valid_app; assumption.
Qed.

(** A text that starts with an ASCII character: [s[0]] and [s[1:]]. *)
Lemma first_rest_ascii (a : ascii) (s : string) :
  Utf8.between 0 127 (byte_of_ascii a) = true ->
  Str.first (String a s) = Ok (String a EmptyString)
  /\ Str.rest (String a s) = s.
Proof.
  intros H. unfold Str.first, Str.rest. rewrite encode_cons.
  unfold Str.char_len. rewrite H. cbn [firstn skipn].
  split; [|apply string_of_encode].
  cbn [string_of_list_byte map string_of_list_ascii].
  now rewrite ascii_of_byte_of_ascii.
Qed.

Lemma decode_tagged (a : ascii) (s : string) :
  Utf8.between 0 127 (byte_of_ascii a) = true ->
  is_str s -> decode (encode (String a s)) = Ok (String a s).
Proof.
  intros H V. apply decode_encode. unfold is_str. rewrite encode_cons.
  cbn [Utf8.valid]. rewrite H. exact V.
Qed.

(** X21. A datagram that is not UTF-8 makes [datagram_received] raise
    [UnicodeDecodeError] and an empty one [IndexError], from whichever
    address it comes; in both cases the peer is left as it was. Every
    other datagram is handled without an exception. *)
Theorem X21_malformed_datagram (local_ip : string) (data : bytes)
  (addr : ChatProtocol.address) (self : ChatProtocol.peer) :
  match fst (ChatProtocol.datagram_received local_ip data addr self) with
  | Ok _ => Utf8.valid data = true /\ data <> []
  | Raise e =>
      snd (ChatProtocol.datagram_received local_ip data addr self) = self
      /\ ((e = UnicodeDecodeError /\ Utf8.valid data = false)
          \/ (e = IndexError /\ Utf8.valid data = true /\ data = []))
  end.
Proof.
  rewrite datagram_received_cases. unfold decode.
  destruct (Utf8.valid data) eqn:V.
  - unfold Str.first. rewrite encode_of_bytes.
    destruct data as [|b t]; cbn [fst snd].
    + split; [reflexivity|]. right. now repeat split.
    + split; [reflexivity | discriminate].
  - cbn [fst snd]. split; [reflexivity|]. left. now split.
Qed.

Lemma lastn_length {A} (n : nat) (l : list A) : (length (lastn n l) <= n)%nat.
Proof. unfold lastn. rewrite length_skipn. lia. Qed.

Lemma lastn_In {A} (n : nat) (l : list A) (x : A) :
  In x (lastn n l) -> In x l.
Proof.
  unfold lastn. intros I.
  rewrite <- (firstn_skipn (length l - n) l). apply in_or_app. now right.
Qed.

Lemma lastn_NoDup {A} (n : nat) (l : list A) : NoDup l -> NoDup (lastn n l).
Proof.
  unfold lastn. intros ND.
  rewrite <- (firstn_skipn (length l - n) l) in ND.
  exact (NoDup_app_remove_l _ _ ND).
Qed.

Lemma replies_to_sender (local_ip text c : string)
  (addr : ChatProtocol.address) (self : ChatProtocol.peer) :
  Forall (fun d => snd d = addr) (replies local_ip text c addr self)
  /\ (length (replies local_ip text c addr self) <= 10)%nat
  /\ (fst addr = local_ip -> replies local_ip text c addr self = []).
Proof.
  unfold replies.
  destruct (String.eqb_spec (fst addr) local_ip) as [E|N]; cbn [negb andb].
  { split; [constructor|]. split; [cbn; lia | reflexivity]. }
  assert (O : forall l : list (bytes * ChatProtocol.address),
                fst addr = local_ip -> l = [])
    by (intros l E; now destruct N).
  destruct (String.eqb c "1");
    [|split; [constructor|]; split; [cbn; lia | apply O]].
  destruct (String.eqb (Str.rest text) (ChatProtocol.username self)).
  - split; [repeat constructor|]. split; [cbn; lia | apply O].
  - split; [|split; [|apply O]].
    + apply Forall_forall. intros d I. apply in_map_iff in I.
      destruct I as (m & <- & _). reflexivity.
    + rewrite length_map. apply lastn_length.
Qed.

(** X22. Whatever [datagram_received] sends, it sends to the address the
    datagram came from, and at most ten datagrams for one datagram
    received. A datagram that comes from the peer's own address is not
    answered and does not close the transport, whatever it holds. *)
Theorem X22_replies_go_to_sender (local_ip : string) (data : bytes)
  (addr : ChatProtocol.address) (self self' : ChatProtocol.peer)
  (r : result unit) :
  ChatProtocol.datagram_received local_ip data addr self = (r, self') ->
  exists new,
    ChatProtocol.sent self' = ChatProtocol.sent self ++ new
    /\ Forall (fun d => snd d = addr) new
    /\ (length new <= 10)%nat
    /\ (fst addr = local_ip ->
        new = [] /\ ChatProtocol.closed self' = ChatProtocol.closed self).
Proof.
  rewrite datagram_received_cases.
  assert (Same : exists new,
                   ChatProtocol.sent self = ChatProtocol.sent self ++ new
                   /\ Forall (fun d => snd d = addr) new
                   /\ (length new <= 10)%nat
                   /\ (fst addr = local_ip ->
                       new = []
                       /\ ChatProtocol.closed self = ChatProtocol.closed self)).
  { exists []. rewrite app_nil_r.
    split; [reflexivity|]. split; [constructor|].
    split; [cbn; lia | now split]. }
  destruct (decode data) as [text|e]; [|now intros [= <- <-]].
  destruct (Str.first text) as [c|e]; [|now intros [= <- <-]].
  intros [= <- <-]. cbn [ChatProtocol.sent ChatProtocol.closed].
  destruct (replies_to_sender local_ip text c addr self) as (F & L & O).
  exists (replies local_ip text c addr self).
  split; [reflexivity|]. split; [exact F|]. split; [exact L|].
  intros E. split; [exact (O E)|].
  rewrite E, String.eqb_refl. cbn [negb andb]. apply orb_false_r.
Qed.

(** A peer named bob with a message in its history receives an
    announcement of bob from another host, and then, from its own
    address, an announcement of carol and the datagram ['False']. *)
Lemma X22_replies_go_to_sender_witness :
  (exists new,
     [(encode "False", ("10.0.0.1"%string, 65432%Z))] = [] ++ new
     /\ Forall (fun d => snd d = ("10.0.0.1"%string, 65432%Z)) new
     /\ (length new <= 10)%nat)
  /\ (ChatProtocol.sent
        (snd (ChatProtocol.datagram_received "10.0.0.2" (encode "1carol")
                ("10.0.0.2"%string, 65432)
                (ChatProtocol.mkPeer ["12:00:00 alice hi"%string] "bob"
                   [] false []))) = []
      /\ ChatProtocol.closed
           (snd (ChatProtocol.datagram_received "10.0.0.2" (encode "1carol")
                   ("10.0.0.2"%string, 65432)
                   (ChatProtocol.mkPeer ["12:00:00 alice hi"%string] "bob"
                      [] false []))) = false)
  /\ (ChatProtocol.sent
        (snd (ChatProtocol.datagram_received "10.0.0.2" (encode "False")
                ("10.0.0.2"%string, 65432)
                (ChatProtocol.mkPeer ["12:00:00 alice hi"%string] "bob"
                   [] false []))) = []
      /\ ChatProtocol.closed
           (snd (ChatProtocol.datagram_received "10.0.0.2" (encode "False")
                   ("10.0.0.2"%string, 65432)
                   (ChatProtocol.mkPeer ["12:00:00 alice hi"%string] "bob"
                      [] false []))) = false).
Proof.
  split; [|split].
  - destruct (X22_replies_go_to_sender "10.0.0.2" (encode "1bob")
                ("10.0.0.1"%string, 65432)
                (ChatProtocol.mkPeer ["12:00:00 alice hi"%string] "bob"
                   [] false [])
                (ChatProtocol.mkPeer ["12:00:00 alice hi"%string] "bob"
                   [(encode "False", ("10.0.0.1"%string, 65432))]
                   false [])
                (Ok tt) eq_refl) as (new & E & F & L & _).
    exists new. split; [exact E|]. split; [exact F | exact L].
  - destruct (X22_replies_go_to_sender "10.0.0.2" (encode "1carol")
                ("10.0.0.2"%string, 65432)
                (ChatProtocol.mkPeer ["12:00:00 alice hi"%string] "bob"
                   [] false [])
                _ _ (surjective_pairing _)) as (new & E & _ & _ & O).
    destruct (O eq_refl) as [N C]. rewrite N in E.
    split; [exact E | exact C].
  - destruct (X22_replies_go_to_sender "10.0.0.2" (encode "False")
                ("10.0.0.2"%string, 65432)
                (ChatProtocol.mkPeer ["12:00:00 alice hi"%string] "bob"
                   [] false [])
                _ _ (surjective_pairing _)) as (new & E & _ & _ & O).
    destruct (O eq_refl) as [N C]. rewrite N in E.
    split; [exact E | exact C].
Defined.

Lemma announcement_run (local_ip name : string)
  (addr : ChatProtocol.address) (self : ChatProtocol.peer) :
  is_str name ->
  fst addr <> local_ip ->
  ChatProtocol.datagram_received local_ip (encode ("1" ++ name)) addr self
  = (Ok tt,
     ChatProtocol.mkPeer (ChatProtocol.messages self)
       (ChatProtocol.username self)
       (ChatProtocol.sent self
        ++ (if String.eqb name (ChatProtocol.username self)
            then [(encode "False", addr)]
            else map (fun m => (encode ("2" ++ m), addr))
                   (lastn 10 (ChatProtocol.messages self))))
       (ChatProtocol.closed self)
       (ChatProtocol.printed self)).
Proof.
  intros V N. rewrite datagram_received_cases.
  cbn [append].
  rewrite (decode_tagged "1" name eq_refl V).
  destruct (first_rest_ascii "1" name eq_refl) as [-> R].
  unfold replies, recorded. rewrite R.
  apply String.eqb_neq in N. rewrite N.
  cbn [negb andb orb String.eqb Ascii.eqb Bool.eqb].
  rewrite !app_nil_r, orb_false_r. reflexivity.
Qed.

(** X23. A datagram ['1' + name] from another host is an announcement
    of the username [name]: a peer whose own username is [name] answers
    the sender with the single datagram ['False']; any other peer answers
    with its last ten messages, oldest first, each as a datagram
    ['2' + message]. Nothing is recorded or printed, and the transport
    is not closed. *)
Theorem X23_announcement_is_answered (local_ip name : string)
  (addr : ChatProtocol.address) (self : ChatProtocol.peer) :
  is_str name ->
  fst addr <> local_ip ->
  ChatProtocol.datagram_received local_ip (encode ("1" ++ name)) addr self
  = (Ok tt,
     ChatProtocol.mkPeer (ChatProtocol.messages self)
       (ChatProtocol.username self)
       (ChatProtocol.sent self
        ++ (if String.eqb name (ChatProtocol.username self)
            then [(encode "False", addr)]
            else map (fun m => (encode ("2" ++ m), addr))
                   (lastn 10 (ChatProtocol.messages self))))
       (ChatProtocol.closed self)
       (ChatProtocol.printed self)).
Proof. apply announcement_run. Qed.

Lemma X23_announcement_witness :
  is_str "carol"
  /\ "10.0.0.1"%string <> "10.0.0.2"%string
  /\ ChatProtocol.datagram_received "10.0.0.2" (encode "1carol")
       ("10.0.0.1"%string, 65432)
       (ChatProtocol.mkPeer
          ["12:00:00 alice hi"%string; "12:00:01 bob hello"%string]
          "bob" [] false [])
     = (Ok tt,
        ChatProtocol.mkPeer
          ["12:00:00 alice hi"%string; "12:00:01 bob hello"%string]
          "bob"
          [(encode "212:00:00 alice hi", ("10.0.0.1"%string, 65432));
           (encode "212:00:01 bob hello", ("10.0.0.1"%string, 65432))]
          false []).
Proof.
  split; [reflexivity|]. split; [discriminate|].
  exact (X23_announcement_is_answered "10.0.0.2" "carol"
           ("10.0.0.1"%string, 65432)
           (ChatProtocol.mkPeer
              ["12:00:00 alice hi"%string; "12:00:01 bob hello"%string]
              "bob" [] false [])
           eq_refl ltac:(discriminate)).
Defined.

Lemma text_is_False (data : bytes) :
  String.eqb (string_of_list_byte data) "False" = true
  <-> data = encode "False".
Proof.
  rewrite String.eqb_eq. split.
  - intros E. rewrite <- (encode_of_bytes data), E. reflexivity.
  - intros ->. apply string_of_encode.
Qed.

(** X24. [datagram_received] closes an open transport exactly when the
    datagram is ['False'] and comes from another host; in that case
    nothing is sent, recorded or printed. *)
Theorem X24_only_False_closes (local_ip : string) (data : bytes)
  (addr : ChatProtocol.address) (self self' : ChatProtocol.peer)
  (r : result unit) :
  ChatProtocol.datagram_received local_ip data addr self = (r, self') ->
  ChatProtocol.closed self = false ->
  (ChatProtocol.closed self' = true
   <-> (fst addr <> local_ip /\ data = encode "False"))
  /\ (ChatProtocol.closed self' = true ->
      r = Ok tt
      /\ ChatProtocol.messages self' = ChatProtocol.messages self
      /\ ChatProtocol.sent self' = ChatProtocol.sent self
      /\ ChatProtocol.printed self' = ChatProtocol.printed self).
Proof.
  rewrite datagram_received_cases. unfold decode. intros H C.
  destruct (Utf8.valid data) eqn:V.
  - destruct (Str.first (string_of_list_byte data)) as [c|e] eqn:F.
    + injection H as <- <-. cbn [ChatProtocol.closed ChatProtocol.messages
        ChatProtocol.sent ChatProtocol.printed].
      rewrite C. cbn [orb].
      assert (Q : negb (String.eqb (fst addr) local_ip)
                  && String.eqb (string_of_list_byte data) "False" = true
                  <-> fst addr <> local_ip /\ data = encode "False").
      { rewrite andb_true_iff, negb_true_iff, String.eqb_neq.
        now rewrite text_is_False. }
      split; [exact Q|]. intros T. apply Q in T. destruct T as [_ ->].
      rewrite string_of_encode in F |- *.
      injection F as <-.
      unfold replies, recorded.
      cbn [String.eqb Ascii.eqb Bool.eqb andb].
      rewrite andb_false_r, !app_nil_r. now repeat split.
    + injection H as <- <-. rewrite C.
      split; [|discriminate]. split; [discriminate|].
      intros [_ ->]. unfold Str.first in F.
      rewrite string_of_encode in F. discriminate.
  - injection H as <- <-. rewrite C.
    split; [|discriminate]. split; [discriminate|].
    intros [_ ->]. discriminate.
Qed.

Lemma X24_only_False_closes_witness :
  ("10.0.0.1"%string <> "10.0.0.2"%string
   /\ encode "False" = encode "False")
  /\ ChatProtocol.closed
       (snd (ChatProtocol.datagram_received "10.0.0.2" (encode "False")
               ("10.0.0.1"%string, 65432)
               (ChatProtocol.mkPeer [] "bob" [] false []))) = true.
Proof.
  assert (T : ChatProtocol.closed
                (ChatProtocol.mkPeer [] "bob" [] true []) = true)
    by reflexivity.
  split; [|exact T].
  exact (proj1 (proj1 (X24_only_False_closes "10.0.0.2" (encode "False")
                         ("10.0.0.1"%string, 65432)
                         (ChatProtocol.mkPeer [] "bob" [] false [])
                         (ChatProtocol.mkPeer [] "bob" [] true [])
                         (Ok tt) eq_refl eq_refl)) T).
Defined.

Lemma message_loop_run (clock : nat -> string) (lines : list string) :
  forall (k : nat) (self : ChatProtocol.peer),
    ChatProtocol.message_loop clock k lines self
    = (Ok tt,
       ChatProtocol.mkPeer (ChatProtocol.messages self)
         (ChatProtocol.username self)
         (ChatProtocol.sent self
          ++ map (chat_datagram clock (ChatProtocol.username self))
               (combine (seq k (length (until_empty lines)))
                  (until_empty lines)))
         (ChatProtocol.closed self || has_empty lines)
         (ChatProtocol.printed self)).
Proof.
  induction lines as [|line lines IH]; intros k [ms u st cl pr].
  - cbn. now rewrite app_nil_r, orb_false_r.
  - cbn [ChatProtocol.message_loop until_empty has_empty existsb].
    destruct (String.eqb line "") eqn:E.
    + cbn. now rewrite app_nil_r, orb_true_r.
    + unfold bind, get, ChatProtocol.sendto, modify.
      cbn [ChatProtocol.messages ChatProtocol.username ChatProtocol.sent
           ChatProtocol.closed ChatProtocol.printed].
      rewrite IH.
      cbn [ChatProtocol.messages ChatProtocol.username ChatProtocol.sent
           ChatProtocol.closed ChatProtocol.printed length seq combine map
           orb].
      rewrite <- app_assoc. reflexivity.
Qed.

Lemma send_messages_run (clock : nat -> string)
  (name : string) (lines : list string) (self : ChatProtocol.peer) :
  ChatProtocol.send_messages clock (name :: lines) self
  = (Ok tt,
     if String.eqb name ""
     then ChatProtocol.mkPeer (ChatProtocol.messages self)
            (ChatProtocol.username self) (ChatProtocol.sent self)
            true (ChatProtocol.printed self)
     else ChatProtocol.mkPeer (ChatProtocol.messages self) name
            (ChatProtocol.sent self
             ++ (encode ("1" ++ name),
                 ("255.255.255.255"%string, 65432))
                :: map (chat_datagram clock name)
                     (combine (seq 0 (length (until_empty lines)))
                        (until_empty lines)))
            (ChatProtocol.closed self || has_empty lines)
            (ChatProtocol.printed self)).
Proof.
  destruct self as [ms u st cl pr].
  cbn [ChatProtocol.send_messages].
  destruct (String.eqb name "") eqn:E; [reflexivity|].
  unfold bind, ChatProtocol.set_username, ChatProtocol.sendto, modify.
  cbn [ChatProtocol.messages ChatProtocol.username ChatProtocol.sent
       ChatProtocol.closed ChatProtocol.printed].
  rewrite message_loop_run.
  cbn [ChatProtocol.messages ChatProtocol.username ChatProtocol.sent
       ChatProtocol.closed ChatProtocol.printed].
  rewrite <- app_assoc. reflexivity.
Qed.

(** X25. [send_messages]: an empty username closes the transport and
    nothing is sent. Otherwise the username is stored and announced as
    ['1' + username], and every input line before the first empty one is
    sent as ['2' + time + ' ' + username + ' ' + line], in order; all of
    these datagrams go to the broadcast address and port 65432. The
    transport is closed when an empty line is entered, and the lines
    after it are not sent. Nothing is recorded or printed by sending. *)
Theorem X25_send_messages_broadcasts (clock : nat -> string)
  (name : string) (lines : list string) (self : ChatProtocol.peer) :
  ChatProtocol.send_messages clock (name :: lines) self
  = (Ok tt,
     if String.eqb name ""
     then ChatProtocol.mkPeer (ChatProtocol.messages self)
            (ChatProtocol.username self) (ChatProtocol.sent self)
            true (ChatProtocol.printed self)
     else ChatProtocol.mkPeer (ChatProtocol.messages self) name
            (ChatProtocol.sent self
             ++ (encode ("1" ++ name),
                 ("255.255.255.255"%string, 65432))
                :: map (chat_datagram clock name)
                     (combine (seq 0 (length (until_empty lines)))
                        (until_empty lines)))
            (ChatProtocol.closed self || has_empty lines)
            (ChatProtocol.printed self)).
Proof. apply send_messages_run. Qed.

Lemma mem_true (x : string) (l : list string) :
  Str.mem x l = true -> In x l.
Proof.
  unfold Str.mem. intros H. apply existsb_exists in H.
  destruct H as (y & I & E). apply String.eqb_eq in E. now subst y.
Qed.

(** What a peer does with a chat datagram, wherever it comes from. *)
Lemma chat_datagram_run (local_ip text : string)
  (addr : ChatProtocol.address) (self : ChatProtocol.peer) :
  is_str text ->
  ChatProtocol.datagram_received local_ip (encode ("2" ++ text)) addr self
  = (Ok tt,
     if Str.mem text (ChatProtocol.messages self) then self
     else ChatProtocol.mkPeer (ChatProtocol.messages self ++ [text])
            (ChatProtocol.username self) (ChatProtocol.sent self)
            (ChatProtocol.closed self)
            (ChatProtocol.printed self ++ [text])).
Proof.
  intros V. rewrite datagram_received_cases.
  cbn [append].
  rewrite (decode_tagged "2" text eq_refl V).
  destruct (first_rest_ascii "2" text eq_refl) as [-> R].
  unfold replies, recorded. rewrite R.
  cbn [String.eqb Ascii.eqb Bool.eqb andb].
  rewrite !andb_false_r, orb_false_r, app_nil_r.
  destruct (Str.mem text (ChatProtocol.messages self)); cbn [negb].
  - rewrite !app_nil_r. now destruct self.
  - reflexivity.
Qed.

(** X26. A chat line travels from peer to peer: the datagram that the
    message loop of a peer broadcasts for a non-empty input line is, by
    every peer that receives it (the sender itself included), recorded
    and printed as [time username line] if the peer does not have that
    message yet, and ignored otherwise; the receiver sends nothing and
    is not closed. *)
Theorem X26_chat_line_reaches_peers (clock : nat -> string) (k : nat)
  (line local_ip : string) (from : ChatProtocol.address)
  (A B : ChatProtocol.peer) :
  is_str (clock k) ->
  is_str (ChatProtocol.username A) ->
  is_str line ->
  line <> EmptyString ->
  exists datagram,
    ChatProtocol.message_loop clock k [line] A
    = (Ok tt,
       ChatProtocol.mkPeer (ChatProtocol.messages A)
         (ChatProtocol.username A)
         (ChatProtocol.sent A ++ [(datagram, ChatProtocol.everyone)])
         (ChatProtocol.closed A) (ChatProtocol.printed A))
    /\ ChatProtocol.datagram_received local_ip datagram from B
       = (Ok tt,
          let text :=
            (clock k ++ " " ++ ChatProtocol.username A ++ " " ++ line)%string
          in
          if Str.mem text (ChatProtocol.messages B) then B
          else ChatProtocol.mkPeer (ChatProtocol.messages B ++ [text])
                 (ChatProtocol.username B) (ChatProtocol.sent B)
                 (ChatProtocol.closed B)
                 (ChatProtocol.printed B ++ [text])).
Proof.
  intros Vt Vu Vl N.
  exists (encode ("2" ++ clock k ++ " " ++ ChatProtocol.username A
                  ++ " " ++ line)).
  split.
  - rewrite message_loop_run. cbn [until_empty has_empty existsb].
    apply String.eqb_neq in N. rewrite N.
    cbn [length seq combine map orb]. rewrite orb_false_r. reflexivity.
  - apply chat_datagram_run.
    repeat apply is_str_app; try assumption; reflexivity.
Qed.

Lemma X26_chat_line_witness :
  exists datagram,
    ChatProtocol.message_loop (fun _ => "12:00:00"%string) 0 ["hi"%string]
      (ChatProtocol.mkPeer [] "alice" [] false [])
    = (Ok tt,
       ChatProtocol.mkPeer [] "alice"
         [(datagram, ChatProtocol.everyone)] false [])
    /\ ChatProtocol.datagram_received "10.0.0.2" datagram
         ("10.0.0.1"%string, 65432)
         (ChatProtocol.mkPeer [] "bob" [] false [])
       = (Ok tt,
          ChatProtocol.mkPeer ["12:00:00 alice hi"%string] "bob" [] false
            ["12:00:00 alice hi"%string]).
Proof.
  exact (X26_chat_line_reaches_peers (fun _ => "12:00:00"%string) 0 "hi"
           "10.0.0.2" ("10.0.0.1"%string, 65432)
           (ChatProtocol.mkPeer [] "alice" [] false [])
           (ChatProtocol.mkPeer [] "bob" [] false [])
           eq_refl eq_refl eq_refl ltac:(discriminate)).
Defined.

Lemma deliver_fresh (local_ip : string) (from : ChatProtocol.address)
  (l : list string) :
  forall B : ChatProtocol.peer,
    Forall is_str l ->
    NoDup l ->
    (forall m, In m l -> ~ In m (ChatProtocol.messages B)) ->
    deliver local_ip from (map (fun m => encode ("2" ++ m)) l) B
    = (Ok tt,
       ChatProtocol.mkPeer (ChatProtocol.messages B ++ l)
         (ChatProtocol.username B) (ChatProtocol.sent B)
         (ChatProtocol.closed B) (ChatProtocol.printed B ++ l)).
Proof.
  unfold deliver.
  induction l as [|m l IH]; intros B V ND F.
  - cbn. rewrite !app_nil_r. now destruct B.
  - cbn [map for_each]. unfold bind at 1.
    rewrite (chat_datagram_run local_ip m from B (Forall_inv V)).
    destruct (Str.mem m (ChatProtocol.messages B)) eqn:Q.
    { apply mem_true in Q. destruct (F m (or_introl eq_refl) Q). }
    rewrite IH.
    + cbn [ChatProtocol.messages ChatProtocol.username ChatProtocol.sent
           ChatProtocol.closed ChatProtocol.printed].
      rewrite <- !app_assoc. reflexivity.
    + exact (Forall_inv_tail V).
    + exact (proj2 (proj1 (NoDup_cons_iff m l) ND)).
    + cbn [ChatProtocol.messages]. intros x I J.
      apply in_app_or in J. destruct J as [J|[<-|[]]].
      * exact (F x (or_intror I) J).
      * exact (proj1 (proj1 (NoDup_cons_iff m l) ND) I).
Qed.

(** X27. A newcomer gets the history: when a peer [A] receives the
    announcement ['1' + name] of another host with a username that is
    not its own, the datagrams it sends back, handed in order to
    [datagram_received] of the newcomer [B], make [B] record and print
    the last ten messages of [A], oldest first, after what it had. The
    messages of [A] are taken without repetitions and [B] has none of
    those sent. *)
Theorem X27_newcomer_gets_history (ipA ipB name : string)
  (addrA addrB : ChatProtocol.address) (A B : ChatProtocol.peer) :
  is_str name ->
  name <> ChatProtocol.username A ->
  fst addrB <> ipA ->
  Forall is_str (ChatProtocol.messages A) ->
  NoDup (ChatProtocol.messages A) ->
  (forall m, In m (lastn 10 (ChatProtocol.messages A))
             -> ~ In m (ChatProtocol.messages B)) ->
  exists datagrams,
    ChatProtocol.datagram_received ipA (encode ("1" ++ name)) addrB A
    = (Ok tt,
       ChatProtocol.mkPeer (ChatProtocol.messages A)
         (ChatProtocol.username A)
         (ChatProtocol.sent A ++ map (fun d => (d, addrB)) datagrams)
         (ChatProtocol.closed A) (ChatProtocol.printed A))
    /\ deliver ipB addrA datagrams B
       = (Ok tt,
          ChatProtocol.mkPeer
            (ChatProtocol.messages B ++ lastn 10 (ChatProtocol.messages A))
            (ChatProtocol.username B) (ChatProtocol.sent B)
            (ChatProtocol.closed B)
            (ChatProtocol.printed B
             ++ lastn 10 (ChatProtocol.messages A))).
Proof.
  intros V N O VA ND F.
  exists (map (fun m => encode ("2" ++ m))
            (lastn 10 (ChatProtocol.messages A))).
  split.
  - rewrite (announcement_run ipA name addrB A V O).
    apply String.eqb_neq in N. rewrite N. rewrite map_map. reflexivity.
  - apply deliver_fresh; [|now apply lastn_NoDup | exact F].
    apply Forall_forall. intros m I.
    exact (proj1 (Forall_forall _ _) VA m (lastn_In _ _ _ I)).
Qed.

Lemma X27_newcomer_witness :
  exists datagrams,
    ChatProtocol.datagram_received "10.0.0.1" (encode "1bob")
      ("10.0.0.2"%string, 65432)
      (ChatProtocol.mkPeer
         ["12:00:00 alice hi"%string; "12:00:05 alice anyone"%string]
         "alice" [] false [])
    = (Ok tt,
       ChatProtocol.mkPeer
         ["12:00:00 alice hi"%string; "12:00:05 alice anyone"%string]
         "alice"
         ([] ++ map (fun d => (d, ("10.0.0.2"%string, 65432%Z))) datagrams)
         false [])
    /\ deliver "10.0.0.2" ("10.0.0.1"%string, 65432) datagrams
         (ChatProtocol.mkPeer [] "bob" [] false [])
       = (Ok tt,
          ChatProtocol.mkPeer
            ["12:00:00 alice hi"%string; "12:00:05 alice anyone"%string]
            "bob" [] false
            ["12:00:00 alice hi"%string; "12:00:05 alice anyone"%string]).
Proof.
  exact (X27_newcomer_gets_history "10.0.0.1" "10.0.0.2" "bob"
           ("10.0.0.1"%string, 65432) ("10.0.0.2"%string, 65432)
           (ChatProtocol.mkPeer
              ["12:00:00 alice hi"%string; "12:00:05 alice anyone"%string]
              "alice" [] false [])
           (ChatProtocol.mkPeer [] "bob" [] false [])
           eq_refl ltac:(discriminate) ltac:(discriminate)
           ltac:(repeat constructor)
           ltac:(repeat constructor; cbn; intuition discriminate)
           ltac:(intros m _ [])).
Defined.

(** X28. A username already in use on the network ends the newcomer:
    the announcement that [send_messages] broadcasts for the username
    [name], received from another host by a peer whose username is
    [name], is answered with one datagram to the announcer, and that
    datagram, received by the announcer from another host, closes the
    announcer's transport and changes nothing else. *)
Theorem X28_name_in_use_closes_newcomer (clock : nat -> string)
  (name ipA ipB : string) (addrA addrB : ChatProtocol.address)
  (A B : ChatProtocol.peer) :
  is_str name ->
  name <> EmptyString ->
  ChatProtocol.username B = name ->
  fst addrA <> ipB ->
  fst addrB <> ipA ->
  exists announce verdict A1,
    ChatProtocol.send_messages clock [name] A = (Ok tt, A1)
    /\ A1 = ChatProtocol.mkPeer (ChatProtocol.messages A) name
              (ChatProtocol.sent A ++ [(announce, ChatProtocol.everyone)])
              (ChatProtocol.closed A) (ChatProtocol.printed A)
    /\ ChatProtocol.datagram_received ipB announce addrA B
       = (Ok tt,
          ChatProtocol.mkPeer (ChatProtocol.messages B)
            (ChatProtocol.username B)
            (ChatProtocol.sent B ++ [(verdict, addrA)])
            (ChatProtocol.closed B) (ChatProtocol.printed B))
    /\ ChatProtocol.datagram_received ipA verdict addrB A1
       = (Ok tt,
          ChatProtocol.mkPeer (ChatProtocol.messages A1)
            (ChatProtocol.username A1) (ChatProtocol.sent A1)
            true (ChatProtocol.printed A1)).
Proof.
  intros V N U OA OB.
  exists (encode ("1" ++ name)), (encode "False").
  eexists. split; [|split; [reflexivity|]].
  - rewrite send_messages_run. apply String.eqb_neq in N. rewrite N.
    cbn [until_empty has_empty existsb length seq combine map].
    rewrite orb_false_r. reflexivity.
  - split.
    + rewrite (announcement_run ipB name addrA B V OA).
      rewrite U, String.eqb_refl. reflexivity.
    + rewrite datagram_received_cases.
      apply String.eqb_neq in OB.
      cbn [ChatProtocol.messages ChatProtocol.username ChatProtocol.sent
           ChatProtocol.closed ChatProtocol.printed].
      assert (D : decode (encode "False") = Ok "False"%string)
        by reflexivity.
      assert (F : Str.first "False" = Ok "F"%string) by reflexivity.
      rewrite D, F. unfold replies, recorded. rewrite OB.
      cbn [negb String.eqb Ascii.eqb Bool.eqb andb].
      rewrite !app_nil_r, orb_true_r. reflexivity.
Qed.

Lemma X28_name_in_use_witness :
  exists announce verdict A1,
    ChatProtocol.send_messages (fun _ => "12:00:00"%string) ["bob"%string]
      ChatProtocol.init = (Ok tt, A1)
    /\ A1 = ChatProtocol.mkPeer [] "bob"
              ([] ++ [(announce, ChatProtocol.everyone)]) false []
    /\ ChatProtocol.datagram_received "10.0.0.2" announce
         ("10.0.0.1"%string, 65432)
         (ChatProtocol.mkPeer [] "bob" [] false [])
       = (Ok tt,
          ChatProtocol.mkPeer [] "bob"
            ([] ++ [(verdict, ("10.0.0.1"%string, 65432%Z))]) false [])
    /\ ChatProtocol.datagram_received "10.0.0.1" verdict
         ("10.0.0.2"%string, 65432) A1
       = (Ok tt,
          ChatProtocol.mkPeer (ChatProtocol.messages A1)
            (ChatProtocol.username A1) (ChatProtocol.sent A1)
            true (ChatProtocol.printed A1)).
Proof.
  exact (X28_name_in_use_closes_newcomer (fun _ => "12:00:00"%string)
           "bob" "10.0.0.1" "10.0.0.2"
           ("10.0.0.1"%string, 65432) ("10.0.0.2"%string, 65432)
           ChatProtocol.init
           (ChatProtocol.mkPeer [] "bob" [] false [])
           eq_refl ltac:(discriminate) eq_refl
           ltac:(discriminate) ltac:(discriminate)).
Defined.
